(** * GLSL backend: lowering of texture and image instructions

    A shallow embedding of [src/backend/glsl/emit_glsl_image.cpp]
    (namespace [Shader::Backend::GLSL]) and the properties of its
    helpers and emitters.

    - unsigned 32-bit quantities ([u32] immediates, binding slots,
      [gather_component]) are values of [N]; the code never computes
      with them, it only prints them in decimal ([fmt]'s [{}]);
    - [std::string] is [string]; [fmt::format] is written out as
      concatenation, [{}] of an integer is [pretty];
    - C++ exceptions are the [Throw] results of [Result];
    - the mutable [EmitContext& ctx] and the mutable IR are threaded
      through the emitters as an explicit state (monad [Emit]): the
      state survives a [throw], as the referenced objects do. *)

From Stdlib Require Import Ascii.
From stdpp Require Import base strings pretty gmap list.

Open Scope string_scope.

(** Concatenations of literals are computed by [simpl]. *)
#[local] Arguments String.append !s1 s2 : simpl nomatch.

(** ** Exceptions and fallible results *)

(** [NotImplementedException] and [LogicError] are the two exception
    classes the source throws; [OutOfRange] is the [std::out_of_range]
    of the containers' [at]; [AssertionFailure] stands for a violated
    precondition of an IR accessor (see [IR.U32]). *)
Inductive Exception : Type :=
| NotImplementedException (what : string)
| LogicError (what : string)
| OutOfRange
| AssertionFailure (what : string).

Inductive Result (A : Type) : Type :=
| Ok (a : A)
| Throw (e : Exception).

Arguments Ok {A} a.
Arguments Throw {A} e.

Definition result_bind {A B : Type} (r : Result A) (k : A -> Result B) : Result B :=
  match r with
  | Ok a => k a
  | Throw e => Throw e
  end.

Notation "'try!' x ':=' r 'in' k" := (result_bind r (fun x => k))
  (at level 10, x name, r at level 100, k at level 200).

(** The two error classes of the lowering stage. *)
Definition is_unsupported_feature {A : Type} (r : Result A) : bool :=
  match r with
  | Throw (NotImplementedException _) => true
  | _ => false
  end.

Definition is_invariant_violation {A : Type} (r : Result A) : bool :=
  match r with
  | Throw (LogicError _) => true
  | _ => false
  end.

(** ** The IR model read by the backend *)

Module IR.

(** Identity of an [IR::Inst] object (its address in the source). *)
Definition InstId : Type := N.

(** Modelled from the spec: [frontend/ir/opcodes.h] is not part of the
    sources. The opcodes this file names, and the rest of the
    enumeration. *)
Inductive Opcode : Type :=
| Identity
| GetSparseFromOp
| CompositeConstructU32x2
| CompositeConstructU32x3
| CompositeConstructU32x4
| OtherOpcode (raw : N).

#[global] Instance Opcode_eq_dec : EqDecision Opcode.
Proof. solve_decision. Defined.

(** Modelled from the spec: the declaration of [TextureType] is not
    part of the sources. The eight dimensionalities, and any other
    value the bit field of [TextureInstInfo] can hold. *)
Inductive TextureType : Type :=
| Color1D
| ColorArray1D
| Color2D
| ColorArray2D
| Color3D
| ColorCube
| ColorArrayCube
| Buffer
| OutOfEnum (raw : N).

#[global] Instance TextureType_eq_dec : EqDecision TextureType.
Proof. solve_decision. Defined.

(** Modelled from the spec: [frontend/ir/modifiers.h] is not part of
    the sources. [IR::TextureInstInfo], the flag record of a texture
    instruction, with the fields this file reads. *)
Record TextureInstInfo : Type := MkTextureInstInfo {
  type : TextureType;
  descriptor_index : N;
  has_bias : bool;
  has_lod_clamp : bool;
  gather_component : N;
  num_derivates : N
}.

(** Modelled from the spec: [frontend/ir/value.h] is not part of the
    sources. A [Value] is empty ([VVoid]), an immediate typed scalar
    (a [u32], or a scalar of another type whose bits are kept), or a
    reference to the instruction that produces it; an instruction has
    an identity, an opcode, ordered operands, its flags and an optional
    associated sparse-residency pseudo-instruction. *)
Inductive Value : Type :=
| VVoid
| ImmU32 (imm_u32 : N)
| ImmOther (bits : N)
| VOpaque (inst : Inst)
with Inst : Type :=
| MkInst (id : InstId) (op : Opcode) (args : list Value)
         (flags : TextureInstInfo) (sparse_inst : option InstId).

Definition GetId (i : Inst) : InstId := let 'MkInst id _ _ _ _ := i in id.
Definition GetOpcode (i : Inst) : Opcode := let 'MkInst _ op _ _ _ := i in op.
Definition Args (i : Inst) : list Value := let 'MkInst _ _ args _ _ := i in args.
Definition Flags (i : Inst) : TextureInstInfo := let 'MkInst _ _ _ f _ := i in f.

(** Modelled from the spec:
    [inst.GetAssociatedPseudoOperation(IR::Opcode::GetSparseFromOp)],
    the attached pseudo-instruction, or null. *)
Definition GetAssociatedSparse (i : Inst) : option InstId :=
  let 'MkInst _ _ _ _ s := i in s.

(** Modelled from the spec: the recursive inspection of a reference. A
    reference to an [Identity] instruction stands for that instruction's
    operand; [Resolve] follows such a chain to its end. *)
Fixpoint Resolve (v : Value) : Value :=
  match v with
  | VOpaque (MkInst _ Identity (a :: _) _ _) => Resolve a
  | _ => v
  end.

(** Modelled from the spec: [value.IsEmpty()], the value has type
    void. *)
Definition IsEmpty (v : Value) : bool :=
  match v with
  | VVoid => true
  | _ => false
  end.

(** Modelled from the spec: [value.IsImmediate()], after resolution
    not a reference. *)
Definition IsImmediate (v : Value) : bool :=
  match Resolve v with
  | VOpaque _ => false
  | _ => true
  end.

(** Modelled from the spec: [value.U32()], the [u32] immediate; any
    other value violates the accessor's precondition. *)
Definition U32 (v : Value) : Result N :=
  match Resolve v with
  | ImmU32 n => Ok n
  | _ => Throw (AssertionFailure "U32")
  end.

(** Modelled from the spec: [value.InstRecursive()], the producing
    instruction, identities skipped; an immediate has none. *)
Definition InstRecursive (v : Value) : Result Inst :=
  match Resolve v with
  | VOpaque i => Ok i
  | _ => Throw (AssertionFailure "InstRecursive")
  end.

(** Modelled from the spec: [inst->AreAllArgsImmediates()]. *)
Definition AreAllArgsImmediates (i : Inst) : bool :=
  forallb IsImmediate (Args i).

(** Modelled from the spec: [inst->Arg(index)]; an index past the
    operands is refused. *)
Definition Arg (i : Inst) (index : nat) : Result Value :=
  match Args i !! index with
  | Some v => Ok v
  | None => Throw (AssertionFailure "Arg")
  end.

End IR.

(** ** The emission context *)

(** Modelled from the spec: the declaration of [Stage] is not part of
    the sources. Only [Stage::Fragment] is told apart by this file. *)
Inductive Stage : Type :=
| Fragment
| OtherStage (raw : N).

Definition is_fragment (s : Stage) : bool :=
  match s with
  | Fragment => true
  | OtherStage _ => false
  end.

(** Modelled from the spec: [profile.h] is not part of the sources.
    The capability profile; this file reads one flag. *)
Record Profile : Type := MkProfile {
  support_gl_texture_shadow_lod : bool
}.

(** Modelled from the spec: [var_alloc.h] is not part of the sources.
    The semantic types of the variables this file defines. *)
Inductive GlslVarType : Type :=
| U1
| F32
| U32x4
| F32x4.

(** The variable allocator [ctx.var_alloc] is a collaborator of this
    file ([var_alloc.h] is not part of the sources): its state and its
    naming policy are left abstract. [Define] binds a fresh variable of
    the given type to an instruction and returns its name; [Consume]
    returns the text of an operand, the previously bound variable name
    for a reference. *)
Class VarAllocOps (VarAlloc : Type) : Type := MkVarAllocOps {
  Define : VarAlloc -> IR.InstId -> GlslVarType -> string * VarAlloc;
  Consume : VarAlloc -> IR.Value -> string * VarAlloc
}.

(** [EmitContext]: the code sink (the ordered statements appended so
    far), the allocator, the four binding tables, the stage and the
    profile.

    Modelled from the spec: [emit_context.h] is not part of the sources.
    The binding tables are mappings from descriptor index to slot, read
    with [at]; the sink accumulates the statements in order. *)
Record EmitContext (VarAlloc : Type) : Type := MkEmitContext {
  code : list string;
  var_alloc : VarAlloc;
  texture_bindings : gmap N N;
  texture_buffer_bindings : gmap N N;
  image_bindings : gmap N N;
  image_buffer_bindings : gmap N N;
  stage : Stage;
  profile : Profile
}.

Arguments MkEmitContext {VarAlloc}.
Arguments code {VarAlloc}.
Arguments var_alloc {VarAlloc}.
Arguments texture_bindings {VarAlloc}.
Arguments texture_buffer_bindings {VarAlloc}.
Arguments image_bindings {VarAlloc}.
Arguments image_buffer_bindings {VarAlloc}.
Arguments stage {VarAlloc}.
Arguments profile {VarAlloc}.

(** The state an emitter works on: the context, and the part of the IR
    it mutates.

    Modelled from the spec: [Inst::Invalidate] ([microinstruction.cpp])
    is not part of the sources; it marks a pseudo-instruction consumed,
    so that it is not lowered on its own. [invalidated] is the set of
    the instructions so marked. *)
Record State (VarAlloc : Type) : Type := MkState {
  ctx : EmitContext VarAlloc;
  invalidated : gset IR.InstId
}.

Arguments MkState {VarAlloc}.
Arguments ctx {VarAlloc}.
Arguments invalidated {VarAlloc}.

Definition set_ctx {VA : Type} (c : EmitContext VA) (s : State VA) : State VA :=
  MkState c (invalidated s).

Definition set_code {VA : Type} (l : list string) (c : EmitContext VA) : EmitContext VA :=
  MkEmitContext l (var_alloc c) (texture_bindings c) (texture_buffer_bindings c)
                (image_bindings c) (image_buffer_bindings c) (stage c) (profile c).

Definition set_var_alloc {VA : Type} (va : VA) (c : EmitContext VA) : EmitContext VA :=
  MkEmitContext (code c) va (texture_bindings c) (texture_buffer_bindings c)
                (image_bindings c) (image_buffer_bindings c) (stage c) (profile c).

(** ** The monad of the emitters: state, and exceptions that keep it *)

Definition Emit (VA A : Type) : Type := State VA -> Result A * State VA.

Definition ret {VA A : Type} (a : A) : Emit VA A := fun s => (Ok a, s).

Definition throw {VA A : Type} (e : Exception) : Emit VA A := fun s => (Throw e, s).

Definition bind {VA A B : Type} (m : Emit VA A) (k : A -> Emit VA B) : Emit VA B :=
  fun s =>
    match m s with
    | (Ok a, s') => k a s'
    | (Throw e, s') => (Throw e, s')
    end.

Definition lift {VA A : Type} (r : Result A) : Emit VA A := fun s => (r, s).

Definition gets {VA A : Type} (f : EmitContext VA -> A) : Emit VA A :=
  fun s => (Ok (f (ctx s)), s).

Notation "'let!' x ':=' m 'in' k" := (bind m (fun x => k))
  (at level 10, x name, m at level 100, k at level 200).

(** ** Helpers of the anonymous namespace *)

Section Helpers.

Context {VA : Type} `{!VarAllocOps VA}.

(** Modelled from the spec: [ctx.Add(format, args...)] appends one
    statement to the sink. *)
Definition Add (stmt : string) : Emit VA unit :=
  fun s => (Ok tt, set_ctx (set_code (code (ctx s) ++ [stmt]) (ctx s)) s).

(** [ctx.var_alloc.Define(inst, type)]. *)
Definition var_alloc_Define (inst : IR.InstId) (ty : GlslVarType) : Emit VA string :=
  fun s =>
    let r := Define (var_alloc (ctx s)) inst ty in
    (Ok r.1, set_ctx (set_var_alloc r.2 (ctx s)) s).

(** [ctx.var_alloc.Consume(value)]. *)
Definition var_alloc_Consume (value : IR.Value) : Emit VA string :=
  fun s =>
    let r := Consume (var_alloc (ctx s)) value in
    (Ok r.1, set_ctx (set_var_alloc r.2 (ctx s)) s).

(** Modelled from the spec: [ctx.AddU1], [ctx.AddF32], [ctx.AddU32x4],
    [ctx.AddF32x4] [(format, inst, args...)] define a variable of that
    type for [inst] and append the statement whose leading [{}] is its
    name; [rest] is the formatted text after that first [{}]. *)
Definition AddTyped (ty : GlslVarType) (inst : IR.InstId) (rest : string) : Emit VA unit :=
  let! var := var_alloc_Define inst ty in
  Add (var +:+ rest).

Definition AddU1 : IR.InstId -> string -> Emit VA unit := AddTyped U1.
Definition AddF32 : IR.InstId -> string -> Emit VA unit := AddTyped F32.
Definition AddU32x4 : IR.InstId -> string -> Emit VA unit := AddTyped U32x4.
Definition AddF32x4 : IR.InstId -> string -> Emit VA unit := AddTyped F32x4.

(** [table.at(index)]: the slot, or the container's exception. *)
Definition at_ (table : gmap N N) (index : N) : Result N :=
  match table !! index with
  | Some slot => Ok slot
  | None => Throw OutOfRange
  end.

(** Lines 15-22. *)
Definition Texture (c : EmitContext VA) (info : IR.TextureInstInfo) (index : IR.Value)
  : Result string :=
  if decide (IR.type info = IR.Buffer) then
    try! slot := at_ (texture_buffer_bindings c) (IR.descriptor_index info) in
    Ok ("tex" +:+ pretty slot)
  else
    try! slot := at_ (texture_bindings c) (IR.descriptor_index info) in
    Ok ("tex" +:+ pretty slot).

(** Lines 24-31. *)
Definition Image (c : EmitContext VA) (info : IR.TextureInstInfo) (index : IR.Value)
  : Result string :=
  if decide (IR.type info = IR.Buffer) then
    try! slot := at_ (image_buffer_bindings c) (IR.descriptor_index info) in
    Ok ("img" +:+ pretty slot)
  else
    try! slot := at_ (image_bindings c) (IR.descriptor_index info) in
    Ok ("img" +:+ pretty slot).

(** Lines 33-50. *)
Definition CastToIntVec (value : string) (info : IR.TextureInstInfo) : Result string :=
  match IR.type info with
  | IR.Color1D
  | IR.Buffer => Ok ("int(" +:+ value +:+ ")")
  | IR.ColorArray1D
  | IR.Color2D
  | IR.ColorArray2D => Ok ("ivec2(" +:+ value +:+ ")")
  | IR.Color3D
  | IR.ColorCube => Ok ("ivec3(" +:+ value +:+ ")")
  | IR.ColorArrayCube => Ok ("ivec4(" +:+ value +:+ ")")
  | IR.OutOfEnum _ => Throw (NotImplementedException "Offset type {}")
  end.

(** Lines 52-69. *)
Definition TexelFetchCastToInt (value : string) (info : IR.TextureInstInfo) : Result string :=
  match IR.type info with
  | IR.Color1D
  | IR.Buffer => Ok ("int(" +:+ value +:+ ")")
  | IR.ColorArray1D
  | IR.Color2D => Ok ("ivec2(" +:+ value +:+ ")")
  | IR.ColorArray2D
  | IR.Color3D
  | IR.ColorCube => Ok ("ivec3(" +:+ value +:+ ")")
  | IR.ColorArrayCube => Ok ("ivec4(" +:+ value +:+ ")")
  | IR.OutOfEnum _ => Throw (NotImplementedException "Offset type {}")
  end.

(** Lines 71-80. *)
Definition NeedsShadowLodExt (type : IR.TextureType) : bool :=
  match type with
  | IR.ColorArray2D
  | IR.ColorCube
  | IR.ColorArrayCube => true
  | _ => false
  end.

(** [inst->Arg(index).U32()]. *)
Definition ArgU32 (inst : IR.Inst) (index : nat) : Result N :=
  try! v := IR.Arg inst index in IR.U32 v.

(** The literal of lines 88-99, when the producer is one of the three
    unsigned vector constructions; [None] is the [default: break]. *)
Definition literal_offset (inst : IR.Inst) : option (Result string) :=
  match IR.GetOpcode inst with
  | IR.CompositeConstructU32x2 =>
      Some (try! a0 := ArgU32 inst 0 in
            try! a1 := ArgU32 inst 1 in
            Ok ("ivec2(" +:+ pretty a0 +:+ "," +:+ pretty a1 +:+ ")"))
  | IR.CompositeConstructU32x3 =>
      Some (try! a0 := ArgU32 inst 0 in
            try! a1 := ArgU32 inst 1 in
            try! a2 := ArgU32 inst 2 in
            Ok ("ivec3(" +:+ pretty a0 +:+ "," +:+ pretty a1 +:+ "," +:+ pretty a2 +:+ ")"))
  | IR.CompositeConstructU32x4 =>
      Some (try! a0 := ArgU32 inst 0 in
            try! a1 := ArgU32 inst 1 in
            try! a2 := ArgU32 inst 2 in
            try! a3 := ArgU32 inst 3 in
            Ok ("ivec4(" +:+ pretty a0 +:+ "," +:+ pretty a1 +:+ "," +:+ pretty a2
                +:+ "," +:+ pretty a3 +:+ ")"))
  | _ => None
  end.

(** Lines 82-102. *)
Definition GetOffsetVec (offset : IR.Value) : Emit VA string :=
  if IR.IsImmediate offset then
    lift (try! v := IR.U32 offset in Ok ("int(" +:+ pretty v +:+ ")"))
  else
    let! inst := lift (IR.InstRecursive offset) in
    if IR.AreAllArgsImmediates inst then
      match literal_offset inst with
      | Some text => lift text
      | None => var_alloc_Consume offset
      end
    else var_alloc_Consume offset.

(** Lines 104-119. *)
Definition PtpOffsets (offset offset2 : IR.Value) : Result string :=
  try! v0 := IR.InstRecursive offset in
  try! v1 := IR.InstRecursive offset2 in
  if negb (IR.AreAllArgsImmediates v0) || negb (IR.AreAllArgsImmediates v1) then
    Ok "ivec2[](ivec2(0), ivec2(1), ivec2(2), ivec2(3))"
  else
    let opcode := IR.GetOpcode v0 in
    if negb (bool_decide (opcode = IR.GetOpcode v1))
       || negb (bool_decide (opcode = IR.CompositeConstructU32x4)) then
      Throw (LogicError "Invalid PTP arguments")
    else
      let read (a b : nat) := ArgU32 (match a with O => v0 | S _ => v1 end) b in
      try! r00 := read 0 0 in
      try! r01 := read 0 1 in
      try! r02 := read 0 2 in
      try! r03 := read 0 3 in
      try! r10 := read 1 0 in
      try! r11 := read 1 1 in
      try! r12 := read 1 2 in
      try! r13 := read 1 3 in
      Ok ("ivec2[](ivec2(" +:+ pretty r00 +:+ "," +:+ pretty r01
          +:+ "),ivec2(" +:+ pretty r02 +:+ "," +:+ pretty r03
          +:+ "),ivec2(" +:+ pretty r10 +:+ "," +:+ pretty r11
          +:+ "),ivec2(" +:+ pretty r12 +:+ "," +:+ pretty r13 +:+ "))").

(** Modelled from the spec: [sparse_inst->Invalidate()] marks the
    pseudo-instruction consumed. *)
Definition Invalidate (sparse_inst : IR.InstId) : Emit VA unit :=
  fun s => (Ok tt, MkState (ctx s) ({[ sparse_inst ]} ∪ invalidated s)).

(** Lines 121-127. *)
Definition PrepareSparse (inst : IR.Inst) : Emit VA (option IR.InstId) :=
  match IR.GetAssociatedSparse inst with
  | Some sparse_inst =>
      let! _ := Invalidate sparse_inst in
      ret (Some sparse_inst)
  | None => ret None
  end.

End Helpers.

(** ** The emitters *)

Section Emitters.

Context {VA : Type} `{!VarAllocOps VA}.

(** Where an argument list holds several calls, they are run in the
    order written; at most one of them touches the state. *)

(** Lines 130-168. *)
Definition EmitImageSampleImplicitLod (inst : IR.Inst) (index : IR.Value)
    (coords bias_lc : string) (offset : IR.Value) : Emit VA unit :=
  let info := IR.Flags inst in
  if IR.has_lod_clamp info then
    throw (NotImplementedException "EmitImageSampleImplicitLod Lod clamp samples")
  else
    let! texture := bind (gets id) (fun c => lift (Texture c info index)) in
    let bias := if IR.has_bias info then "," +:+ bias_lc else "" in
    let! texel := var_alloc_Define (IR.GetId inst) F32x4 in
    let! sparse_inst := PrepareSparse inst in
    match sparse_inst with
    | None =>
        if negb (IR.IsEmpty offset) then
          let! offset_str := GetOffsetVec offset in
          let! st := gets stage in
          if is_fragment st then
            Add (texel +:+ "=textureOffset(" +:+ texture +:+ "," +:+ coords +:+ ","
                 +:+ offset_str +:+ bias +:+ ");")
          else
            Add (texel +:+ "=textureLodOffset(" +:+ texture +:+ "," +:+ coords +:+ ",0.0,"
                 +:+ offset_str +:+ ");")
        else
          let! st := gets stage in
          if is_fragment st then
            Add (texel +:+ "=texture(" +:+ texture +:+ "," +:+ coords +:+ bias +:+ ");")
          else
            Add (texel +:+ "=textureLod(" +:+ texture +:+ "," +:+ coords +:+ ",0.0);")
    | Some sparse =>
        if negb (IR.IsEmpty offset) then
          let! offset_str := GetOffsetVec offset in
          AddU1 sparse ("=sparseTexelsResidentARB(sparseTextureOffsetARB(" +:+ texture +:+ ","
                        +:+ coords +:+ "," +:+ offset_str +:+ "," +:+ texel +:+ bias +:+ "));")
        else
          AddU1 sparse ("=sparseTexelsResidentARB(sparseTextureARB(" +:+ texture +:+ ","
                        +:+ coords +:+ "," +:+ texel +:+ bias +:+ "));")
    end.

(** Lines 170-203. *)
Definition EmitImageSampleExplicitLod (inst : IR.Inst) (index : IR.Value)
    (coords lod_lc : string) (offset : IR.Value) : Emit VA unit :=
  let info := IR.Flags inst in
  if IR.has_bias info then
    throw (NotImplementedException "EmitImageSampleExplicitLod Bias texture samples")
  else if IR.has_lod_clamp info then
    throw (NotImplementedException "EmitImageSampleExplicitLod Lod clamp samples")
  else
    let! texture := bind (gets id) (fun c => lift (Texture c info index)) in
    let! texel := var_alloc_Define (IR.GetId inst) F32x4 in
    let! sparse_inst := PrepareSparse inst in
    match sparse_inst with
    | None =>
        if negb (IR.IsEmpty offset) then
          let! offset_str := GetOffsetVec offset in
          Add (texel +:+ "=textureLodOffset(" +:+ texture +:+ "," +:+ coords +:+ ","
               +:+ lod_lc +:+ "," +:+ offset_str +:+ ");")
        else
          Add (texel +:+ "=textureLod(" +:+ texture +:+ "," +:+ coords +:+ ","
               +:+ lod_lc +:+ ");")
    | Some sparse =>
        if negb (IR.IsEmpty offset) then
          let! cast_coords := lift (CastToIntVec coords info) in
          let! offset_str := GetOffsetVec offset in
          AddU1 sparse ("=sparseTexelsResidentARB(sparseTexelFetchOffsetARB(" +:+ texture
                        +:+ "," +:+ cast_coords +:+ ",int(" +:+ lod_lc +:+ "),"
                        +:+ offset_str +:+ "," +:+ texel +:+ "));")
        else
          AddU1 sparse ("=sparseTexelsResidentARB(sparseTextureLodARB(" +:+ texture +:+ ","
                        +:+ coords +:+ "," +:+ lod_lc +:+ "," +:+ texel +:+ "));")
    end.

(** Lines 205-261. *)
Definition EmitImageSampleDrefImplicitLod (inst : IR.Inst) (index : IR.Value)
    (coords dref bias_lc : string) (offset : IR.Value) : Emit VA unit :=
  let info := IR.Flags inst in
  let! sparse_inst := PrepareSparse inst in
  if bool_decide (sparse_inst <> None) then
    throw (NotImplementedException "EmitImageSampleDrefImplicitLod Sparse texture samples")
  else if IR.has_bias info then
    throw (NotImplementedException "EmitImageSampleDrefImplicitLod Bias texture samples")
  else if IR.has_lod_clamp info then
    throw (NotImplementedException "EmitImageSampleDrefImplicitLod Lod clamp samples")
  else
    let! texture := bind (gets id) (fun c => lift (Texture c info index)) in
    let bias := if IR.has_bias info then "," +:+ bias_lc else "" in
    let needs_shadow_ext := NeedsShadowLodExt (IR.type info) in
    let cast := if needs_shadow_ext then "vec4" else "vec3" in
    let! c := gets id in
    let use_grad := negb (support_gl_texture_shadow_lod (profile c))
                    && negb (is_fragment (stage c)) && needs_shadow_ext in
    if use_grad then
      if bool_decide (IR.type info = IR.ColorArrayCube) then
        AddF32 (IR.GetId inst) "=0.0f;"
      else
        let d_cast := if bool_decide (IR.type info = IR.ColorArray2D) then "vec2" else "vec3" in
        AddF32 (IR.GetId inst) ("=textureGrad(" +:+ texture +:+ "," +:+ cast +:+ "(" +:+ coords
                                +:+ "," +:+ dref +:+ ")," +:+ d_cast +:+ "(0)," +:+ d_cast
                                +:+ "(0));")
    else if negb (IR.IsEmpty offset) then
      let! offset_str := GetOffsetVec offset in
      if is_fragment (stage c) then
        AddF32 (IR.GetId inst) ("=textureOffset(" +:+ texture +:+ "," +:+ cast +:+ "(" +:+ coords
                                +:+ "," +:+ dref +:+ ")," +:+ offset_str +:+ bias +:+ ");")
      else
        AddF32 (IR.GetId inst) ("=textureLodOffset(" +:+ texture +:+ "," +:+ cast +:+ "("
                                +:+ coords +:+ "," +:+ dref +:+ "),0.0," +:+ offset_str +:+ ");")
    else if is_fragment (stage c) then
      if bool_decide (IR.type info = IR.ColorArrayCube) then
        AddF32 (IR.GetId inst) ("=texture(" +:+ texture +:+ ",vec4(" +:+ coords +:+ "),"
                                +:+ dref +:+ ");")
      else
        AddF32 (IR.GetId inst) ("=texture(" +:+ texture +:+ "," +:+ cast +:+ "(" +:+ coords
                                +:+ "," +:+ dref +:+ ")" +:+ bias +:+ ");")
    else
      AddF32 (IR.GetId inst) ("=textureLod(" +:+ texture +:+ "," +:+ cast +:+ "(" +:+ coords
                              +:+ "," +:+ dref +:+ "),0.0);").

(** Lines 263-314. *)
Definition EmitImageSampleDrefExplicitLod (inst : IR.Inst) (index : IR.Value)
    (coords dref lod_lc : string) (offset : IR.Value) : Emit VA unit :=
  let info := IR.Flags inst in
  let! sparse_inst := PrepareSparse inst in
  if bool_decide (sparse_inst <> None) then
    throw (NotImplementedException "EmitImageSampleDrefExplicitLod Sparse texture samples")
  else if IR.has_bias info then
    throw (NotImplementedException "EmitImageSampleDrefExplicitLod Bias texture samples")
  else if IR.has_lod_clamp info then
    throw (NotImplementedException "EmitImageSampleDrefExplicitLod Lod clamp samples")
  else
    let! texture := bind (gets id) (fun c => lift (Texture c info index)) in
    let needs_shadow_ext := NeedsShadowLodExt (IR.type info) in
    let! c := gets id in
    let use_grad := negb (support_gl_texture_shadow_lod (profile c)) && needs_shadow_ext in
    let cast := if needs_shadow_ext then "vec4" else "vec3" in
    if use_grad then
      if bool_decide (IR.type info = IR.ColorArrayCube) then
        AddF32 (IR.GetId inst) "=0.0f;"
      else
        let d_cast := if bool_decide (IR.type info = IR.ColorArray2D) then "vec2" else "vec3" in
        AddF32 (IR.GetId inst) ("=textureGrad(" +:+ texture +:+ "," +:+ cast +:+ "(" +:+ coords
                                +:+ "," +:+ dref +:+ ")," +:+ d_cast +:+ "(0)," +:+ d_cast
                                +:+ "(0));")
    else if negb (IR.IsEmpty offset) then
      let! offset_str := GetOffsetVec offset in
      if bool_decide (IR.type info = IR.ColorArrayCube) then
        AddF32 (IR.GetId inst) ("=textureLodOffset(" +:+ texture +:+ "," +:+ coords +:+ ","
                                +:+ dref +:+ "," +:+ lod_lc +:+ "," +:+ offset_str +:+ ");")
      else
        AddF32 (IR.GetId inst) ("=textureLodOffset(" +:+ texture +:+ "," +:+ cast +:+ "("
                                +:+ coords +:+ "," +:+ dref +:+ ")," +:+ lod_lc +:+ ","
                                +:+ offset_str +:+ ");")
    else if bool_decide (IR.type info = IR.ColorArrayCube) then
      AddF32 (IR.GetId inst) ("=textureLod(" +:+ texture +:+ "," +:+ coords +:+ "," +:+ dref
                              +:+ "," +:+ lod_lc +:+ ");")
    else
      AddF32 (IR.GetId inst) ("=textureLod(" +:+ texture +:+ "," +:+ cast +:+ "(" +:+ coords
                              +:+ "," +:+ dref +:+ ")," +:+ lod_lc +:+ ");").

(** Lines 316-359. *)
Definition EmitImageGather (inst : IR.Inst) (index : IR.Value) (coords : string)
    (offset offset2 : IR.Value) : Emit VA unit :=
  let info := IR.Flags inst in
  let! texture := bind (gets id) (fun c => lift (Texture c info index)) in
  let! texel := var_alloc_Define (IR.GetId inst) F32x4 in
  let! sparse_inst := PrepareSparse inst in
  let component := pretty (IR.gather_component info) in
  match sparse_inst with
  | None =>
      if IR.IsEmpty offset then
        Add (texel +:+ "=textureGather(" +:+ texture +:+ "," +:+ coords +:+ ",int("
             +:+ component +:+ "));")
      else if IR.IsEmpty offset2 then
        let! offset_str := GetOffsetVec offset in
        Add (texel +:+ "=textureGatherOffset(" +:+ texture +:+ "," +:+ coords +:+ ","
             +:+ offset_str +:+ ",int(" +:+ component +:+ "));")
      else
        let! offsets := lift (PtpOffsets offset offset2) in
        Add (texel +:+ "=textureGatherOffsets(" +:+ texture +:+ "," +:+ coords +:+ ","
             +:+ offsets +:+ ",int(" +:+ component +:+ "));")
  | Some sparse =>
      if IR.IsEmpty offset then
        AddU1 sparse ("=sparseTexelsResidentARB(sparseTextureGatherARB(" +:+ texture +:+ ","
                      +:+ coords +:+ "," +:+ texel +:+ ",int(" +:+ component +:+ ")));")
      else if IR.IsEmpty offset2 then
        let! cast_coords := lift (CastToIntVec coords info) in
        let! offset_str := GetOffsetVec offset in
        AddU1 sparse ("=sparseTexelsResidentARB(sparseTextureGatherOffsetARB(" +:+ texture
                      +:+ "," +:+ cast_coords +:+ "," +:+ offset_str +:+ "," +:+ texel
                      +:+ ",int(" +:+ component +:+ ")));")
      else
        let! offsets := lift (PtpOffsets offset offset2) in
        let! cast_coords := lift (CastToIntVec coords info) in
        AddU1 sparse ("=sparseTexelsResidentARB(sparseTextureGatherOffsetARB(" +:+ texture
                      +:+ "," +:+ cast_coords +:+ "," +:+ offsets +:+ "," +:+ texel
                      +:+ ",int(" +:+ component +:+ ")));")
  end.

(** Lines 361-402. *)
Definition EmitImageGatherDref (inst : IR.Inst) (index : IR.Value) (coords : string)
    (offset offset2 : IR.Value) (dref : string) : Emit VA unit :=
  let info := IR.Flags inst in
  let! texture := bind (gets id) (fun c => lift (Texture c info index)) in
  let! texel := var_alloc_Define (IR.GetId inst) F32x4 in
  let! sparse_inst := PrepareSparse inst in
  match sparse_inst with
  | None =>
      if IR.IsEmpty offset then
        Add (texel +:+ "=textureGather(" +:+ texture +:+ "," +:+ coords +:+ "," +:+ dref
             +:+ ");")
      else if IR.IsEmpty offset2 then
        let! offset_str := GetOffsetVec offset in
        Add (texel +:+ "=textureGatherOffset(" +:+ texture +:+ "," +:+ coords +:+ ","
             +:+ dref +:+ "," +:+ offset_str +:+ ");")
      else
        let! offsets := lift (PtpOffsets offset offset2) in
        Add (texel +:+ "=textureGatherOffsets(" +:+ texture +:+ "," +:+ coords +:+ ","
             +:+ dref +:+ "," +:+ offsets +:+ ");")
  | Some sparse =>
      if IR.IsEmpty offset then
        AddU1 sparse ("=sparseTexelsResidentARB(sparseTextureGatherARB(" +:+ texture +:+ ","
                      +:+ coords +:+ "," +:+ dref +:+ "," +:+ texel +:+ "));")
      else if IR.IsEmpty offset2 then
        let! cast_coords := lift (CastToIntVec coords info) in
        let! offset_str := GetOffsetVec offset in
        AddU1 sparse ("=sparseTexelsResidentARB(sparseTextureGatherOffsetARB(" +:+ texture
                      +:+ "," +:+ cast_coords +:+ "," +:+ dref +:+ ",," +:+ offset_str
                      +:+ "," +:+ texel +:+ "));")
      else
        let! offsets := lift (PtpOffsets offset offset2) in
        let! cast_coords := lift (CastToIntVec coords info) in
        AddU1 sparse ("=sparseTexelsResidentARB(sparseTextureGatherOffsetARB(" +:+ texture
                      +:+ "," +:+ cast_coords +:+ "," +:+ dref +:+ ",," +:+ offsets
                      +:+ "," +:+ texel +:+ "));")
  end.

(** Lines 404-442; here [offset] is text, tested with [empty()]. *)
Definition EmitImageFetch (inst : IR.Inst) (index : IR.Value)
    (coords offset lod ms : string) : Emit VA unit :=
  let info := IR.Flags inst in
  if IR.has_bias info then
    throw (NotImplementedException "EmitImageFetch Bias texture samples")
  else if IR.has_lod_clamp info then
    throw (NotImplementedException "EmitImageFetch Lod clamp samples")
  else
    let! texture := bind (gets id) (fun c => lift (Texture c info index)) in
    let! sparse_inst := PrepareSparse inst in
    let! texel := var_alloc_Define (IR.GetId inst) F32x4 in
    match sparse_inst with
    | None =>
        if negb (bool_decide (offset = "")) then
          let! cast_coords := lift (TexelFetchCastToInt coords info) in
          let! cast_offset := lift (TexelFetchCastToInt offset info) in
          Add (texel +:+ "=texelFetchOffset(" +:+ texture +:+ "," +:+ cast_coords +:+ ",int("
               +:+ lod +:+ ")," +:+ cast_offset +:+ ");")
        else if bool_decide (IR.type info = IR.Buffer) then
          Add (texel +:+ "=texelFetch(" +:+ texture +:+ ",int(" +:+ coords +:+ "));")
        else
          let! cast_coords := lift (TexelFetchCastToInt coords info) in
          Add (texel +:+ "=texelFetch(" +:+ texture +:+ "," +:+ cast_coords +:+ ",int("
               +:+ lod +:+ "));")
    | Some sparse =>
        if negb (bool_decide (offset = "")) then
          let! cast_coords := lift (CastToIntVec coords info) in
          let! cast_offset := lift (CastToIntVec offset info) in
          AddU1 sparse ("=sparseTexelsResidentARB(sparseTexelFetchOffsetARB(" +:+ texture
                        +:+ "," +:+ cast_coords +:+ ",int(" +:+ lod +:+ ")," +:+ cast_offset
                        +:+ "," +:+ texel +:+ "));")
        else
          let! cast_coords := lift (CastToIntVec coords info) in
          AddU1 sparse ("=sparseTexelsResidentARB(sparseTexelFetchARB(" +:+ texture +:+ ","
                        +:+ cast_coords +:+ ",int(" +:+ lod +:+ ")," +:+ texel +:+ "));")
    end.

(** Lines 444-470. *)
Definition EmitImageQueryDimensions (inst : IR.Inst) (index : IR.Value) (lod : string)
  : Emit VA unit :=
  let info := IR.Flags inst in
  let! texture := bind (gets id) (fun c => lift (Texture c info index)) in
  match IR.type info with
  | IR.Color1D =>
      AddU32x4 (IR.GetId inst)
        ("=uvec4(uint(textureSize(" +:+ texture +:+ ",int(" +:+ lod
         +:+ "))),0u,0u,uint(textureQueryLevels(" +:+ texture +:+ ")));")
  | IR.ColorArray1D
  | IR.Color2D
  | IR.ColorCube =>
      AddU32x4 (IR.GetId inst)
        ("=uvec4(uvec2(textureSize(" +:+ texture +:+ ",int(" +:+ lod
         +:+ "))),0u,uint(textureQueryLevels(" +:+ texture +:+ ")));")
  | IR.ColorArray2D
  | IR.Color3D
  | IR.ColorArrayCube =>
      AddU32x4 (IR.GetId inst)
        ("=uvec4(uvec3(textureSize(" +:+ texture +:+ ",int(" +:+ lod
         +:+ "))),uint(textureQueryLevels(" +:+ texture +:+ ")));")
  | IR.Buffer => throw (NotImplementedException "EmitImageQueryDimensions Texture buffers")
  | IR.OutOfEnum _ => throw (LogicError "Unspecified image type {}")
  end.

(** Lines 472-478. *)
Definition EmitImageQueryLod (inst : IR.Inst) (index : IR.Value) (coords : string)
  : Emit VA unit :=
  let info := IR.Flags inst in
  let! texture := bind (gets id) (fun c => lift (Texture c info index)) in
  AddF32x4 (IR.GetId inst)
    ("=vec4(textureQueryLod(" +:+ texture +:+ "," +:+ coords +:+ "),0.0,0.0);").

(** Lines 480-508. *)
Definition EmitImageGradient (inst : IR.Inst) (index : IR.Value) (coords : string)
    (derivatives offset lod_clamp : IR.Value) : Emit VA unit :=
  let info := IR.Flags inst in
  if IR.has_lod_clamp info then
    throw (NotImplementedException "EmitImageGradient Lod clamp samples")
  else
    let! sparse_inst := PrepareSparse inst in
    if bool_decide (sparse_inst <> None) then
      throw (NotImplementedException "EmitImageGradient Sparse")
    else if negb (IR.IsEmpty offset) then
      throw (NotImplementedException "EmitImageGradient offset")
    else
      let! texture := bind (gets id) (fun c => lift (Texture c info index)) in
      let! texel := var_alloc_Define (IR.GetId inst) F32x4 in
      let multi_component := bool_decide (1 < IR.num_derivates info)%N || IR.has_lod_clamp info in
      let! derivatives_vec := var_alloc_Consume derivatives in
      if multi_component then
        Add (texel +:+ "=textureGrad(" +:+ texture +:+ "," +:+ coords +:+ ",vec2("
             +:+ derivatives_vec +:+ ".xz),vec2(" +:+ derivatives_vec +:+ ".yz));")
      else
        Add (texel +:+ "=textureGrad(" +:+ texture +:+ "," +:+ coords +:+ ",float("
             +:+ derivatives_vec +:+ ".x),float(" +:+ derivatives_vec +:+ ".y));").

(** Lines 510-520. *)
Definition EmitImageRead (inst : IR.Inst) (index : IR.Value) (coords : string)
  : Emit VA unit :=
  let info := IR.Flags inst in
  let! sparse_inst := PrepareSparse inst in
  if bool_decide (sparse_inst <> None) then
    throw (NotImplementedException "EmitImageRead Sparse")
  else
    let! image := bind (gets id) (fun c => lift (Image c info index)) in
    let! cast_coords := lift (TexelFetchCastToInt coords info) in
    AddU32x4 (IR.GetId inst) ("=uvec4(imageLoad(" +:+ image +:+ "," +:+ cast_coords +:+ "));").

(** Lines 522-529. *)
Definition EmitImageWrite (inst : IR.Inst) (index : IR.Value) (coords color : string)
  : Emit VA unit :=
  let info := IR.Flags inst in
  let! image := bind (gets id) (fun c => lift (Image c info index)) in
  let! cast_coords := lift (TexelFetchCastToInt coords info) in
  Add ("imageStore(" +:+ image +:+ "," +:+ cast_coords +:+ "," +:+ color +:+ ");").

End Emitters.

(** ** An allocator to run the emitters with *)

(** A small allocator, used where the emitters are evaluated on a
    concrete program: variables are numbered in the order of their
    definition, the name keeps the type, and an operand reads back the
    name bound to its producer. *)
Record SimpleAlloc : Type := MkSimpleAlloc {
  next_var : N;
  definitions : gmap IR.InstId string
}.

Definition type_prefix (ty : GlslVarType) : string :=
  match ty with
  | U1 => "b"
  | F32 => "f"
  | U32x4 => "u4_"
  | F32x4 => "f4_"
  end.

Definition simple_Define (va : SimpleAlloc) (inst : IR.InstId) (ty : GlslVarType)
  : string * SimpleAlloc :=
  let name := type_prefix ty +:+ pretty (next_var va) in
  (name, MkSimpleAlloc (next_var va + 1) (<[inst := name]> (definitions va))).

Definition simple_Consume (va : SimpleAlloc) (value : IR.Value) : string * SimpleAlloc :=
  match IR.Resolve value with
  | IR.VOpaque i => (default "" (definitions va !! IR.GetId i), va)
  | IR.ImmU32 n => (pretty n +:+ "u", va)
  | _ => ("", va)
  end.

#[global] Instance SimpleAlloc_ops : VarAllocOps SimpleAlloc :=
  MkVarAllocOps SimpleAlloc simple_Define simple_Consume.

(** ** Definitions that follow the specification's words *)

(** A two-component integer vector literal, and the array of taps of
    the PTP encoder. *)
Definition ivec2_literal (tap : N * N) : string :=
  "ivec2(" +:+ pretty tap.1 +:+ "," +:+ pretty tap.2 +:+ ")".

Definition ptp_array (taps : list (N * N)) : string :=
  "ivec2[](" +:+ String.concat "," (ivec2_literal <$> taps) +:+ ")".

(** The array the specification describes: value A supplies the X
    components in order, value B the Y components. *)
Definition ptp_pairwise (a b : list N) : string := ptp_array (zip a b).

(** Decimal digits, and the texts made of them. *)
Definition is_digit (c : ascii) : bool :=
  bool_decide (c ∈ ["0"; "1"; "2"; "3"; "4"; "5"; "6"; "7"; "8"; "9"]%char).

Fixpoint all_digits (s : string) : bool :=
  match s with
  | "" => true
  | String c s' => is_digit c && all_digits s'
  end.

(** The placeholder of the PTP encoder. *)
Definition ptp_placeholder : string := "ivec2[](ivec2(0), ivec2(1), ivec2(2), ivec2(3))".

(** The signed-integer cast of a given width, and the width the
    specification gives for each dimensionality: 1D and Buffer scalar,
    Array1D and 2D 2-wide, Array2D, 3D and Cube 3-wide, ArrayCube
    4-wide, nothing for a dimensionality that is not listed. *)
Definition int_cast (width : nat) (value : string) : string :=
  match width with
  | 1 => "int"
  | 2 => "ivec2"
  | 3 => "ivec3"
  | _ => "ivec4"
  end +:+ "(" +:+ value +:+ ")".

Definition coordinate_cast_width (ty : IR.TextureType) : option nat :=
  match ty with
  | IR.Color1D | IR.Buffer => Some 1
  | IR.ColorArray1D | IR.Color2D => Some 2
  | IR.ColorArray2D | IR.Color3D | IR.ColorCube => Some 3
  | IR.ColorArrayCube => Some 4
  | IR.OutOfEnum _ => None
  end.

Definition cast_of_width (width : option nat) (value : string) : Result string :=
  match width with
  | Some w => Ok (int_cast w value)
  | None => Throw (NotImplementedException "Offset type {}")
  end.

(** The packing of a dimension query: the size, cast to [width]
    unsigned components, zeros up to the third component, and the
    mip-level count in the fourth. *)
Definition unsigned_cast (width : nat) : string :=
  match width with
  | 1 => "uint"
  | 2 => "uvec2"
  | _ => "uvec3"
  end.

Definition zero_padding (n : nat) : string := String.concat "" (replicate n "0u,").

Definition pack_dimensions (width : nat) (texture lod : string) : string :=
  "=uvec4(" +:+ unsigned_cast width +:+ "(textureSize(" +:+ texture +:+ ",int(" +:+ lod
  +:+ ")))," +:+ zero_padding (3 - width) +:+ "uint(textureQueryLevels(" +:+ texture +:+ ")));".

(** The width of the size in a dimension query, as the emitter has
    it: the components of [textureSize] for that sampler. *)
Definition query_size_width (ty : IR.TextureType) : option nat :=
  match ty with
  | IR.Color1D => Some 1
  | IR.ColorArray1D | IR.Color2D | IR.ColorCube => Some 2
  | IR.ColorArray2D | IR.Color3D | IR.ColorArrayCube => Some 3
  | IR.Buffer | IR.OutOfEnum _ => None
  end.

(** The literal of an integer vector, and the width of the vector an
    unsigned construction opcode builds. *)
Definition vector_literal (components : list N) : string :=
  "ivec" +:+ pretty (length components) +:+ "("
  +:+ String.concat "," (pretty <$> components) +:+ ")".

Definition construct_width (op : IR.Opcode) : option nat :=
  match op with
  | IR.CompositeConstructU32x2 => Some 2
  | IR.CompositeConstructU32x3 => Some 3
  | IR.CompositeConstructU32x4 => Some 4
  | _ => None
  end.

(** The binding table a lookup reads: by resource kind (sampled
    texture or storage image) and by dimensionality (buffer or not). *)
Definition binding_table {VA : Type} (c : EmitContext VA) (image : bool)
    (info : IR.TextureInstInfo) : gmap N N :=
  match image, bool_decide (IR.type info = IR.Buffer) with
  | false, true => texture_buffer_bindings c
  | false, false => texture_bindings c
  | true, true => image_buffer_bindings c
  | true, false => image_bindings c
  end.

(** The state once the statement [<var><rest>] has been appended,
    [<var>] being the fresh variable of type [ty] bound to [inst]. *)
Definition bound_statement {VA : Type} `{!VarAllocOps VA} (ty : GlslVarType)
    (inst : IR.InstId) (rest : string) (s : State VA) : State VA :=
  let r := Define (var_alloc (ctx s)) inst ty in
  MkState
    (MkEmitContext (code (ctx s) ++ [r.1 +:+ rest]) r.2
       (texture_bindings (ctx s)) (texture_buffer_bindings (ctx s))
       (image_bindings (ctx s)) (image_buffer_bindings (ctx s))
       (stage (ctx s)) (profile (ctx s)))
    (invalidated s).

(** The state once a fresh variable of type [ty] has been bound to
    [inst], and the state once the statement [stmt] has been appended. *)
Definition defined {VA : Type} `{!VarAllocOps VA} (ty : GlslVarType) (inst : IR.InstId)
    (s : State VA) : State VA :=
  (var_alloc_Define inst ty s).2.

Definition appended {VA : Type} (stmt : string) (s : State VA) : State VA :=
  set_ctx (set_code (code (ctx s) ++ [stmt]) (ctx s)) s.

(** The instruction without its bias modifier. *)
Definition without_bias (inst : IR.Inst) : IR.Inst :=
  let info := IR.Flags inst in
  IR.MkInst (IR.GetId inst) (IR.GetOpcode inst) (IR.Args inst)
    (IR.MkTextureInstInfo (IR.type info) (IR.descriptor_index info) false
       (IR.has_lod_clamp info) (IR.gather_component info) (IR.num_derivates info))
    (IR.GetAssociatedSparse inst).

(** The operations that have a sparse-capable variant, and the name
    all the calls of that variant start with: [sparse], then the name
    of the call the operation is lowered to without a sparse
    pseudo-instruction ([texture], [textureLod], [textureGather],
    [texelFetch]). *)
Inductive Operation : Type :=
| SampleImplicitLod
| SampleExplicitLod
| Gather
| GatherDref
| Fetch.

Definition sparse_family (op : Operation) : string :=
  match op with
  | SampleImplicitLod => "sparseTexture"
  | SampleExplicitLod => "sparseTextureLod"
  | Gather | GatherDref => "sparseTextureGather"
  | Fetch => "sparseTexelFetch"
  end.

(** [mentions needle text]: [needle] occurs in [text]. *)
Definition mentions (needle text : string) : bool :=
  bool_decide (is_Some (String.index 0 needle text)).


(** ** Footprints of the emitters *)

(** The part of the context no emitter writes: the four binding
    tables, the stage and the profile. *)
Definition same_tables {VA : Type} (s s' : State VA) : Prop :=
  texture_bindings (ctx s') = texture_bindings (ctx s)
  /\ texture_buffer_bindings (ctx s') = texture_buffer_bindings (ctx s)
  /\ image_bindings (ctx s') = image_bindings (ctx s)
  /\ image_buffer_bindings (ctx s') = image_buffer_bindings (ctx s)
  /\ stage (ctx s') = stage (ctx s)
  /\ profile (ctx s') = profile (ctx s).

(** The state with another allocator, and the state once a
    pseudo-instruction has been marked consumed. *)
Definition with_var_alloc {VA : Type} (va : VA) (s : State VA) : State VA :=
  set_ctx (set_var_alloc va (ctx s)) s.

Definition invalidate {VA : Type} (sparse : IR.InstId) (s : State VA) : State VA :=
  MkState (ctx s) ({[ sparse ]} ∪ invalidated s).

(** [quiet E R m]: a run of [m] takes the state to one related by [R],
    and throws only exceptions of [E].
    [sound E R Q m]: a run of the emitter [m] that returns takes the
    state to one related by [Q]; a run that throws throws an exception
    of [E] and takes the state to one related by [R]. *)
Definition quiet {VA A : Type} (E : Exception -> Prop) (R : relation (State VA))
    (m : Emit VA A) : Prop :=
  forall s, R s (m s).2 /\ forall e, (m s).1 = Throw e -> E e.

Definition sound {VA : Type} (E : Exception -> Prop) (R Q : relation (State VA))
    (m : Emit VA unit) : Prop :=
  forall s,
    match (m s).1 with
    | Ok _ => Q s (m s).2
    | Throw e => E e /\ R s (m s).2
    end.

(** An emitter appends one statement when it returns and none when it
    throws, and leaves the tables, the stage and the profile alone. *)
Definition emits_atomically {VA : Type} (m : Emit VA unit) : Prop :=
  forall s,
    same_tables s (m s).2
    /\ match (m s).1 with
       | Ok _ => exists stmt, code (ctx (m s).2) = (code (ctx s) ++ [stmt])%list
       | Throw _ => code (ctx (m s).2) = code (ctx s)
       end.

(** An emitter marks no instruction consumed but those of [allowed],
    and unmarks none. *)
Definition marks_only {VA : Type} (allowed : gset IR.InstId) (m : Emit VA unit) : Prop :=
  forall s, invalidated s ⊆ invalidated (m s).2
            /\ invalidated (m s).2 ⊆ invalidated s ∪ allowed.

(** The pseudo-instructions attached to an instruction, as a set. *)
Definition sparse_set (inst : IR.Inst) : gset IR.InstId :=
  match IR.GetAssociatedSparse inst with
  | Some sparse => {[ sparse ]}
  | None => ∅
  end.



(** The two relations behind [emits_atomically]: the sink kept as it
    is, and the sink grown by one statement. *)
Definition sink_kept {VA : Type} (s s' : State VA) : Prop :=
  code (ctx s') = code (ctx s) /\ same_tables s s'.

Definition sink_grown {VA : Type} (s s' : State VA) : Prop :=
  (exists stmt, code (ctx s') = (code (ctx s) ++ [stmt])%list) /\ same_tables s s'.

(** The relation behind [marks_only]. *)
Definition marked_within {VA : Type} (allowed : gset IR.InstId) (s s' : State VA) : Prop :=
  invalidated s ⊆ invalidated s' /\ invalidated s' ⊆ invalidated s ∪ allowed.

(** A run that throws, and leaves the sink and the allocator as they
    were. *)
Definition fails_untouched {VA : Type} (m : Emit VA unit) (s : State VA) : Prop :=
  (exists e, (m s).1 = Throw e)
  /\ code (ctx (m s).2) = code (ctx s)
  /\ var_alloc (ctx (m s).2) = var_alloc (ctx s).

(** ** The environment of a lowering *)

(** The state with the stage replaced by [g] of it and the profile by
    [h] of it. *)
Definition map_environment {VA : Type} (g : Stage -> Stage) (h : Profile -> Profile)
    (s : State VA) : State VA :=
  MkState
    (MkEmitContext (code (ctx s)) (var_alloc (ctx s))
       (texture_bindings (ctx s)) (texture_buffer_bindings (ctx s))
       (image_bindings (ctx s)) (image_buffer_bindings (ctx s))
       (g (stage (ctx s))) (h (profile (ctx s))))
    (invalidated s).

(** [unaffected P f m]: started in a state of [P], [m] returns or
    throws the same in the state changed by [f] as in the original one,
    and its final state is the original final state changed by [f]; the
    final state is in [P] again. *)
Definition unaffected {VA A : Type} (P : State VA -> Prop) (f : State VA -> State VA)
    (m : Emit VA A) : Prop :=
  forall s, P s -> m (f s) = ((m s).1, f (m s).2) /\ P (m s).2.

(** Two sets of states: all of them, and those of the fragment
    stage. *)
Definition anywhere {VA : Type} (s : State VA) : Prop := True.

Definition in_fragment_stage {VA : Type} (s : State VA) : Prop :=
  is_fragment (stage (ctx s)) = true.

(** ** An allocator that records the calls made to it *)

Inductive AllocCall : Type :=
| CallDefine (inst : IR.InstId) (ty : GlslVarType)
| CallConsume (value : IR.Value).

(** An allocator together with the calls it has served, oldest first:
    it names the variables as the allocator it wraps does. *)
Record Recording (VA : Type) : Type := MkRecording {
  recorded : VA;
  calls : list AllocCall
}.

Arguments MkRecording {VA}.
Arguments recorded {VA}.
Arguments calls {VA}.

#[global] Instance RecordingOps (VA : Type) `{!VarAllocOps VA} : VarAllocOps (Recording VA) := {|
  Define r inst ty :=
    ((Define (recorded r) inst ty).1,
     MkRecording (Define (recorded r) inst ty).2 (calls r ++ [CallDefine inst ty])%list);
  Consume r value :=
    ((Consume (recorded r) value).1,
     MkRecording (Consume (recorded r) value).2 (calls r ++ [CallConsume value])%list)
|}.

(** The variables a list of calls defines, and the operands it
    consumes, in order. *)
Definition defines (l : list AllocCall) : list (IR.InstId * GlslVarType) :=
  omap (fun c => match c with CallDefine inst ty => Some (inst, ty) | _ => None end) l.

Definition consumes (l : list AllocCall) : list IR.Value :=
  omap (fun c => match c with CallConsume value => Some value | _ => None end) l.

(** [records m P]: a run of [m] that returns has made the allocator
    calls [l], with [P l]. *)
Definition records {VA : Type} (m : Emit (Recording VA) unit)
    (P : list AllocCall -> Prop) : Prop :=
  forall s, (m s).1 = Ok tt ->
    exists l, calls (var_alloc (ctx (m s).2)) = (calls (var_alloc (ctx s)) ++ l)%list /\ P l.

(** The result variable of type [ty] and, when the instruction has a
    sparse pseudo-instruction, the residency flag after it. *)
Definition with_residency (inst : IR.Inst) (ty : GlslVarType)
  : list (IR.InstId * GlslVarType) :=
  (IR.GetId inst, ty)
  :: match IR.GetAssociatedSparse inst with
     | Some sparse => [(sparse, U1)]
     | None => []
     end.

(** The list [l] is empty or holds [value] alone. *)
Definition at_most (value : IR.Value) (l : list IR.Value) : Prop := l = [] \/ l = [value].

(** ** Postconditions *)

(** [wp m post s]: the result and the final state of [m] run from [s]
    satisfy [post]. *)
Definition wp {VA A : Type} (m : Emit VA A) (post : Result A -> State VA -> Prop)
    (s : State VA) : Prop :=
  post (m s).1 (m s).2.

(** The postcondition behind [records], from the state [s0]. *)
Definition recorded_since {VA : Type} (s0 : State (Recording VA))
    (P : list AllocCall -> Prop) (r : Result unit) (s : State (Recording VA)) : Prop :=
  r = Ok tt ->
  exists l, calls (var_alloc (ctx s)) = (calls (var_alloc (ctx s0)) ++ l)%list /\ P l.

(** The descriptor index of [info] is registered in the table its kind
    and dimensionality select. *)
Definition bound {VA : Type} (c : EmitContext VA) (image : bool) (info : IR.TextureInstInfo)
  : Prop :=
  is_Some (binding_table c image info !! IR.descriptor_index info).


(** ** The text of a call *)

(** A function applied to its arguments, as GLSL writes it. *)
Definition call (function : string) (arguments : list string) : string :=
  function +:+ "(" +:+ String.concat "," arguments +:+ ")".

(** The offset operand of a sample read as the list [offsets] of
    argument texts, from the state [s] to the state [s']: no argument
    for an empty operand, the text [GetOffsetVec] returns otherwise. *)
Definition offset_read {VA : Type} `{!VarAllocOps VA} (offset : IR.Value) (s : State VA)
    (offsets : list string) (s' : State VA) : Prop :=
  if IR.IsEmpty offset then offsets = [] /\ s' = s
  else exists text, GetOffsetVec offset s = (Ok text, s') /\ offsets = [text].

(** ** Sample programs *)

Definition sample_info (ty : IR.TextureType) : IR.TextureInstInfo :=
  IR.MkTextureInstInfo ty 0%N false false 0%N 0%N.

(** An unsigned vector construction with immediate components. *)
Definition construct (id : IR.InstId) (op : IR.Opcode) (components : list N) : IR.Inst :=
  IR.MkInst id op (IR.ImmU32 <$> components) (sample_info IR.Color2D) None.

Definition ptp_A : IR.Inst := construct 1%N IR.CompositeConstructU32x4 [1; 2; 3; 4]%N.
Definition ptp_B : IR.Inst := construct 2%N IR.CompositeConstructU32x4 [5; 6; 7; 8]%N.

(** An instruction whose result is only known at run time. *)
Definition dynamic_inst : IR.Inst :=
  IR.MkInst 3%N (IR.OtherOpcode 0%N) [] (sample_info IR.Color2D) None.

(** A 4-wide construction with one dynamic component, and a 2-wide
    construction of immediates. *)
Definition ptp_dynamic : IR.Inst :=
  IR.MkInst 4%N IR.CompositeConstructU32x4
    [IR.ImmU32 1%N; IR.ImmU32 2%N; IR.ImmU32 3%N; IR.VOpaque dynamic_inst]
    (sample_info IR.Color2D) None.

Definition ptp_narrow : IR.Inst := construct 5%N IR.CompositeConstructU32x2 [5; 6]%N.

Definition sample_context : EmitContext SimpleAlloc :=
  MkEmitContext [] (MkSimpleAlloc 0 ∅) {[ 0%N := 7%N ]} {[ 1%N := 9%N ]} {[ 0%N := 2%N ]} ∅
                (OtherStage 0) (MkProfile false).

Definition sample_state : State SimpleAlloc := MkState sample_context ∅.

(** A texture instruction of the given dimensionality, without
    modifiers and without a sparse pseudo-instruction. *)
Definition texture_inst (ty : IR.TextureType) : IR.Inst :=
  IR.MkInst 10%N (IR.OtherOpcode 1%N) [] (sample_info ty) None.

(** The same with the bias modifier, with the LOD clamp modifier, and
    with an attached sparse-residency pseudo-instruction. *)
Definition biased_inst (ty : IR.TextureType) : IR.Inst :=
  IR.MkInst 10%N (IR.OtherOpcode 1%N) []
    (IR.MkTextureInstInfo ty 0%N true false 0%N 0%N) None.

Definition clamped_inst (ty : IR.TextureType) : IR.Inst :=
  IR.MkInst 10%N (IR.OtherOpcode 1%N) []
    (IR.MkTextureInstInfo ty 0%N false true 0%N 0%N) None.

Definition sparse_texture_inst (ty : IR.TextureType) : IR.Inst :=
  IR.MkInst 10%N (IR.OtherOpcode 1%N) [] (sample_info ty) (Some 11%N).

(** A reference to a 2-wide construction of immediates, seen through
    an identity. *)
Definition folded_offset : IR.Value :=
  IR.VOpaque (IR.MkInst 6%N IR.Identity [IR.VOpaque ptp_narrow] (sample_info IR.Color2D) None).

(** A texture instruction whose descriptor is in no table. *)
Definition unbound_inst (ty : IR.TextureType) : IR.Inst :=
  IR.MkInst 12%N (IR.OtherOpcode 1%N) []
    (IR.MkTextureInstInfo ty 5%N false false 0%N 0%N) None.

(** A depth-compare sample with an attached sparse pseudo-instruction. *)
Definition sparse_dref_inst : IR.Inst := sparse_texture_inst IR.Color2D.

(** The first PTP operand, seen through an identity. *)
Definition ptp_A_alias : IR.Value :=
  IR.VOpaque (IR.MkInst 8%N IR.Identity [IR.VOpaque ptp_A] (sample_info IR.Color2D) None).

(** The sample state in the fragment stage. *)
Definition fragment_state : State SimpleAlloc :=
  MkState
    (MkEmitContext [] (MkSimpleAlloc 0 ∅) {[ 0%N := 7%N ]} {[ 1%N := 9%N ]} {[ 0%N := 2%N ]} ∅
                   Fragment (MkProfile false))
    ∅.

(** The sample state once the dynamic instruction has a variable. *)
Definition derivative_state : State SimpleAlloc := defined F32x4 3%N sample_state.

(** A state whose only binding is a texture buffer, at slot 9. *)
Definition buffer_state : State SimpleAlloc :=
  MkState
    (MkEmitContext [] (MkSimpleAlloc 0 ∅) ∅ {[ 0%N := 9%N ]} ∅ ∅ Fragment (MkProfile true))
    ∅.

(** ** Basic facts *)

Lemma string_app_assoc (s1 s2 s3 : string) : (s1 +:+ s2) +:+ s3 = s1 +:+ (s2 +:+ s3).
Proof. induction s1 as [|c s1 IH]; simpl; [reflexivity | by rewrite IH]. Qed.

Ltac normalize_strings := repeat (rewrite string_app_assoc; simpl).

(** Unfolds the monad and the sink of an emitter. *)
Ltac run_emitter :=
  unfold bind, gets, lift, throw, ret, PrepareSparse, Invalidate,
    AddF32, AddU1, AddU32x4, AddF32x4, AddTyped, Add, var_alloc_Define, var_alloc_Consume,
    defined, appended, bound_statement;
  simpl.

Lemma U32_IsImmediate (v : IR.Value) (n : N) : IR.U32 v = Ok n -> IR.IsImmediate v = true.
Proof. unfold IR.U32, IR.IsImmediate. by destruct (IR.Resolve v). Qed.

Lemma InstRecursive_not_immediate (v : IR.Value) (i : IR.Inst) :
  IR.InstRecursive v = Ok i -> IR.IsImmediate v = false.
Proof. unfold IR.InstRecursive, IR.IsImmediate. by destruct (IR.Resolve v). Qed.

Lemma all_U32_AreAllArgsImmediates (i : IR.Inst) (ns : list N) :
  Forall2 (fun v n => IR.U32 v = Ok n) (IR.Args i) ns -> IR.AreAllArgsImmediates i = true.
Proof.
  unfold IR.AreAllArgsImmediates. induction 1 as [|v n vs ns Hv _ IH]; simpl; [done|].
  by rewrite (U32_IsImmediate v n Hv), IH.
Qed.

Lemma ArgU32_lookup (i : IR.Inst) (ns : list N) (k : nat) (n : N) :
  Forall2 (fun v n => IR.U32 v = Ok n) (IR.Args i) ns -> ns !! k = Some n ->
  ArgU32 i k = Ok n.
Proof.
  intros Hall Hk. unfold ArgU32, IR.Arg.
  destruct (Forall2_lookup_r _ _ _ _ _ Hall Hk) as (v & -> & Hv). exact Hv.
Qed.

(** *** The printed taps determine the taps *)

Lemma pretty_N_char_digit (x : N) : is_digit (pretty_N_char x) = true.
Proof. unfold pretty_N_char. by repeat case_match. Qed.

Lemma pretty_N_go_digits (x : N) (s : string) :
  all_digits s = true -> all_digits (pretty_N_go x s) = true.
Proof.
  revert s. induction (N.lt_wf_0 x) as [x _ IH]. intros s Hs.
  destruct (decide (x = 0%N)) as [->|Hx]; [by rewrite pretty_N_go_0|].
  rewrite pretty_N_go_step by lia.
  apply IH; [apply N.div_lt; lia|]. simpl. by rewrite pretty_N_char_digit.
Qed.

Lemma pretty_N_digits (x : N) : all_digits (pretty x) = true.
Proof.
  unfold pretty, pretty_N. case_decide; [reflexivity|]. by apply pretty_N_go_digits.
Qed.

(** A character that is not a digit ends a number. *)
Lemma digits_delimited (s1 s2 t1 t2 : string) (c : ascii) :
  all_digits s1 = true -> all_digits s2 = true -> is_digit c = false ->
  s1 +:+ String c t1 = s2 +:+ String c t2 -> s1 = s2 /\ t1 = t2.
Proof.
  intros H1 H2 Hc. revert s2 H2.
  induction s1 as [|d1 s1 IH]; intros [|d2 s2] H2 Heq; simpl in *.
  - by injection Heq as ->.
  - injection Heq as -> _. by rewrite Hc in H2.
  - injection Heq as -> _. by rewrite Hc in H1.
  - injection Heq as -> Heq.
    apply andb_true_iff in H1 as [_ H1]. apply andb_true_iff in H2 as [_ H2].
    by destruct (IH H1 s2 H2 Heq) as [-> ->].
Qed.

Lemma pretty_delimited (x y : N) (t1 t2 : string) (c : ascii) :
  is_digit c = false ->
  pretty x +:+ String c t1 = pretty y +:+ String c t2 -> x = y /\ t1 = t2.
Proof.
  intros Hc Heq.
  destruct (digits_delimited _ _ _ _ c (pretty_N_digits x) (pretty_N_digits y) Hc Heq)
    as [Hxy ->].
  split; [|done]. by apply (inj pretty).
Qed.

Lemma ivec2_literal_delimited (p q : N * N) (t1 t2 : string) :
  ivec2_literal p +:+ t1 = ivec2_literal q +:+ t2 -> p = q /\ t1 = t2.
Proof.
  destruct p as [x1 x2], q as [y1 y2]. unfold ivec2_literal.
  rewrite !string_app_assoc. intros Heq.
  apply (inj (String.append "ivec2(")) in Heq. simpl in Heq.
  apply pretty_delimited in Heq as [-> Heq]; [|done].
  apply pretty_delimited in Heq as [-> Heq]; [|done]. done.
Qed.

Lemma concat_singleton (sep x : string) : String.concat sep [x] = x.
Proof. reflexivity. Qed.

Lemma concat_cons_cons (sep x y : string) (l : list string) :
  String.concat sep (x :: y :: l) = x +:+ sep +:+ String.concat sep (y :: l).
Proof. reflexivity. Qed.

Lemma ivec2_literal_not_closing (p : N * N) (t : string) : ")" <> ivec2_literal p +:+ t.
Proof. unfold ivec2_literal. rewrite !string_app_assoc. simpl. discriminate. Qed.

Lemma taps_delimited (l1 l2 : list (N * N)) :
  String.concat "," (ivec2_literal <$> l1) +:+ ")"
  = String.concat "," (ivec2_literal <$> l2) +:+ ")" -> l1 = l2.
Proof.
  revert l2. induction l1 as [|p l1 IH]; intros [|q l2]; [done|..].
  - destruct l2 as [|q' l2]; rewrite !fmap_cons, ?concat_cons_cons, ?concat_singleton,
      ?string_app_assoc; intros Heq; by destruct (ivec2_literal_not_closing _ _ Heq).
  - destruct l1 as [|p' l1]; rewrite !fmap_cons, ?concat_cons_cons, ?concat_singleton,
      ?string_app_assoc; intros Heq; symmetry in Heq;
      by destruct (ivec2_literal_not_closing _ _ Heq).
  - destruct l1 as [|p' l1], l2 as [|q' l2];
      rewrite !fmap_cons, ?concat_cons_cons, ?concat_singleton, ?string_app_assoc;
      intros Heq; apply ivec2_literal_delimited in Heq as [-> Heq].
    + done.
    + by simplify_eq/=.
    + by simplify_eq/=.
    + apply (inj (String.append ",")) in Heq.
      rewrite <-!fmap_cons in Heq. by rewrite (IH (q' :: l2) Heq).
Qed.

Lemma ptp_array_inj (l1 l2 : list (N * N)) : ptp_array l1 = ptp_array l2 -> l1 = l2.
Proof.
  unfold ptp_array. intros Heq. apply (inj (String.append _)) in Heq.
  by apply taps_delimited.
Qed.

(** ** The PTP offset encoder *)

Example ptp_array_text :
  ptp_array [(1, 2); (3, 4)]%N = "ivec2[](ivec2(1,2),ivec2(3,4))".
Proof. reflexivity. Qed.

(** The text the encoder formats from two 4-wide constructions of
    immediates. *)
Lemma PtpOffsets_formats (offset offset2 : IR.Value) (A B : IR.Inst)
    (a0 a1 a2 a3 b0 b1 b2 b3 : N) :
  IR.InstRecursive offset = Ok A ->
  IR.InstRecursive offset2 = Ok B ->
  IR.GetOpcode A = IR.CompositeConstructU32x4 ->
  IR.GetOpcode B = IR.CompositeConstructU32x4 ->
  Forall2 (fun v n => IR.U32 v = Ok n) (IR.Args A) [a0; a1; a2; a3] ->
  Forall2 (fun v n => IR.U32 v = Ok n) (IR.Args B) [b0; b1; b2; b3] ->
  PtpOffsets offset offset2
  = Ok ("ivec2[](ivec2(" +:+ pretty a0 +:+ "," +:+ pretty a1
        +:+ "),ivec2(" +:+ pretty a2 +:+ "," +:+ pretty a3
        +:+ "),ivec2(" +:+ pretty b0 +:+ "," +:+ pretty b1
        +:+ "),ivec2(" +:+ pretty b2 +:+ "," +:+ pretty b3 +:+ "))").
Proof.
  intros HA HB HopA HopB HargsA HargsB.
  unfold PtpOffsets. rewrite HA, HB. simpl.
  rewrite (all_U32_AreAllArgsImmediates A _ HargsA).
  rewrite (all_U32_AreAllArgsImmediates B _ HargsB). simpl.
  rewrite HopA, HopB. simpl.
  rewrite (ArgU32_lookup A _ 0 a0 HargsA eq_refl), (ArgU32_lookup A _ 1 a1 HargsA eq_refl),
    (ArgU32_lookup A _ 2 a2 HargsA eq_refl), (ArgU32_lookup A _ 3 a3 HargsA eq_refl),
    (ArgU32_lookup B _ 0 b0 HargsB eq_refl), (ArgU32_lookup B _ 1 b1 HargsB eq_refl),
    (ArgU32_lookup B _ 2 b2 HargsB eq_refl), (ArgU32_lookup B _ 3 b3 HargsB eq_refl).
  reflexivity.
Qed.

(** C1, as amended: for two PTP offset values whose producers are both
    the 4-wide unsigned vector construction with immediate components
    a0..a3 and b0..b3, the encoder returns the 4-element array of
    2-component integer vectors (a0,a1), (a2,a3), (b0,b1), (b2,b3):
    each value supplies two consecutive taps, value A the first two and
    value B the last two. *)
Theorem PtpOffsets_consecutive_taps (offset offset2 : IR.Value) (A B : IR.Inst)
    (a0 a1 a2 a3 b0 b1 b2 b3 : N) :
  IR.InstRecursive offset = Ok A ->
  IR.InstRecursive offset2 = Ok B ->
  IR.GetOpcode A = IR.CompositeConstructU32x4 ->
  IR.GetOpcode B = IR.CompositeConstructU32x4 ->
  Forall2 (fun v n => IR.U32 v = Ok n) (IR.Args A) [a0; a1; a2; a3] ->
  Forall2 (fun v n => IR.U32 v = Ok n) (IR.Args B) [b0; b1; b2; b3] ->
  PtpOffsets offset offset2 = Ok (ptp_array [(a0, a1); (a2, a3); (b0, b1); (b2, b3)]).
Proof.
  intros HA HB HopA HopB HargsA HargsB.
  rewrite (PtpOffsets_formats _ _ A B _ _ _ _ _ _ _ _ HA HB HopA HopB HargsA HargsB).
  f_equal. unfold ptp_array, ivec2_literal. simpl.
  normalize_strings. reflexivity.
Qed.

Lemma PtpOffsets_consecutive_taps_witness :
  PtpOffsets (IR.VOpaque ptp_A) (IR.VOpaque ptp_B)
  = Ok (ptp_array [(1, 2); (3, 4); (5, 6); (7, 8)]%N).
Proof.
  apply (PtpOffsets_consecutive_taps _ _ ptp_A ptp_B); try reflexivity;
    repeat constructor.
Defined.

(** The encoder's array is the pairwise one, value A giving the X and
    value B the Y components, only for the operands on which the two
    layouts coincide. *)
Lemma PtpOffsets_pairwise_iff (offset offset2 : IR.Value) (A B : IR.Inst)
    (a0 a1 a2 a3 b0 b1 b2 b3 : N) :
  IR.InstRecursive offset = Ok A ->
  IR.InstRecursive offset2 = Ok B ->
  IR.GetOpcode A = IR.CompositeConstructU32x4 ->
  IR.GetOpcode B = IR.CompositeConstructU32x4 ->
  Forall2 (fun v n => IR.U32 v = Ok n) (IR.Args A) [a0; a1; a2; a3] ->
  Forall2 (fun v n => IR.U32 v = Ok n) (IR.Args B) [b0; b1; b2; b3] ->
  PtpOffsets offset offset2 = Ok (ptp_pairwise [a0; a1; a2; a3] [b0; b1; b2; b3])
  <-> (a1 = b0 /\ a2 = b0) /\ (a3 = b1 /\ b2 = b1).
Proof.
  intros HA HB HopA HopB HargsA HargsB.
  rewrite (PtpOffsets_formats _ _ A B _ _ _ _ _ _ _ _ HA HB HopA HopB HargsA HargsB).
  replace ("ivec2[](ivec2(" +:+ pretty a0 +:+ "," +:+ pretty a1
           +:+ "),ivec2(" +:+ pretty a2 +:+ "," +:+ pretty a3
           +:+ "),ivec2(" +:+ pretty b0 +:+ "," +:+ pretty b1
           +:+ "),ivec2(" +:+ pretty b2 +:+ "," +:+ pretty b3 +:+ "))")
    with (ptp_array [(a0, a1); (a2, a3); (b0, b1); (b2, b3)])
    by (unfold ptp_array, ivec2_literal; simpl; normalize_strings; reflexivity).
  unfold ptp_pairwise.
  change (zip [a0; a1; a2; a3] [b0; b1; b2; b3])
    with [(a0, b0); (a1, b1); (a2, b2); (a3, b3)].
  split.
  - intros Heq.
    assert (Htaps : [(a0, a1); (a2, a3); (b0, b1); (b2, b3)]
                    = [(a0, b0); (a1, b1); (a2, b2); (a3, b3)])
      by (apply ptp_array_inj; congruence).
    by simplify_eq.
  - intros [[-> ->] [-> ->]]. reflexivity.
Qed.

(** C1, as stated, fails: with A = (1,2,3,4) and B = (5,6,7,8) the
    encoder does not return the pairs (a_i, b_i). *)
Lemma PtpOffsets_not_pairwise :
  PtpOffsets (IR.VOpaque ptp_A) (IR.VOpaque ptp_B)
  = Ok "ivec2[](ivec2(1,2),ivec2(3,4),ivec2(5,6),ivec2(7,8))"
  /\ ptp_pairwise [1; 2; 3; 4]%N [5; 6; 7; 8]%N
     = "ivec2[](ivec2(1,5),ivec2(2,6),ivec2(3,7),ivec2(4,8))"
  /\ PtpOffsets (IR.VOpaque ptp_A) (IR.VOpaque ptp_B)
     <> Ok (ptp_pairwise [1; 2; 3; 4]%N [5; 6; 7; 8]%N).
Proof. split; [reflexivity | split; [reflexivity | by vm_compute]]. Qed.

(** C2, as amended: when both producers have only immediate operands
    and their opcodes differ, or are not the 4-wide unsigned vector
    construction, the encoder raises the invariant violation
    [LogicError], which is not the unsupported-feature exception; when
    an operand of either producer is not immediate, whether or not the
    opcodes match, it returns one fixed placeholder array, whatever the
    operands are, and does not fail. *)
Theorem PtpOffsets_immediates_checked_first (offset offset2 : IR.Value) (A B : IR.Inst) :
  IR.InstRecursive offset = Ok A ->
  IR.InstRecursive offset2 = Ok B ->
  (IR.AreAllArgsImmediates A = false \/ IR.AreAllArgsImmediates B = false ->
   PtpOffsets offset offset2 = Ok ptp_placeholder)
  /\ (IR.AreAllArgsImmediates A = true -> IR.AreAllArgsImmediates B = true ->
      IR.GetOpcode A <> IR.GetOpcode B \/ IR.GetOpcode A <> IR.CompositeConstructU32x4 ->
      PtpOffsets offset offset2 = Throw (LogicError "Invalid PTP arguments")
      /\ is_invariant_violation (PtpOffsets offset offset2) = true
      /\ is_unsupported_feature (PtpOffsets offset offset2) = false).
Proof.
  intros HA HB. unfold PtpOffsets. rewrite HA, HB. simpl. split.
  - intros [-> | ->]; simpl; [reflexivity|].
    by rewrite orb_true_r.
  - intros -> -> Hop. simpl.
    assert (negb (bool_decide (IR.GetOpcode A = IR.GetOpcode B))
            || negb (bool_decide (IR.GetOpcode A = IR.CompositeConstructU32x4)) = true) as ->.
    { destruct Hop as [Hop | Hop].
      - by rewrite (bool_decide_eq_false_2 _ Hop).
      - rewrite (bool_decide_eq_false_2 _ Hop). by rewrite orb_true_r. }
    done.
Qed.

Lemma PtpOffsets_immediates_checked_first_witness :
  PtpOffsets (IR.VOpaque ptp_dynamic) (IR.VOpaque ptp_B) = Ok ptp_placeholder
  /\ PtpOffsets (IR.VOpaque ptp_A) (IR.VOpaque ptp_narrow)
     = Throw (LogicError "Invalid PTP arguments").
Proof.
  split.
  - apply (proj1 (PtpOffsets_immediates_checked_first
                    (IR.VOpaque ptp_dynamic) (IR.VOpaque ptp_B) ptp_dynamic ptp_B
                    eq_refl eq_refl)).
    left. reflexivity.
  - apply (proj2 (PtpOffsets_immediates_checked_first
                    (IR.VOpaque ptp_A) (IR.VOpaque ptp_narrow) ptp_A ptp_narrow
                    eq_refl eq_refl)); [reflexivity | reflexivity |].
    left. discriminate.
Defined.

(** C2, as stated, fails: the producers' opcodes differ (4-wide against
    2-wide construction) and one component is not immediate; the
    encoder returns the placeholder and raises nothing. *)
Lemma PtpOffsets_mismatch_not_raised :
  IR.GetOpcode ptp_dynamic <> IR.GetOpcode ptp_narrow
  /\ PtpOffsets (IR.VOpaque ptp_dynamic) (IR.VOpaque ptp_narrow) = Ok ptp_placeholder
  /\ is_invariant_violation (PtpOffsets (IR.VOpaque ptp_dynamic) (IR.VOpaque ptp_narrow))
     = false.
Proof. split; [discriminate | split; reflexivity]. Qed.

(** A gather with two offsets takes the array of the encoder. *)
Example gather_ptp_text :
  code (ctx (EmitImageGather (texture_inst IR.Color2D) IR.VVoid "c" (IR.VOpaque ptp_A)
               (IR.VOpaque ptp_B) sample_state).2)
  = ["f4_0=textureGatherOffsets(tex7,c,ivec2[](ivec2(1,2),ivec2(3,4),ivec2(5,6),ivec2(7,8)),int(0));"].
Proof. reflexivity. Qed.

Example gather_ptp_placeholder_text :
  code (ctx (EmitImageGather (texture_inst IR.Color2D) IR.VVoid "c" (IR.VOpaque ptp_dynamic)
               (IR.VOpaque ptp_B) sample_state).2)
  = ["f4_0=textureGatherOffsets(tex7,c,ivec2[](ivec2(0), ivec2(1), ivec2(2), ivec2(3)),int(0));"].
Proof. reflexivity. Qed.

(** ** The binding resolver *)

Section Resolver.

Context {VA : Type} `{!VarAllocOps VA}.

(** C9: for either resource kind, buffer or not, a descriptor index
    that is not registered in the table makes the lookup fail (with
    the out-of-range exception of [at]: no slot is made up), and a
    registered index gives the binding identifier, [tex] or [img]
    followed by the slot; the lookup is a function of the context and
    returns no new context, and run inside an emitter it leaves the
    state as it was. *)
Theorem binding_lookup (c : EmitContext VA) (info : IR.TextureInstInfo) (index : IR.Value) :
  (binding_table c false info !! IR.descriptor_index info = None ->
   Texture c info index = Throw OutOfRange)
  /\ (binding_table c true info !! IR.descriptor_index info = None ->
      Image c info index = Throw OutOfRange)
  /\ (forall slot, binding_table c false info !! IR.descriptor_index info = Some slot ->
      Texture c info index = Ok ("tex" +:+ pretty slot))
  /\ (forall slot, binding_table c true info !! IR.descriptor_index info = Some slot ->
      Image c info index = Ok ("img" +:+ pretty slot))
  /\ (forall s : State VA,
      (bind (gets id) (fun c => lift (Texture c info index)) s).2 = s
      /\ (bind (gets id) (fun c => lift (Image c info index)) s).2 = s).
Proof.
  unfold binding_table, Texture, Image, at_.
  split; [|split; [|split; [|split]]].
  - intros H. case_decide as Hb;
      [rewrite (bool_decide_eq_true_2 _ Hb) in H | rewrite (bool_decide_eq_false_2 _ Hb) in H];
      by rewrite H.
  - intros H. case_decide as Hb;
      [rewrite (bool_decide_eq_true_2 _ Hb) in H | rewrite (bool_decide_eq_false_2 _ Hb) in H];
      by rewrite H.
  - intros slot H. case_decide as Hb;
      [rewrite (bool_decide_eq_true_2 _ Hb) in H | rewrite (bool_decide_eq_false_2 _ Hb) in H];
      by rewrite H.
  - intros slot H. case_decide as Hb;
      [rewrite (bool_decide_eq_true_2 _ Hb) in H | rewrite (bool_decide_eq_false_2 _ Hb) in H];
      by rewrite H.
  - intros s. unfold bind, gets, lift. split; reflexivity.
Qed.

End Resolver.

Lemma binding_lookup_witness :
  Texture sample_context (sample_info IR.Color2D) IR.VVoid = Ok "tex7"
  /\ Image sample_context (sample_info IR.Buffer) IR.VVoid = Throw OutOfRange.
Proof.
  split.
  - apply (proj1 (proj2 (proj2 (binding_lookup sample_context (sample_info IR.Color2D)
                                  IR.VVoid))) 7%N).
    reflexivity.
  - apply (proj1 (proj2 (binding_lookup sample_context (sample_info IR.Buffer) IR.VVoid))).
    reflexivity.
Defined.

(** ** Coordinate casts *)

(** C5, as amended: each of the two casting helpers depends on the
    instruction's flags through the dimensionality only.
    [TexelFetchCastToInt] gives the scalar cast for 1D and Buffer, the
    2-wide cast for Array1D and 2D, the 3-wide cast for Array2D, 3D and
    Cube, the 4-wide cast for ArrayCube; [CastToIntVec] gives the same
    except for Array2D, where its cast is 2-wide; both raise the
    unsupported-feature exception for a dimensionality outside the
    enumeration. *)
Theorem coordinate_casts (value : string) (info : IR.TextureInstInfo) :
  TexelFetchCastToInt value info = cast_of_width (coordinate_cast_width (IR.type info)) value
  /\ CastToIntVec value info
     = cast_of_width (if bool_decide (IR.type info = IR.ColorArray2D) then Some 2
                      else coordinate_cast_width (IR.type info)) value
  /\ TexelFetchCastToInt value info = TexelFetchCastToInt value (sample_info (IR.type info))
  /\ CastToIntVec value info = CastToIntVec value (sample_info (IR.type info))
  /\ is_unsupported_feature (cast_of_width None value) = true.
Proof.
  unfold TexelFetchCastToInt, CastToIntVec.
  destruct info as [ty di hb hc gc nd]; simpl. by destruct ty.
Qed.

(** C5, as stated, fails for [CastToIntVec]: for Array2D its cast is
    2-wide, not 3-wide. *)
Lemma CastToIntVec_Array2D_two_wide :
  CastToIntVec "p" (sample_info IR.ColorArray2D) = Ok "ivec2(p)"
  /\ cast_of_width (coordinate_cast_width IR.ColorArray2D) "p" = Ok "ivec3(p)"
  /\ CastToIntVec "p" (sample_info IR.ColorArray2D)
     <> cast_of_width (coordinate_cast_width IR.ColorArray2D) "p".
Proof. split; [reflexivity | split; [reflexivity | by vm_compute]]. Qed.

(** ** Dimension queries *)

Section Queries.

Context {VA : Type} `{!VarAllocOps VA}.

(** C7, as amended: a dimension query on a texture whose binding is
    registered binds the instruction to a 4-wide unsigned vector made
    of the size, zeros up to the third component, and the mip-level
    count in the fourth component. The size is 1 wide for 1D, 2 wide
    for Array1D, 2D and Cube, 3 wide for Array2D, 3D and ArrayCube:
    the width of the coordinate cast, except for Cube and ArrayCube
    where it is one less. A dimension query on a Buffer raises the
    unsupported-feature exception and appends nothing. *)
Theorem query_dimensions_packing (inst : IR.Inst) (index : IR.Value) (lod texture : string)
    (s : State VA) :
  Texture (ctx s) (IR.Flags inst) index = Ok texture ->
  (forall w, query_size_width (IR.type (IR.Flags inst)) = Some w ->
     EmitImageQueryDimensions inst index lod s
     = (Ok tt, bound_statement U32x4 (IR.GetId inst) (pack_dimensions w texture lod) s))
  /\ (IR.type (IR.Flags inst) = IR.Buffer ->
      EmitImageQueryDimensions inst index lod s
      = (Throw (NotImplementedException "EmitImageQueryDimensions Texture buffers"), s))
  /\ query_size_width (IR.type (IR.Flags inst))
     = match IR.type (IR.Flags inst) with
       | IR.ColorCube | IR.ColorArrayCube =>
           Nat.pred <$> coordinate_cast_width (IR.type (IR.Flags inst))
       | IR.Buffer => None
       | _ => coordinate_cast_width (IR.type (IR.Flags inst))
       end.
Proof.
  intros Htex. unfold EmitImageQueryDimensions, bind, gets, lift. simpl. rewrite Htex.
  split; [|split].
  - intros w Hw. destruct (IR.type (IR.Flags inst)); simplify_eq/=; reflexivity.
  - intros ->. reflexivity.
  - by destruct (IR.type (IR.Flags inst)).
Qed.

End Queries.

Lemma query_dimensions_packing_witness :
  EmitImageQueryDimensions (texture_inst IR.Color3D) IR.VVoid "l" sample_state
  = (Ok tt, bound_statement U32x4 10%N (pack_dimensions 3 "tex7" "l") sample_state).
Proof.
  apply (proj1 (query_dimensions_packing (texture_inst IR.Color3D) IR.VVoid "l" "tex7"
                  sample_state eq_refl) 3).
  reflexivity.
Defined.

(** C7, as stated, fails: for Cube the coordinate cast is 3 wide, and
    the size of the query is 2 wide, followed by one zero. *)
Lemma query_dimensions_Cube_two_wide :
  coordinate_cast_width IR.ColorCube = Some 3
  /\ code (ctx (EmitImageQueryDimensions (texture_inst IR.ColorCube) IR.VVoid "l"
                  sample_state).2)
     = ["u4_0=uvec4(uvec2(textureSize(tex7,int(l))),0u,uint(textureQueryLevels(tex7)));"]
  /\ code (ctx (EmitImageQueryDimensions (texture_inst IR.ColorCube) IR.VVoid "l"
                  sample_state).2)
     <> code (ctx (bound_statement U32x4 10%N (pack_dimensions 3 "tex7" "l") sample_state)).
Proof. split; [reflexivity | split; [reflexivity | by vm_compute]]. Qed.

(** ** The frame of the offset folder *)

Section Frame.

Context {VA : Type} `{!VarAllocOps VA}.

(** Folding an offset touches the allocator only. *)
Lemma GetOffsetVec_frame (v : IR.Value) (t t' : State VA) (r : Result string) :
  GetOffsetVec v t = (r, t') ->
  code (ctx t') = code (ctx t) /\ invalidated t' = invalidated t
  /\ stage (ctx t') = stage (ctx t).
Proof.
  unfold GetOffsetVec. run_emitter.
  destruct (IR.IsImmediate v); [by intros [= <- <-]|].
  destruct (IR.InstRecursive v) as [i|e]; simpl; [|by intros [= <- <-]].
  destruct (IR.AreAllArgsImmediates i); [destruct (literal_offset i)|];
    by intros [= <- <-].
Qed.

End Frame.

(** ** Depth-compare samples with explicit LOD *)

Section ShadowLod.

Context {VA : Type} `{!VarAllocOps VA}.

(** C3: when the profile lacks the shadow-LOD extension, a
    depth-compare explicit-LOD sample (one that passes the modifier
    checks and whose texture is bound) is lowered, for Cube, to the
    gradient call [textureGrad] with both derivatives zero, and for
    ArrayCube to no call at all: the instruction is bound to a scalar
    float variable that is assigned the constant zero. *)
Theorem shadow_lod_fallback (inst : IR.Inst) (index : IR.Value)
    (coords dref lod_lc texture : string) (offset : IR.Value) (s : State VA) :
  support_gl_texture_shadow_lod (profile (ctx s)) = false ->
  IR.GetAssociatedSparse inst = None ->
  IR.has_bias (IR.Flags inst) = false ->
  IR.has_lod_clamp (IR.Flags inst) = false ->
  Texture (ctx s) (IR.Flags inst) index = Ok texture ->
  (IR.type (IR.Flags inst) = IR.ColorCube ->
   EmitImageSampleDrefExplicitLod inst index coords dref lod_lc offset s
   = (Ok tt, bound_statement F32 (IR.GetId inst)
               ("=textureGrad(" +:+ texture +:+ ",vec4(" +:+ coords +:+ "," +:+ dref
                +:+ "),vec3(0),vec3(0));") s))
  /\ (IR.type (IR.Flags inst) = IR.ColorArrayCube ->
      EmitImageSampleDrefExplicitLod inst index coords dref lod_lc offset s
      = (Ok tt, bound_statement F32 (IR.GetId inst) "=0.0f;" s)).
Proof.
  intros Hext Hsparse Hbias Hclamp Htex.
  unfold EmitImageSampleDrefExplicitLod. run_emitter.
  rewrite Hsparse, Hbias, Hclamp. simpl. rewrite Htex, Hext. simpl.
  split; intros ->; simpl; destruct s as [c inv]; reflexivity.
Qed.

End ShadowLod.

Lemma shadow_lod_fallback_witness :
  EmitImageSampleDrefExplicitLod (texture_inst IR.ColorCube) IR.VVoid "c" "d" "l" IR.VVoid
    sample_state
  = (Ok tt, bound_statement F32 10%N "=textureGrad(tex7,vec4(c,d),vec3(0),vec3(0));"
              sample_state)
  /\ EmitImageSampleDrefExplicitLod (texture_inst IR.ColorArrayCube) IR.VVoid "c" "d" "l"
       IR.VVoid sample_state
     = (Ok tt, bound_statement F32 10%N "=0.0f;" sample_state).
Proof.
  split.
  - apply (proj1 (shadow_lod_fallback (texture_inst IR.ColorCube) IR.VVoid "c" "d" "l" "tex7"
                    IR.VVoid sample_state eq_refl eq_refl eq_refl eq_refl eq_refl)).
    reflexivity.
  - apply (proj2 (shadow_lod_fallback (texture_inst IR.ColorArrayCube) IR.VVoid "c" "d" "l"
                    "tex7" IR.VVoid sample_state eq_refl eq_refl eq_refl eq_refl eq_refl)).
    reflexivity.
Defined.

Example shadow_lod_fallback_text :
  code (ctx (EmitImageSampleDrefExplicitLod (texture_inst IR.ColorCube) IR.VVoid "c" "d" "l"
               IR.VVoid sample_state).2)
  = ["f0=textureGrad(tex7,vec4(c,d),vec3(0),vec3(0));"]
  /\ code (ctx (EmitImageSampleDrefExplicitLod (texture_inst IR.ColorArrayCube) IR.VVoid
                  "c" "d" "l" IR.VVoid sample_state).2)
     = ["f0=0.0f;"].
Proof. split; reflexivity. Qed.

(** ** Rejected modifiers *)

Section Modifiers.

Context {VA : Type} `{!VarAllocOps VA}.

(** C8: an explicit-LOD sample with the bias modifier, and a sample or
    fetch with the LOD clamp modifier, raises the unsupported-feature
    exception and appends no statement to the sink. The color sample
    emitters and the fetch raise it before anything else: the whole
    state is as it was. *)
Theorem illegal_modifiers_rejected (inst : IR.Inst) (index : IR.Value)
    (coords dref lod_lc bias_lc ms text_offset : string)
    (value_offset derivatives lod_clamp : IR.Value) (s : State VA) :
  (IR.has_bias (IR.Flags inst) = true ->
   (exists what,
      EmitImageSampleExplicitLod inst index coords lod_lc value_offset s
      = (Throw (NotImplementedException what), s))
   /\ (exists what s',
         EmitImageSampleDrefExplicitLod inst index coords dref lod_lc value_offset s
         = (Throw (NotImplementedException what), s')
         /\ code (ctx s') = code (ctx s)))
  /\ (IR.has_lod_clamp (IR.Flags inst) = true ->
      (exists what,
         EmitImageSampleExplicitLod inst index coords lod_lc value_offset s
         = (Throw (NotImplementedException what), s))
      /\ (exists what s',
            EmitImageSampleDrefExplicitLod inst index coords dref lod_lc value_offset s
            = (Throw (NotImplementedException what), s')
            /\ code (ctx s') = code (ctx s))
      /\ (exists what,
            EmitImageSampleImplicitLod inst index coords bias_lc value_offset s
            = (Throw (NotImplementedException what), s))
      /\ (exists what s',
            EmitImageSampleDrefImplicitLod inst index coords dref bias_lc value_offset s
            = (Throw (NotImplementedException what), s')
            /\ code (ctx s') = code (ctx s))
      /\ (exists what,
            EmitImageFetch inst index coords text_offset lod_lc ms s
            = (Throw (NotImplementedException what), s))
      /\ (exists what,
            EmitImageGradient inst index coords derivatives value_offset lod_clamp s
            = (Throw (NotImplementedException what), s))).
Proof.
  split.
  - intros Hbias. split.
    + unfold EmitImageSampleExplicitLod. rewrite Hbias. by eexists.
    + unfold EmitImageSampleDrefExplicitLod. run_emitter. rewrite Hbias.
      destruct (IR.GetAssociatedSparse inst); simpl; by do 2 eexists.
  - intros Hclamp. repeat split.
    + unfold EmitImageSampleExplicitLod. rewrite Hclamp.
      destruct (IR.has_bias (IR.Flags inst)); by eexists.
    + unfold EmitImageSampleDrefExplicitLod. run_emitter. rewrite Hclamp.
      destruct (IR.GetAssociatedSparse inst), (IR.has_bias (IR.Flags inst)); simpl;
        by do 2 eexists.
    + unfold EmitImageSampleImplicitLod. rewrite Hclamp. by eexists.
    + unfold EmitImageSampleDrefImplicitLod. run_emitter. rewrite Hclamp.
      destruct (IR.GetAssociatedSparse inst), (IR.has_bias (IR.Flags inst)); simpl;
        by do 2 eexists.
    + unfold EmitImageFetch. rewrite Hclamp.
      destruct (IR.has_bias (IR.Flags inst)); by eexists.
    + unfold EmitImageGradient. rewrite Hclamp. by eexists.
Qed.

End Modifiers.

Lemma illegal_modifiers_rejected_witness :
  (exists what,
     EmitImageSampleExplicitLod (biased_inst IR.Color2D) IR.VVoid "c" "l" IR.VVoid sample_state
     = (Throw (NotImplementedException what), sample_state))
  /\ (exists what,
        EmitImageSampleExplicitLod (clamped_inst IR.Color2D) IR.VVoid "c" "l" IR.VVoid
          sample_state
        = (Throw (NotImplementedException what), sample_state)).
Proof.
  split.
  - apply (proj1 (illegal_modifiers_rejected (biased_inst IR.Color2D) IR.VVoid
                    "c" "d" "l" "b" "m" "" IR.VVoid IR.VVoid IR.VVoid sample_state)).
    reflexivity.
  - apply (proj2 (illegal_modifiers_rejected (clamped_inst IR.Color2D) IR.VVoid
                    "c" "d" "l" "b" "m" "" IR.VVoid IR.VVoid IR.VVoid sample_state)).
    reflexivity.
Defined.

(** ** Implicit-LOD color samples *)

Section ImplicitLod.

Context {VA : Type} `{!VarAllocOps VA}.

(** C10: an implicit-LOD color sample without a sparse
    pseudo-instruction, lowered in a stage other than the fragment
    stage (without LOD clamp, the texture bound), appends the
    explicit-LOD call at level 0.0: [textureLod] for an empty offset,
    [textureLodOffset] with the folded offset otherwise. The bias
    operand is left out: the lowering is the one of the same
    instruction without the bias modifier and with an empty bias
    text. *)
Theorem implicit_lod_outside_fragment (inst : IR.Inst) (index : IR.Value)
    (coords bias_lc texture : string) (offset : IR.Value) (s : State VA) :
  is_fragment (stage (ctx s)) = false ->
  IR.GetAssociatedSparse inst = None ->
  IR.has_lod_clamp (IR.Flags inst) = false ->
  Texture (ctx s) (IR.Flags inst) index = Ok texture ->
  let texel := (Define (var_alloc (ctx s)) (IR.GetId inst) F32x4).1 in
  (IR.IsEmpty offset = true ->
   EmitImageSampleImplicitLod inst index coords bias_lc offset s
   = (Ok tt, bound_statement F32x4 (IR.GetId inst)
               ("=textureLod(" +:+ texture +:+ "," +:+ coords +:+ ",0.0);") s))
  /\ (IR.IsEmpty offset = false ->
      forall offset_str s',
        GetOffsetVec offset (defined F32x4 (IR.GetId inst) s) = (Ok offset_str, s') ->
        EmitImageSampleImplicitLod inst index coords bias_lc offset s
        = (Ok tt, appended (texel +:+ "=textureLodOffset(" +:+ texture +:+ "," +:+ coords
                            +:+ ",0.0," +:+ offset_str +:+ ");") s'))
  /\ EmitImageSampleImplicitLod inst index coords bias_lc offset s
     = EmitImageSampleImplicitLod (without_bias inst) index coords "" offset s.
Proof.
  intros Hstage Hsparse Hclamp Htex texel.
  assert (Hframe : forall v (t : State VA) r t',
             GetOffsetVec v t = (r, t') -> stage (ctx t') = stage (ctx t)).
  { intros v t r t' Hoff. by destruct (GetOffsetVec_frame v t t' r Hoff) as (_ & _ & ?). }
  split; [|split].
  - intros Hempty. unfold EmitImageSampleImplicitLod. run_emitter.
    rewrite Hclamp, Htex, Hsparse. simpl. rewrite Hempty. simpl. rewrite Hstage.
    destruct s as [c inv]. reflexivity.
  - intros Hempty offset_str s' Hoff.
    unfold EmitImageSampleImplicitLod. run_emitter.
    rewrite Hclamp, Htex, Hsparse. simpl. rewrite Hempty. simpl.
    unfold defined, var_alloc_Define in Hoff. simpl in Hoff. rewrite Hoff.
    rewrite (Hframe _ _ _ _ Hoff). simpl. rewrite Hstage. reflexivity.
  - unfold EmitImageSampleImplicitLod, without_bias. run_emitter.
    rewrite Hclamp, Hsparse.
    replace (Texture (ctx s) (IR.MkTextureInstInfo _ _ _ _ _ _) index)
      with (Texture (ctx s) (IR.Flags inst) index)
      by (unfold Texture; destruct (IR.Flags inst); reflexivity).
    rewrite Htex. simpl.
    destruct (IR.IsEmpty offset); simpl.
    + rewrite Hstage. reflexivity.
    + destruct (GetOffsetVec offset _) as [[offset_str|e] s'] eqn:Hoff; [|reflexivity].
      rewrite (Hframe _ _ _ _ Hoff). simpl. rewrite Hstage. reflexivity.
Qed.

End ImplicitLod.

Lemma implicit_lod_outside_fragment_witness :
  EmitImageSampleImplicitLod (biased_inst IR.Color2D) IR.VVoid "c" "b" IR.VVoid sample_state
  = (Ok tt, bound_statement F32x4 10%N "=textureLod(tex7,c,0.0);" sample_state)
  /\ EmitImageSampleImplicitLod (biased_inst IR.Color2D) IR.VVoid "c" "b" folded_offset
       sample_state
     = (Ok tt, appended "f4_0=textureLodOffset(tex7,c,0.0,ivec2(5,6));"
                 (defined F32x4 10%N sample_state)).
Proof.
  split.
  - apply (proj1 (implicit_lod_outside_fragment (biased_inst IR.Color2D) IR.VVoid "c" "b"
                    "tex7" IR.VVoid sample_state eq_refl eq_refl eq_refl eq_refl)).
    reflexivity.
  - exact (proj1 (proj2 (implicit_lod_outside_fragment (biased_inst IR.Color2D) IR.VVoid
                           "c" "b" "tex7" folded_offset sample_state
                           eq_refl eq_refl eq_refl eq_refl)) eq_refl "ivec2(5,6)"
             (defined F32x4 10%N sample_state) eq_refl).
Defined.

Example implicit_lod_bias_text :
  code (ctx (EmitImageSampleImplicitLod (biased_inst IR.Color2D) IR.VVoid "c" "b"
               (IR.ImmU32 1) sample_state).2)
  = ["f4_0=textureLodOffset(tex7,c,0.0,int(1));"].
Proof. reflexivity. Qed.

(** ** The offset folder *)

Section Folder.

Context {VA : Type} `{!VarAllocOps VA}.

(** C6: the text of an offset operand.
    - Empty: the six emitters that take an offset operand test it
      before they fold it, and for an empty one append the call
      without an offset argument (shown where no sparse
      pseudo-instruction is attached and, for the depth-compare
      samples, where the shadow-LOD extension is supported).
    - Immediate scalar: [int(<value>)], the state unchanged.
    - Reference to a 2-, 3- or 4-wide unsigned vector construction
      whose operands are all immediate: the literal
      [ivecN(c0,...)] of the components, the state unchanged (no
      variable is consumed or allocated).
    - Any other reference: what the allocator's [Consume] gives, the
      variable bound to the producer. *)
Theorem offset_folding (offset : IR.Value) (s : State VA) :
  (forall v, IR.U32 offset = Ok v ->
     GetOffsetVec offset s = (Ok ("int(" +:+ pretty v +:+ ")"), s))
  /\ (forall inst components,
        IR.InstRecursive offset = Ok inst ->
        Forall2 (fun v n => IR.U32 v = Ok n) (IR.Args inst) components ->
        construct_width (IR.GetOpcode inst) = Some (length components) ->
        GetOffsetVec offset s = (Ok (vector_literal components), s))
  /\ (forall inst,
        IR.InstRecursive offset = Ok inst ->
        IR.AreAllArgsImmediates inst = false \/ construct_width (IR.GetOpcode inst) = None ->
        GetOffsetVec offset s = var_alloc_Consume offset s)
  /\ (forall inst index coords lod_lc bias_lc dref offset2 texture,
        IR.IsEmpty offset = true ->
        IR.GetAssociatedSparse inst = None ->
        Texture (ctx s) (IR.Flags inst) index = Ok texture ->
        (IR.has_bias (IR.Flags inst) = false -> IR.has_lod_clamp (IR.Flags inst) = false ->
         EmitImageSampleExplicitLod inst index coords lod_lc offset s
         = (Ok tt, bound_statement F32x4 (IR.GetId inst)
                     ("=textureLod(" +:+ texture +:+ "," +:+ coords +:+ "," +:+ lod_lc
                      +:+ ");") s))
        /\ (IR.has_lod_clamp (IR.Flags inst) = false ->
            is_fragment (stage (ctx s)) = true ->
            EmitImageSampleImplicitLod inst index coords bias_lc offset s
            = (Ok tt, bound_statement F32x4 (IR.GetId inst)
                        ("=texture(" +:+ texture +:+ "," +:+ coords
                         +:+ (if IR.has_bias (IR.Flags inst) then "," +:+ bias_lc else "")
                         +:+ ");") s))
        /\ EmitImageGather inst index coords offset offset2 s
           = (Ok tt, bound_statement F32x4 (IR.GetId inst)
                       ("=textureGather(" +:+ texture +:+ "," +:+ coords +:+ ",int("
                        +:+ pretty (IR.gather_component (IR.Flags inst)) +:+ "));") s)
        /\ EmitImageGatherDref inst index coords offset offset2 dref s
           = (Ok tt, bound_statement F32x4 (IR.GetId inst)
                       ("=textureGather(" +:+ texture +:+ "," +:+ coords +:+ "," +:+ dref
                        +:+ ");") s)
        /\ (IR.has_bias (IR.Flags inst) = false -> IR.has_lod_clamp (IR.Flags inst) = false ->
            support_gl_texture_shadow_lod (profile (ctx s)) = true ->
            let cast := if NeedsShadowLodExt (IR.type (IR.Flags inst)) then "vec4" else "vec3" in
            EmitImageSampleDrefExplicitLod inst index coords dref lod_lc offset s
            = (Ok tt, bound_statement F32 (IR.GetId inst)
                        (if bool_decide (IR.type (IR.Flags inst) = IR.ColorArrayCube)
                         then "=textureLod(" +:+ texture +:+ "," +:+ coords +:+ "," +:+ dref
                              +:+ "," +:+ lod_lc +:+ ");"
                         else "=textureLod(" +:+ texture +:+ "," +:+ cast +:+ "(" +:+ coords
                              +:+ "," +:+ dref +:+ ")," +:+ lod_lc +:+ ");") s)
            /\ EmitImageSampleDrefImplicitLod inst index coords dref bias_lc offset s
               = (Ok tt, bound_statement F32 (IR.GetId inst)
                           (if is_fragment (stage (ctx s))
                            then if bool_decide (IR.type (IR.Flags inst) = IR.ColorArrayCube)
                                 then "=texture(" +:+ texture +:+ ",vec4(" +:+ coords +:+ "),"
                                      +:+ dref +:+ ");"
                                 else "=texture(" +:+ texture +:+ "," +:+ cast +:+ "("
                                      +:+ coords +:+ "," +:+ dref +:+ "));"
                            else "=textureLod(" +:+ texture +:+ "," +:+ cast +:+ "(" +:+ coords
                                 +:+ "," +:+ dref +:+ "),0.0);") s))).
Proof.
  split; [|split; [|split]].
  - intros v Hv. unfold GetOffsetVec. rewrite (U32_IsImmediate _ _ Hv), Hv. reflexivity.
  - intros inst components Hinst Hargs Hwidth. unfold GetOffsetVec.
    rewrite (InstRecursive_not_immediate _ _ Hinst), Hinst. run_emitter.
    rewrite (all_U32_AreAllArgsImmediates _ _ Hargs). unfold literal_offset.
    destruct (IR.GetOpcode inst); simplify_eq/=.
    + destruct components as [|c0 [|c1 [|]]]; simplify_eq/=.
      rewrite (ArgU32_lookup inst _ 0 c0 Hargs eq_refl),
        (ArgU32_lookup inst _ 1 c1 Hargs eq_refl).
      unfold vector_literal. simpl. change (pretty 2%nat) with "2". simpl.
      by normalize_strings.
    + destruct components as [|c0 [|c1 [|c2 [|]]]]; simplify_eq/=.
      rewrite (ArgU32_lookup inst _ 0 c0 Hargs eq_refl),
        (ArgU32_lookup inst _ 1 c1 Hargs eq_refl),
        (ArgU32_lookup inst _ 2 c2 Hargs eq_refl).
      unfold vector_literal. simpl. change (pretty 3%nat) with "3". simpl.
      by normalize_strings.
    + destruct components as [|c0 [|c1 [|c2 [|c3 [|]]]]]; simplify_eq/=.
      rewrite (ArgU32_lookup inst _ 0 c0 Hargs eq_refl),
        (ArgU32_lookup inst _ 1 c1 Hargs eq_refl),
        (ArgU32_lookup inst _ 2 c2 Hargs eq_refl),
        (ArgU32_lookup inst _ 3 c3 Hargs eq_refl).
      unfold vector_literal. simpl. change (pretty 4%nat) with "4". simpl.
      by normalize_strings.
  - intros inst Hinst Hother. unfold GetOffsetVec.
    rewrite (InstRecursive_not_immediate _ _ Hinst), Hinst. run_emitter.
    destruct (IR.AreAllArgsImmediates inst); [|reflexivity].
    destruct Hother as [|Hop]; [done|]. unfold literal_offset.
    by destruct (IR.GetOpcode inst).
  - intros inst index coords lod_lc bias_lc dref offset2 texture Hempty Hsparse Htex.
    split; [|split; [|split; [|split; [|intros Hbias Hclamp Hext cast; split]]]].
    + intros Hbias Hclamp. unfold EmitImageSampleExplicitLod. run_emitter.
      rewrite Hbias, Hclamp, Htex, Hsparse. simpl. rewrite Hempty.
      by destruct s.
    + intros Hclamp Hstage. unfold EmitImageSampleImplicitLod. run_emitter.
      rewrite Hclamp, Htex, Hsparse. simpl. rewrite Hempty. simpl. rewrite Hstage.
      by destruct s.
    + unfold EmitImageGather. run_emitter. rewrite Htex. simpl. rewrite Hsparse. simpl.
      rewrite Hempty. by destruct s.
    + unfold EmitImageGatherDref. run_emitter. rewrite Htex. simpl. rewrite Hsparse. simpl.
      rewrite Hempty. by destruct s.
    + unfold EmitImageSampleDrefExplicitLod. run_emitter.
      rewrite Hsparse, Hbias, Hclamp. simpl. rewrite Htex, Hext, Hempty. simpl.
      destruct s. by case_bool_decide.
    + unfold EmitImageSampleDrefImplicitLod. run_emitter.
      rewrite Hsparse, Hbias, Hclamp. simpl. rewrite Htex, Hext, Hempty. simpl.
      destruct s as [c inv]; simpl. destruct (is_fragment (stage c)); [|done].
      by case_bool_decide; normalize_strings.
Qed.

End Folder.

Lemma offset_folding_witness :
  GetOffsetVec (IR.ImmU32 4294967295) sample_state = (Ok "int(4294967295)", sample_state)
  /\ GetOffsetVec folded_offset sample_state = (Ok "ivec2(5,6)", sample_state)
  /\ GetOffsetVec (IR.VOpaque ptp_dynamic) sample_state
     = var_alloc_Consume (IR.VOpaque ptp_dynamic) sample_state
  /\ EmitImageSampleExplicitLod (texture_inst IR.Color2D) IR.VVoid "c" "l" IR.VVoid
       sample_state
     = (Ok tt, bound_statement F32x4 10%N "=textureLod(tex7,c,l);" sample_state).
Proof.
  split; [|split; [|split]].
  - exact (proj1 (offset_folding (IR.ImmU32 4294967295) sample_state) 4294967295%N eq_refl).
  - exact (proj1 (proj2 (offset_folding folded_offset sample_state)) ptp_narrow [5; 6]%N
             eq_refl ltac:(repeat constructor) eq_refl).
  - exact (proj1 (proj2 (proj2 (offset_folding (IR.VOpaque ptp_dynamic) sample_state)))
             ptp_dynamic eq_refl (or_introl eq_refl)).
  - exact (proj1 (proj2 (proj2 (proj2 (offset_folding IR.VVoid sample_state)))
                    (texture_inst IR.Color2D) IR.VVoid "c" "l" "" "" IR.VVoid "tex7"
                    eq_refl eq_refl eq_refl) eq_refl eq_refl).
Defined.

(** ** Sparse-residency fusion *)

Section Sparse.

Context {VA : Type} `{!VarAllocOps VA}.








End Sparse.

(** C4, at the input where the code departs from it: an explicit-LOD
    color sample of a 2D texture with an attached sparse
    pseudo-instruction and the immediate offset 1. The lowering
    succeeds, the pseudo-instruction is marked consumed and bound to
    the boolean variable the statement assigns, but the call is
    [sparseTexelFetchOffsetARB], of the texel-fetch family, on
    coordinates cast to integers: no call of the [sparseTextureLod]
    family is emitted, while the same sample with an empty offset
    emits [sparseTextureLodARB] and the sample without the
    pseudo-instruction emits [textureLodOffset]. *)
Theorem sparse_explicit_lod_offset_family :
  let lowered :=
    EmitImageSampleExplicitLod (sparse_texture_inst IR.Color2D) IR.VVoid "c" "l"
      (IR.ImmU32 1) sample_state in
  lowered.1 = Ok tt
  /\ code (ctx lowered.2)
     = ["b1=sparseTexelsResidentARB(sparseTexelFetchOffsetARB(tex7,ivec2(c),int(l),int(1),f4_0));"]
  /\ 11%N ∈ invalidated lowered.2
  /\ definitions (var_alloc (ctx lowered.2)) !! 11%N = Some "b1"
  /\ Forall (fun stmt => mentions (sparse_family SampleExplicitLod) stmt = false)
       (code (ctx lowered.2))
  /\ code (ctx (EmitImageSampleExplicitLod (sparse_texture_inst IR.Color2D) IR.VVoid "c" "l"
                  IR.VVoid sample_state).2)
     = ["b1=sparseTexelsResidentARB(sparseTextureLodARB(tex7,c,l,f4_0));"]
  /\ code (ctx (EmitImageSampleExplicitLod (texture_inst IR.Color2D) IR.VVoid "c" "l"
                  (IR.ImmU32 1) sample_state).2)
     = ["f4_0=textureLodOffset(tex7,c,l,int(1));"].
Proof.
  split; [reflexivity|]. split; [reflexivity|]. split.
  { simpl. set_solver. }
  split; [reflexivity|]. split; [|split; reflexivity].
  by repeat constructor.
Qed.

(** ** A logic for the emitters *)

(** The emitters are short programs of calls that end by appending one
    statement. What they have in common is proved once, for any set
    [E] of exceptions and any two relations on states: [R], what the
    calls before the last one may do, and [Q], what a run that returns
    may do. The hypotheses say how [E], [R] and [Q] are closed; the
    sections that follow instantiate them. *)

Section Logic.

Context {VA : Type} `{!VarAllocOps VA}.

Variable E : Exception -> Prop.
Variables R Q : relation (State VA).
Variable marks : IR.InstId -> Prop.

Hypothesis R_refl : forall s, R s s.
Hypothesis R_trans : forall s1 s2 s3, R s1 s2 -> R s2 s3 -> R s1 s3.
Hypothesis R_alloc : forall s va, R s (with_var_alloc va s).
Hypothesis R_inv : forall s sparse, marks sparse -> R s (invalidate sparse s).
Hypothesis Q_add : forall s stmt, Q s (appended stmt s).
Hypothesis Q_pre : forall s s1 s', R s s1 -> Q s1 s' -> Q s s'.
Hypothesis E_unsupported : forall what, E (NotImplementedException what).
Hypothesis E_range : E OutOfRange.
Hypothesis E_assert : forall what, E (AssertionFailure what).

Lemma quiet_ret {A : Type} (a : A) : quiet E R (ret a : Emit VA A).
Proof. intros s. split; [apply R_refl | by intros e [=]]. Qed.

Lemma quiet_gets {A : Type} (f : EmitContext VA -> A) : quiet E R (gets f).
Proof. intros s. split; [apply R_refl | by intros e [=]]. Qed.

Lemma quiet_lift {A : Type} (r : Result A) :
  (forall e, r = Throw e -> E e) -> quiet E R (lift r : Emit VA A).
Proof. intros Hr s. split; [apply R_refl | exact Hr]. Qed.

Lemma quiet_bind {A B : Type} (m : Emit VA A) (k : A -> Emit VA B) :
  quiet E R m -> (forall a, quiet E R (k a)) -> quiet E R (bind m k).
Proof.
  intros Hm Hk s. unfold bind. destruct (Hm s) as [HR HE].
  destruct (m s) as [[a|e] s1]; simpl in *.
  - destruct (Hk a s1) as [HR' HE']. split; [by eapply R_trans | exact HE'].
  - split; [exact HR | intros e0 [= <-]; by apply HE].
Qed.

Lemma quiet_Define (inst : IR.InstId) (ty : GlslVarType) :
  quiet E R (var_alloc_Define inst ty).
Proof. intros s. split; [apply R_alloc | by intros e [=]]. Qed.

Lemma quiet_Consume (value : IR.Value) : quiet E R (var_alloc_Consume value).
Proof. intros s. split; [apply R_alloc | by intros e [=]]. Qed.

Lemma quiet_PrepareSparse (inst : IR.Inst) :
  (forall sparse, IR.GetAssociatedSparse inst = Some sparse -> marks sparse) ->
  quiet E R (PrepareSparse inst).
Proof.
  intros Hmarks s. unfold PrepareSparse.
  destruct (IR.GetAssociatedSparse inst) as [sparse|]; simpl.
  - split; [by apply R_inv, Hmarks | by intros e [=]].
  - split; [apply R_refl | by intros e [=]].
Qed.

Lemma U32_throws (v : IR.Value) (e : Exception) :
  IR.U32 v = Throw e -> exists what, e = AssertionFailure what.
Proof. unfold IR.U32. destruct (IR.Resolve v); intros [=]; by eexists. Qed.

Lemma InstRecursive_throws (v : IR.Value) (e : Exception) :
  IR.InstRecursive v = Throw e -> exists what, e = AssertionFailure what.
Proof. unfold IR.InstRecursive. destruct (IR.Resolve v); intros [=]; by eexists. Qed.

Lemma ArgU32_throws (inst : IR.Inst) (k : nat) (e : Exception) :
  ArgU32 inst k = Throw e -> exists what, e = AssertionFailure what.
Proof.
  unfold ArgU32, IR.Arg. destruct (IR.Args inst !! k) as [v|]; simpl.
  - apply U32_throws.
  - intros [=]. by eexists.
Qed.

Ltac throwing_argument :=
  repeat match goal with
         | |- context [ArgU32 ?i ?k] =>
             let Harg := fresh "Harg" in
             destruct (ArgU32 i k) eqn:Harg; lazy beta iota;
             [|intros [= <-]; by eapply ArgU32_throws]
         end.

Lemma literal_offset_throws (inst : IR.Inst) (r : Result string) (e : Exception) :
  literal_offset inst = Some r -> r = Throw e -> exists what, e = AssertionFailure what.
Proof.
  unfold literal_offset. intros Hlit ->.
  destruct (IR.GetOpcode inst); try discriminate Hlit;
    injection Hlit as Hlit; revert Hlit; unfold result_bind;
    throwing_argument; intros [=].
Qed.

Lemma quiet_GetOffsetVec (offset : IR.Value) : quiet E R (GetOffsetVec offset).
Proof.
  unfold GetOffsetVec. destruct (IR.IsImmediate offset).
  - apply quiet_lift. intros e. destruct (IR.U32 offset) eqn:Hu; simpl; [done|].
    intros [= <-]. apply U32_throws in Hu as [what ->]. apply E_assert.
  - apply quiet_bind.
    + apply quiet_lift. intros e He. apply InstRecursive_throws in He as [what ->].
      apply E_assert.
    + intros inst. destruct (IR.AreAllArgsImmediates inst); [|apply quiet_Consume].
      destruct (literal_offset inst) as [r|] eqn:Hlit; [|apply quiet_Consume].
      apply quiet_lift. intros e He.
      destruct (literal_offset_throws _ _ _ Hlit He) as [what ->]. apply E_assert.
Qed.

Lemma quiet_Texture (info : IR.TextureInstInfo) (index : IR.Value) :
  quiet E R (bind (gets id) (fun c => lift (Texture c info index))).
Proof.
  apply quiet_bind; [apply quiet_gets|]. intros c. apply quiet_lift.
  unfold Texture, at_. intros e.
  case_decide;
    (destruct (_ !! IR.descriptor_index info) as [slot|]; simpl; intros [=]; by subst).
Qed.

Lemma quiet_Image (info : IR.TextureInstInfo) (index : IR.Value) :
  quiet E R (bind (gets id) (fun c => lift (Image c info index))).
Proof.
  apply quiet_bind; [apply quiet_gets|]. intros c. apply quiet_lift.
  unfold Image, at_. intros e.
  case_decide;
    (destruct (_ !! IR.descriptor_index info) as [slot|]; simpl; intros [=]; by subst).
Qed.

Lemma quiet_CastToIntVec (value : string) (info : IR.TextureInstInfo) :
  quiet E R (lift (CastToIntVec value info) : Emit VA string).
Proof.
  apply quiet_lift. unfold CastToIntVec. intros e.
  destruct (IR.type info); intros [=]; subst; apply E_unsupported.
Qed.

Lemma quiet_TexelFetchCastToInt (value : string) (info : IR.TextureInstInfo) :
  quiet E R (lift (TexelFetchCastToInt value info) : Emit VA string).
Proof.
  apply quiet_lift. unfold TexelFetchCastToInt. intros e.
  destruct (IR.type info); intros [=]; subst; apply E_unsupported.
Qed.

Lemma PtpOffsets_throws (offset offset2 : IR.Value) (e : Exception) :
  PtpOffsets offset offset2 = Throw e ->
  e = LogicError "Invalid PTP arguments" \/ exists what, e = AssertionFailure what.
Proof.
  unfold PtpOffsets, result_bind.
  destruct (IR.InstRecursive offset) as [v0|e0] eqn:H0;
    [|intros [= <-]; right; by eapply InstRecursive_throws].
  destruct (IR.InstRecursive offset2) as [v1|e1] eqn:H1;
    [|intros [= <-]; right; by eapply InstRecursive_throws].
  destruct (negb (IR.AreAllArgsImmediates v0) || negb (IR.AreAllArgsImmediates v1));
    [by intros [=]|].
  destruct (negb (bool_decide (IR.GetOpcode v0 = IR.GetOpcode v1))
            || negb (bool_decide (IR.GetOpcode v0 = IR.CompositeConstructU32x4)));
    [intros [= <-]; by left|].
  lazy zeta. intros He. right. revert He. throwing_argument. intros [=].
Qed.

Lemma quiet_PtpOffsets (offset offset2 : IR.Value) :
  E (LogicError "Invalid PTP arguments") ->
  quiet E R (lift (PtpOffsets offset offset2) : Emit VA string).
Proof.
  intros HE. apply quiet_lift. intros e He.
  destruct (PtpOffsets_throws _ _ _ He) as [->|[what ->]]; [exact HE | apply E_assert].
Qed.

Lemma sound_throw (e : Exception) : E e -> sound E R Q (throw e).
Proof. intros He s. simpl. split; [exact He | apply R_refl]. Qed.

Lemma sound_Add (stmt : string) : sound E R Q (Add stmt).
Proof. intros s. apply Q_add. Qed.

Lemma sound_AddTyped (ty : GlslVarType) (inst : IR.InstId) (rest : string) :
  sound E R Q (AddTyped ty inst rest).
Proof.
  intros s.
  change (Q s (appended ((Define (var_alloc (ctx s)) inst ty).1 +:+ rest)
                 (with_var_alloc (Define (var_alloc (ctx s)) inst ty).2 s))).
  eapply Q_pre; [apply R_alloc | apply Q_add].
Qed.

Lemma sound_bind {A : Type} (m : Emit VA A) (k : A -> Emit VA unit) :
  quiet E R m -> (forall a, sound E R Q (k a)) -> sound E R Q (bind m k).
Proof.
  intros Hm Hk s. unfold bind. destruct (Hm s) as [HR HE].
  destruct (m s) as [[a|e] s1]; simpl in *.
  - specialize (Hk a s1). destruct ((k a s1).1) as [u|e'].
    + by eapply Q_pre.
    + destruct Hk as [He' HR']. split; [exact He' | by eapply R_trans].
  - split; [by apply HE | exact HR].
Qed.

Ltac quiet_step :=
  lazymatch goal with
  | |- quiet _ _ (bind (gets id) (fun c => lift (Texture c _ _))) => apply quiet_Texture
  | |- quiet _ _ (bind (gets id) (fun c => lift (Image c _ _))) => apply quiet_Image
  | |- quiet _ _ (gets _) => apply quiet_gets
  | |- quiet _ _ (var_alloc_Define _ _) => apply quiet_Define
  | |- quiet _ _ (var_alloc_Consume _) => apply quiet_Consume
  | |- quiet _ _ (PrepareSparse _) => apply quiet_PrepareSparse; assumption
  | |- quiet _ _ (GetOffsetVec _) => apply quiet_GetOffsetVec
  | |- quiet _ _ (lift (CastToIntVec _ _)) => apply quiet_CastToIntVec
  | |- quiet _ _ (lift (TexelFetchCastToInt _ _)) => apply quiet_TexelFetchCastToInt
  | |- quiet _ _ (lift (PtpOffsets _ _)) => apply quiet_PtpOffsets; auto
  end.

Ltac sound_step :=
  lazymatch goal with
  | |- sound _ _ _ (bind _ _) => apply sound_bind; [quiet_step | intros ?]
  | |- sound _ _ _ (throw _) => apply sound_throw; auto
  | |- sound _ _ _ (Add _) => apply sound_Add
  | |- sound _ _ _ (AddU1 _ _) => apply sound_AddTyped
  | |- sound _ _ _ (AddF32 _ _) => apply sound_AddTyped
  | |- sound _ _ _ (AddU32x4 _ _) => apply sound_AddTyped
  | |- sound _ _ _ (AddF32x4 _ _) => apply sound_AddTyped
  | |- sound _ _ _ (if ?c then _ else _) => destruct c eqn:?
  | |- sound _ _ _ (match ?x with _ => _ end) => destruct x eqn:?
  end.

Ltac sound_emitter := cbv zeta; repeat sound_step.

Section Marked.

Variable inst : IR.Inst.
Hypothesis marks_inst :
  forall sparse, IR.GetAssociatedSparse inst = Some sparse -> marks sparse.

Lemma EmitImageSampleImplicitLod_sound (index : IR.Value) (coords bias_lc : string)
    (offset : IR.Value) :
  sound E R Q (EmitImageSampleImplicitLod inst index coords bias_lc offset).
Proof. unfold EmitImageSampleImplicitLod. sound_emitter. Qed.

Lemma EmitImageSampleExplicitLod_sound (index : IR.Value) (coords lod_lc : string)
    (offset : IR.Value) :
  sound E R Q (EmitImageSampleExplicitLod inst index coords lod_lc offset).
Proof. unfold EmitImageSampleExplicitLod. sound_emitter. Qed.

Lemma EmitImageSampleDrefImplicitLod_sound (index : IR.Value)
    (coords dref bias_lc : string) (offset : IR.Value) :
  sound E R Q (EmitImageSampleDrefImplicitLod inst index coords dref bias_lc offset).
Proof. unfold EmitImageSampleDrefImplicitLod. sound_emitter. Qed.

Lemma EmitImageSampleDrefExplicitLod_sound (index : IR.Value)
    (coords dref lod_lc : string) (offset : IR.Value) :
  sound E R Q (EmitImageSampleDrefExplicitLod inst index coords dref lod_lc offset).
Proof. unfold EmitImageSampleDrefExplicitLod. sound_emitter. Qed.

Lemma EmitImageGather_sound (index : IR.Value) (coords : string)
    (offset offset2 : IR.Value) :
  (IR.IsEmpty offset = false -> IR.IsEmpty offset2 = false ->
   E (LogicError "Invalid PTP arguments")) ->
  sound E R Q (EmitImageGather inst index coords offset offset2).
Proof. intros HE. unfold EmitImageGather. sound_emitter. Qed.

Lemma EmitImageGatherDref_sound (index : IR.Value) (coords : string)
    (offset offset2 : IR.Value) (dref : string) :
  (IR.IsEmpty offset = false -> IR.IsEmpty offset2 = false ->
   E (LogicError "Invalid PTP arguments")) ->
  sound E R Q (EmitImageGatherDref inst index coords offset offset2 dref).
Proof. intros HE. unfold EmitImageGatherDref. sound_emitter. Qed.

Lemma EmitImageFetch_sound (index : IR.Value) (coords offset lod ms : string) :
  sound E R Q (EmitImageFetch inst index coords offset lod ms).
Proof. unfold EmitImageFetch. sound_emitter. Qed.

Lemma EmitImageGradient_sound (index : IR.Value) (coords : string)
    (derivatives offset lod_clamp : IR.Value) :
  sound E R Q (EmitImageGradient inst index coords derivatives offset lod_clamp).
Proof. unfold EmitImageGradient. sound_emitter. Qed.

Lemma EmitImageRead_sound (index : IR.Value) (coords : string) :
  sound E R Q (EmitImageRead inst index coords).
Proof. unfold EmitImageRead. sound_emitter. Qed.

End Marked.

Lemma EmitImageQueryDimensions_sound (inst : IR.Inst) (index : IR.Value) (lod : string) :
  (forall raw, IR.type (IR.Flags inst) = IR.OutOfEnum raw ->
               E (LogicError "Unspecified image type {}")) ->
  sound E R Q (EmitImageQueryDimensions inst index lod).
Proof. intros HE. unfold EmitImageQueryDimensions. sound_emitter. eauto. Qed.

Lemma EmitImageQueryLod_sound (inst : IR.Inst) (index : IR.Value) (coords : string) :
  sound E R Q (EmitImageQueryLod inst index coords).
Proof. unfold EmitImageQueryLod. sound_emitter. Qed.

Lemma EmitImageWrite_sound (inst : IR.Inst) (index : IR.Value) (coords color : string) :
  sound E R Q (EmitImageWrite inst index coords color).
Proof. unfold EmitImageWrite. sound_emitter. Qed.

End Logic.

(** ** One statement or none *)

Section Atomicity.

Context {VA : Type} `{!VarAllocOps VA}.

Lemma sound_emits_atomically (m : Emit VA unit) :
  sound (fun _ => True) sink_kept sink_grown m -> emits_atomically m.
Proof.
  intros Hm s. specialize (Hm s). destruct ((m s).1) as [u|e].
  - destruct Hm as [Hcode Htables]. by split.
  - destruct Hm as [_ [Hcode Htables]]. by split.
Qed.

Lemma sink_kept_refl (s : State VA) : sink_kept s s.
Proof. by repeat split. Qed.

Lemma sink_kept_trans (s1 s2 s3 : State VA) :
  sink_kept s1 s2 -> sink_kept s2 s3 -> sink_kept s1 s3.
Proof.
  unfold sink_kept, same_tables. intros (? & ? & ? & ? & ? & ? & ?) (? & ? & ? & ? & ? & ? & ?).
  repeat split; congruence.
Qed.

Lemma sink_kept_alloc (s : State VA) (va : VA) : sink_kept s (with_var_alloc va s).
Proof. by repeat split. Qed.

Lemma sink_kept_invalidate (s : State VA) (sparse : IR.InstId) :
  True -> sink_kept s (invalidate sparse s).
Proof. by repeat split. Qed.

Lemma sink_grown_appended (s : State VA) (stmt : string) : sink_grown s (appended stmt s).
Proof. split; [by exists stmt | by repeat split]. Qed.

Lemma sink_grown_after_kept (s s1 s' : State VA) :
  sink_kept s s1 -> sink_grown s1 s' -> sink_grown s s'.
Proof.
  unfold sink_kept, sink_grown, same_tables.
  intros (Hc & ? & ? & ? & ? & ? & ?) ([stmt Hs] & ? & ? & ? & ? & ? & ?).
  split; [exists stmt; by rewrite Hs, Hc | repeat split; congruence].
Qed.

Ltac atomic_side :=
  first [ exact sink_kept_refl | exact sink_kept_trans | exact sink_kept_alloc
        | exact sink_kept_invalidate | exact sink_grown_appended
        | exact sink_grown_after_kept | done ].

Ltac atomic_emitter lem :=
  apply sound_emits_atomically;
  apply lem with (marks := fun _ => True); atomic_side.

(** X1: whatever its operands and the state, each of the twelve
    emitters appends exactly one statement to the sink when it returns
    and none when it throws, keeps the statements already there, and
    never writes the binding tables, the stage or the profile. *)
Theorem emitters_append_one_statement_or_none (inst : IR.Inst) (index : IR.Value)
    (coords bias_lc lod_lc dref text_offset lod ms color : string)
    (offset offset2 derivatives lod_clamp : IR.Value) :
  emits_atomically (VA := VA) (EmitImageSampleImplicitLod inst index coords bias_lc offset)
  /\ emits_atomically (VA := VA) (EmitImageSampleExplicitLod inst index coords lod_lc offset)
  /\ emits_atomically (VA := VA)
       (EmitImageSampleDrefImplicitLod inst index coords dref bias_lc offset)
  /\ emits_atomically (VA := VA)
       (EmitImageSampleDrefExplicitLod inst index coords dref lod_lc offset)
  /\ emits_atomically (VA := VA) (EmitImageGather inst index coords offset offset2)
  /\ emits_atomically (VA := VA) (EmitImageGatherDref inst index coords offset offset2 dref)
  /\ emits_atomically (VA := VA) (EmitImageFetch inst index coords text_offset lod ms)
  /\ emits_atomically (VA := VA) (EmitImageQueryDimensions inst index lod)
  /\ emits_atomically (VA := VA) (EmitImageQueryLod inst index coords)
  /\ emits_atomically (VA := VA)
       (EmitImageGradient inst index coords derivatives offset lod_clamp)
  /\ emits_atomically (VA := VA) (EmitImageRead inst index coords)
  /\ emits_atomically (VA := VA) (EmitImageWrite inst index coords color).
Proof.
  split; [|split; [|split; [|split; [|split; [|split; [|split; [|split; [|split;
    [|split; [|split]]]]]]]]]].
  - atomic_emitter EmitImageSampleImplicitLod_sound.
  - atomic_emitter EmitImageSampleExplicitLod_sound.
  - atomic_emitter EmitImageSampleDrefImplicitLod_sound.
  - atomic_emitter EmitImageSampleDrefExplicitLod_sound.
  - atomic_emitter EmitImageGather_sound.
  - atomic_emitter EmitImageGatherDref_sound.
  - atomic_emitter EmitImageFetch_sound.
  - apply sound_emits_atomically.
    apply EmitImageQueryDimensions_sound; atomic_side.
  - apply sound_emits_atomically.
    apply EmitImageQueryLod_sound; atomic_side.
  - atomic_emitter EmitImageGradient_sound.
  - atomic_emitter EmitImageRead_sound.
  - apply sound_emits_atomically.
    apply EmitImageWrite_sound; atomic_side.
Qed.

End Atomicity.

(** ** Which pseudo-instructions are marked consumed *)

Section Marks.

Context {VA : Type} `{!VarAllocOps VA}.

Lemma sound_marks_only (allowed : gset IR.InstId) (m : Emit VA unit) :
  sound (fun _ => True) (marked_within allowed) (marked_within allowed) m ->
  marks_only allowed m.
Proof.
  intros Hm s. specialize (Hm s). destruct ((m s).1) as [u|e]; [exact Hm | apply Hm].
Qed.

Lemma marked_within_refl (allowed : gset IR.InstId) (s : State VA) :
  marked_within allowed s s.
Proof. unfold marked_within. set_solver. Qed.

Lemma marked_within_trans (allowed : gset IR.InstId) (s1 s2 s3 : State VA) :
  marked_within allowed s1 s2 -> marked_within allowed s2 s3 -> marked_within allowed s1 s3.
Proof.
  unfold marked_within. intros [Hkept Hadded] [Hkept' Hadded']. split; [by etrans|].
  intros x Hx. apply Hadded', elem_of_union in Hx as [Hx|Hx];
    [by apply Hadded | by apply elem_of_union_r].
Qed.

Lemma marked_within_alloc (allowed : gset IR.InstId) (s : State VA) (va : VA) :
  marked_within allowed s (with_var_alloc va s).
Proof. unfold marked_within. simpl. set_solver. Qed.

Lemma marked_within_invalidate (allowed : gset IR.InstId) (s : State VA)
    (sparse : IR.InstId) :
  sparse ∈ allowed -> marked_within allowed s (invalidate sparse s).
Proof.
  unfold marked_within. simpl. intros Hsparse. split; [apply union_subseteq_r|].
  intros x [Hx|Hx]%elem_of_union;
    [apply elem_of_singleton in Hx as ->; by apply elem_of_union_r
    |by apply elem_of_union_l].
Qed.

Lemma marked_within_appended (allowed : gset IR.InstId) (s : State VA) (stmt : string) :
  marked_within allowed s (appended stmt s).
Proof. unfold marked_within. simpl. set_solver. Qed.

Lemma elem_of_sparse_set (inst : IR.Inst) (sparse : IR.InstId) :
  IR.GetAssociatedSparse inst = Some sparse -> sparse ∈ sparse_set inst.
Proof. unfold sparse_set. intros ->. set_solver. Qed.

Ltac marks_side allowed :=
  first [ exact (marked_within_refl allowed) | exact (marked_within_trans allowed)
        | exact (marked_within_alloc allowed) | exact (marked_within_invalidate allowed)
        | exact (marked_within_appended allowed) | exact (elem_of_sparse_set _)
        | done ].

Ltac marks_emitter lem inst :=
  apply sound_marks_only;
  apply lem with (marks := fun sparse => sparse ∈ sparse_set inst);
  marks_side (sparse_set inst).

(** X2: an emitter never unmarks a consumed pseudo-instruction, and
    the only instruction it can mark consumed is the sparse
    pseudo-instruction attached to the instruction it lowers; the
    dimension query, the LOD query and the image store mark none. *)
Theorem emitters_mark_own_sparse_only (inst : IR.Inst) (index : IR.Value)
    (coords bias_lc lod_lc dref text_offset lod ms color : string)
    (offset offset2 derivatives lod_clamp : IR.Value) :
  marks_only (VA := VA) (sparse_set inst)
    (EmitImageSampleImplicitLod inst index coords bias_lc offset)
  /\ marks_only (VA := VA) (sparse_set inst)
       (EmitImageSampleExplicitLod inst index coords lod_lc offset)
  /\ marks_only (VA := VA) (sparse_set inst)
       (EmitImageSampleDrefImplicitLod inst index coords dref bias_lc offset)
  /\ marks_only (VA := VA) (sparse_set inst)
       (EmitImageSampleDrefExplicitLod inst index coords dref lod_lc offset)
  /\ marks_only (VA := VA) (sparse_set inst)
       (EmitImageGather inst index coords offset offset2)
  /\ marks_only (VA := VA) (sparse_set inst)
       (EmitImageGatherDref inst index coords offset offset2 dref)
  /\ marks_only (VA := VA) (sparse_set inst)
       (EmitImageFetch inst index coords text_offset lod ms)
  /\ marks_only (VA := VA) (sparse_set inst)
       (EmitImageGradient inst index coords derivatives offset lod_clamp)
  /\ marks_only (VA := VA) (sparse_set inst) (EmitImageRead inst index coords)
  /\ marks_only (VA := VA) ∅ (EmitImageQueryDimensions inst index lod)
  /\ marks_only (VA := VA) ∅ (EmitImageQueryLod inst index coords)
  /\ marks_only (VA := VA) ∅ (EmitImageWrite inst index coords color).
Proof.
  split; [|split; [|split; [|split; [|split; [|split; [|split; [|split; [|split;
    [|split; [|split]]]]]]]]]].
  - marks_emitter EmitImageSampleImplicitLod_sound inst.
  - marks_emitter EmitImageSampleExplicitLod_sound inst.
  - marks_emitter EmitImageSampleDrefImplicitLod_sound inst.
  - marks_emitter EmitImageSampleDrefExplicitLod_sound inst.
  - marks_emitter EmitImageGather_sound inst.
  - marks_emitter EmitImageGatherDref_sound inst.
  - marks_emitter EmitImageFetch_sound inst.
  - marks_emitter EmitImageGradient_sound inst.
  - marks_emitter EmitImageRead_sound inst.
  - apply sound_marks_only. apply EmitImageQueryDimensions_sound; marks_side (∅ : gset IR.InstId).
  - apply sound_marks_only. apply EmitImageQueryLod_sound; marks_side (∅ : gset IR.InstId).
  - apply sound_marks_only. apply EmitImageWrite_sound; marks_side (∅ : gset IR.InstId).
Qed.

End Marks.

(** ** Where the invariant violation can come from *)

Section LogicErrors.

Context {VA : Type} `{!VarAllocOps VA}.





End LogicErrors.

(** ** Resources that are not bound *)

Section Unbound.

Context {VA : Type} `{!VarAllocOps VA}.

Lemma Texture_unbound (c : EmitContext VA) (info : IR.TextureInstInfo) (index : IR.Value) :
  binding_table c false info !! IR.descriptor_index info = None ->
  Texture c info index = Throw OutOfRange.
Proof.
  unfold binding_table, Texture, at_. intros Hnone.
  case_decide as Hb;
    [rewrite (bool_decide_eq_true_2 _ Hb) in Hnone
    |rewrite (bool_decide_eq_false_2 _ Hb) in Hnone]; by rewrite Hnone.
Qed.

Lemma Image_unbound (c : EmitContext VA) (info : IR.TextureInstInfo) (index : IR.Value) :
  binding_table c true info !! IR.descriptor_index info = None ->
  Image c info index = Throw OutOfRange.
Proof.
  unfold binding_table, Image, at_. intros Hnone.
  case_decide as Hb;
    [rewrite (bool_decide_eq_true_2 _ Hb) in Hnone
    |rewrite (bool_decide_eq_false_2 _ Hb) in Hnone]; by rewrite Hnone.
Qed.

Ltac unbound_emitter H :=
  unfold fails_untouched; run_emitter;
  repeat first
    [ rewrite H; simpl
    | match goal with
      | |- context [IR.has_bias ?i] => destruct (IR.has_bias i); simpl
      | |- context [IR.has_lod_clamp ?i] => destruct (IR.has_lod_clamp i); simpl
      | |- context [IR.GetAssociatedSparse ?i] => destruct (IR.GetAssociatedSparse i); simpl
      | |- context [IR.IsEmpty ?o] => destruct (IR.IsEmpty o); simpl
      end ];
  (split; [by eexists | by split]).

(** X4: when the descriptor index of the instruction is not registered
    in the table its dimensionality selects, every emitter throws, and
    it has then neither appended a statement nor defined or consumed a
    variable: the lookup comes before any use of the allocator. *)
Theorem unbound_resource_rejected (inst : IR.Inst) (index : IR.Value)
    (coords bias_lc lod_lc dref text_offset lod ms color : string)
    (offset offset2 derivatives lod_clamp : IR.Value) (s : State VA) :
  (binding_table (ctx s) false (IR.Flags inst) !! IR.descriptor_index (IR.Flags inst) = None ->
   fails_untouched (EmitImageSampleImplicitLod inst index coords bias_lc offset) s
   /\ fails_untouched (EmitImageSampleExplicitLod inst index coords lod_lc offset) s
   /\ fails_untouched (EmitImageSampleDrefImplicitLod inst index coords dref bias_lc offset) s
   /\ fails_untouched (EmitImageSampleDrefExplicitLod inst index coords dref lod_lc offset) s
   /\ fails_untouched (EmitImageGather inst index coords offset offset2) s
   /\ fails_untouched (EmitImageGatherDref inst index coords offset offset2 dref) s
   /\ fails_untouched (EmitImageFetch inst index coords text_offset lod ms) s
   /\ fails_untouched (EmitImageQueryDimensions inst index lod) s
   /\ fails_untouched (EmitImageQueryLod inst index coords) s
   /\ fails_untouched (EmitImageGradient inst index coords derivatives offset lod_clamp) s)
  /\ (binding_table (ctx s) true (IR.Flags inst) !! IR.descriptor_index (IR.Flags inst) = None ->
      fails_untouched (EmitImageRead inst index coords) s
      /\ fails_untouched (EmitImageWrite inst index coords color) s).
Proof.
  split.
  - intros Hnone. pose proof (Texture_unbound (ctx s) (IR.Flags inst) index Hnone) as Htex.
    split; [|split; [|split; [|split; [|split; [|split; [|split; [|split; [|split]]]]]]]].
    + unfold EmitImageSampleImplicitLod. unbound_emitter Htex.
    + unfold EmitImageSampleExplicitLod. unbound_emitter Htex.
    + unfold EmitImageSampleDrefImplicitLod. unbound_emitter Htex.
    + unfold EmitImageSampleDrefExplicitLod. unbound_emitter Htex.
    + unfold EmitImageGather. unbound_emitter Htex.
    + unfold EmitImageGatherDref. unbound_emitter Htex.
    + unfold EmitImageFetch. unbound_emitter Htex.
    + unfold EmitImageQueryDimensions. unbound_emitter Htex.
    + unfold EmitImageQueryLod. unbound_emitter Htex.
    + unfold EmitImageGradient. unbound_emitter Htex.
  - intros Hnone. pose proof (Image_unbound (ctx s) (IR.Flags inst) index Hnone) as Himg.
    split.
    + unfold EmitImageRead. unbound_emitter Himg.
    + unfold EmitImageWrite. unbound_emitter Himg.
Qed.

End Unbound.

Lemma unbound_resource_rejected_witness :
  fails_untouched (EmitImageGather (unbound_inst IR.Color2D) IR.VVoid "c" IR.VVoid IR.VVoid)
    sample_state
  /\ fails_untouched (EmitImageWrite (unbound_inst IR.Buffer) IR.VVoid "c" "v") sample_state.
Proof.
  split.
  - apply (proj1 (unbound_resource_rejected (unbound_inst IR.Color2D) IR.VVoid
                    "c" "b" "l" "d" "" "l" "m" "v" IR.VVoid IR.VVoid IR.VVoid IR.VVoid
                    sample_state) eq_refl).
  - apply (proj2 (unbound_resource_rejected (unbound_inst IR.Buffer) IR.VVoid
                    "c" "b" "l" "d" "" "l" "m" "v" IR.VVoid IR.VVoid IR.VVoid IR.VVoid
                    sample_state) eq_refl).
Defined.

(** ** Emitters without a sparse variant *)

Section SparseRejected.

Context {VA : Type} `{!VarAllocOps VA}.

(** X5: the depth-compare samples, the image load and (when the LOD
    clamp modifier is absent) the gradient sample reject an instruction
    with an attached sparse pseudo-instruction as unsupported, before
    they look at the other modifiers or at the binding; the only effect
    left is that the pseudo-instruction has been marked consumed. *)
Theorem sparse_rejected_after_consumption (inst : IR.Inst) (sparse : IR.InstId)
    (index : IR.Value) (coords dref bias_lc lod_lc : string)
    (offset derivatives lod_clamp : IR.Value) (s : State VA) :
  IR.GetAssociatedSparse inst = Some sparse ->
  EmitImageSampleDrefImplicitLod inst index coords dref bias_lc offset s
  = (Throw (NotImplementedException "EmitImageSampleDrefImplicitLod Sparse texture samples"),
     invalidate sparse s)
  /\ EmitImageSampleDrefExplicitLod inst index coords dref lod_lc offset s
     = (Throw (NotImplementedException
                 "EmitImageSampleDrefExplicitLod Sparse texture samples"),
        invalidate sparse s)
  /\ EmitImageRead inst index coords s
     = (Throw (NotImplementedException "EmitImageRead Sparse"), invalidate sparse s)
  /\ (IR.has_lod_clamp (IR.Flags inst) = false ->
      EmitImageGradient inst index coords derivatives offset lod_clamp s
      = (Throw (NotImplementedException "EmitImageGradient Sparse"), invalidate sparse s)).
Proof.
  intros Hsparse. split; [|split; [|split]].
  - unfold EmitImageSampleDrefImplicitLod. run_emitter. by rewrite Hsparse.
  - unfold EmitImageSampleDrefExplicitLod. run_emitter. by rewrite Hsparse.
  - unfold EmitImageRead. run_emitter. by rewrite Hsparse.
  - intros Hclamp. unfold EmitImageGradient. run_emitter. by rewrite Hclamp, Hsparse.
Qed.

End SparseRejected.

Lemma sparse_rejected_after_consumption_witness :
  EmitImageRead sparse_dref_inst IR.VVoid "c" sample_state
  = (Throw (NotImplementedException "EmitImageRead Sparse"), invalidate 11%N sample_state).
Proof.
  exact (proj1 (proj2 (proj2 (sparse_rejected_after_consumption sparse_dref_inst 11%N
                                IR.VVoid "c" "d" "b" "l" IR.VVoid IR.VVoid IR.VVoid
                                sample_state eq_refl)))).
Defined.

(** ** The emitted constants can be read back *)

Lemma formatted_taps (a0 a1 a2 a3 b0 b1 b2 b3 : N) :
  "ivec2[](ivec2(" +:+ pretty a0 +:+ "," +:+ pretty a1
  +:+ "),ivec2(" +:+ pretty a2 +:+ "," +:+ pretty a3
  +:+ "),ivec2(" +:+ pretty b0 +:+ "," +:+ pretty b1
  +:+ "),ivec2(" +:+ pretty b2 +:+ "," +:+ pretty b3 +:+ "))"
  = ptp_array [(a0, a1); (a2, a3); (b0, b1); (b2, b3)].
Proof. unfold ptp_array, ivec2_literal. simpl. normalize_strings. reflexivity. Qed.

(** X6: for PTP operands that are 4-wide constructions of immediates,
    the array the encoder returns determines the eight components: two
    pairs of operands give the same text only if they hold the same
    components in the same order. *)
Theorem PtpOffsets_text_determines_components
    (offset offset2 offset' offset2' : IR.Value) (A B A' B' : IR.Inst)
    (a0 a1 a2 a3 b0 b1 b2 b3 a0' a1' a2' a3' b0' b1' b2' b3' : N) :
  IR.InstRecursive offset = Ok A ->
  IR.InstRecursive offset2 = Ok B ->
  IR.GetOpcode A = IR.CompositeConstructU32x4 ->
  IR.GetOpcode B = IR.CompositeConstructU32x4 ->
  Forall2 (fun v n => IR.U32 v = Ok n) (IR.Args A) [a0; a1; a2; a3] ->
  Forall2 (fun v n => IR.U32 v = Ok n) (IR.Args B) [b0; b1; b2; b3] ->
  IR.InstRecursive offset' = Ok A' ->
  IR.InstRecursive offset2' = Ok B' ->
  IR.GetOpcode A' = IR.CompositeConstructU32x4 ->
  IR.GetOpcode B' = IR.CompositeConstructU32x4 ->
  Forall2 (fun v n => IR.U32 v = Ok n) (IR.Args A') [a0'; a1'; a2'; a3'] ->
  Forall2 (fun v n => IR.U32 v = Ok n) (IR.Args B') [b0'; b1'; b2'; b3'] ->
  PtpOffsets offset offset2 = PtpOffsets offset' offset2'
  <-> [a0; a1; a2; a3; b0; b1; b2; b3] = [a0'; a1'; a2'; a3'; b0'; b1'; b2'; b3'].
Proof.
  intros HA HB HopA HopB HargsA HargsB HA' HB' HopA' HopB' HargsA' HargsB'.
  rewrite (PtpOffsets_formats _ _ A B _ _ _ _ _ _ _ _ HA HB HopA HopB HargsA HargsB).
  rewrite (PtpOffsets_formats _ _ A' B' _ _ _ _ _ _ _ _ HA' HB' HopA' HopB' HargsA' HargsB').
  rewrite !formatted_taps. split.
  - intros Heq.
    assert (Htaps : [(a0, a1); (a2, a3); (b0, b1); (b2, b3)]
                    = [(a0', a1'); (a2', a3'); (b0', b1'); (b2', b3')])
      by (apply ptp_array_inj; congruence).
    by simplify_eq.
  - intros Heq. by simplify_eq.
Qed.

Lemma PtpOffsets_text_determines_components_witness :
  PtpOffsets (IR.VOpaque ptp_A) (IR.VOpaque ptp_B)
  = PtpOffsets ptp_A_alias (IR.VOpaque ptp_B).
Proof.
  apply (PtpOffsets_text_determines_components
           (IR.VOpaque ptp_A) (IR.VOpaque ptp_B) ptp_A_alias (IR.VOpaque ptp_B)
           ptp_A ptp_B ptp_A ptp_B 1 2 3 4 5 6 7 8 1 2 3 4 5 6 7 8
           eq_refl eq_refl eq_refl eq_refl
           ltac:(repeat constructor) ltac:(repeat constructor)
           eq_refl eq_refl eq_refl eq_refl
           ltac:(repeat constructor) ltac:(repeat constructor)).
  reflexivity.
Defined.

Lemma numbers_delimited (l1 l2 : list N) :
  length l1 = length l2 ->
  String.concat "," (pretty <$> l1) +:+ ")" = String.concat "," (pretty <$> l2) +:+ ")" ->
  l1 = l2.
Proof.
  revert l2. induction l1 as [|x l1 IH]; intros [|y l2] Hlen; try done.
  destruct l1 as [|x' l1], l2 as [|y' l2]; try done;
    rewrite !fmap_cons, ?concat_cons_cons, ?concat_singleton, ?string_app_assoc;
    intros Heq; apply pretty_delimited in Heq as [-> Heq]; try done.
  rewrite <-!fmap_cons in Heq. f_equal. apply IH; [simpl in Hlen |- *; lia | exact Heq].
Qed.

Lemma vector_literal_inj (l1 l2 : list N) : vector_literal l1 = vector_literal l2 -> l1 = l2.
Proof.
  unfold vector_literal. intros Heq.
  apply (inj (String.append "ivec")) in Heq.
  unfold pretty at 1 3, pretty_nat in Heq.
  apply pretty_delimited in Heq as [Hlen Heq]; [|done].
  apply numbers_delimited; [lia | exact Heq].
Qed.

Section FoldedText.

Context {VA : Type} `{!VarAllocOps VA}.

Lemma GetOffsetVec_scalar (offset : IR.Value) (v : N) (s : State VA) :
  IR.U32 offset = Ok v -> GetOffsetVec offset s = (Ok ("int(" +:+ pretty v +:+ ")"), s).
Proof. intros Hv. unfold GetOffsetVec. by rewrite (U32_IsImmediate _ _ Hv), Hv. Qed.

Lemma GetOffsetVec_vector (offset : IR.Value) (inst : IR.Inst) (components : list N)
    (s : State VA) :
  IR.InstRecursive offset = Ok inst ->
  Forall2 (fun v n => IR.U32 v = Ok n) (IR.Args inst) components ->
  construct_width (IR.GetOpcode inst) = Some (length components) ->
  GetOffsetVec offset s = (Ok (vector_literal components), s).
Proof.
  intros Hinst Hargs Hwidth. unfold GetOffsetVec.
  rewrite (InstRecursive_not_immediate _ _ Hinst), Hinst. run_emitter.
  rewrite (all_U32_AreAllArgsImmediates _ _ Hargs). unfold literal_offset.
  destruct (IR.GetOpcode inst); simplify_eq/=.
  - destruct components as [|c0 [|c1 [|]]]; simplify_eq/=.
    rewrite (ArgU32_lookup inst _ 0 c0 Hargs eq_refl),
      (ArgU32_lookup inst _ 1 c1 Hargs eq_refl).
    unfold vector_literal. simpl. change (pretty 2%nat) with "2". simpl.
    by normalize_strings.
  - destruct components as [|c0 [|c1 [|c2 [|]]]]; simplify_eq/=.
    rewrite (ArgU32_lookup inst _ 0 c0 Hargs eq_refl),
      (ArgU32_lookup inst _ 1 c1 Hargs eq_refl),
      (ArgU32_lookup inst _ 2 c2 Hargs eq_refl).
    unfold vector_literal. simpl. change (pretty 3%nat) with "3". simpl.
    by normalize_strings.
  - destruct components as [|c0 [|c1 [|c2 [|c3 [|]]]]]; simplify_eq/=.
    rewrite (ArgU32_lookup inst _ 0 c0 Hargs eq_refl),
      (ArgU32_lookup inst _ 1 c1 Hargs eq_refl),
      (ArgU32_lookup inst _ 2 c2 Hargs eq_refl),
      (ArgU32_lookup inst _ 3 c3 Hargs eq_refl).
    unfold vector_literal. simpl. change (pretty 4%nat) with "4". simpl.
    by normalize_strings.
Qed.

(** X7: the text of a folded offset determines the offset. Two
    immediate scalars fold to the same text only if they are equal; two
    vector constructions of immediates only if they have the same
    components (hence the same width); and a scalar never folds to the
    text of a vector construction. *)
Theorem folded_offset_text_determines_offset (offset offset' : IR.Value) (s : State VA) :
  (forall v v', IR.U32 offset = Ok v -> IR.U32 offset' = Ok v' ->
     (GetOffsetVec offset s).1 = (GetOffsetVec offset' s).1 -> v = v')
  /\ (forall inst inst' components components',
        IR.InstRecursive offset = Ok inst ->
        Forall2 (fun v n => IR.U32 v = Ok n) (IR.Args inst) components ->
        construct_width (IR.GetOpcode inst) = Some (length components) ->
        IR.InstRecursive offset' = Ok inst' ->
        Forall2 (fun v n => IR.U32 v = Ok n) (IR.Args inst') components' ->
        construct_width (IR.GetOpcode inst') = Some (length components') ->
        (GetOffsetVec offset s).1 = (GetOffsetVec offset' s).1 ->
        components = components')
  /\ (forall v inst' components',
        IR.U32 offset = Ok v ->
        IR.InstRecursive offset' = Ok inst' ->
        Forall2 (fun v n => IR.U32 v = Ok n) (IR.Args inst') components' ->
        construct_width (IR.GetOpcode inst') = Some (length components') ->
        (GetOffsetVec offset s).1 <> (GetOffsetVec offset' s).1).
Proof.
  split; [|split].
  - intros v v' Hv Hv'. rewrite (GetOffsetVec_scalar _ _ _ Hv), (GetOffsetVec_scalar _ _ _ Hv').
    simpl. intros [= Heq]. by apply pretty_delimited in Heq as [-> _].
  - intros inst inst' cs cs' Hinst Hargs Hwidth Hinst' Hargs' Hwidth'.
    rewrite (GetOffsetVec_vector _ _ _ _ Hinst Hargs Hwidth),
      (GetOffsetVec_vector _ _ _ _ Hinst' Hargs' Hwidth').
    simpl. intros Heq. apply vector_literal_inj. congruence.
  - intros v inst' cs' Hv Hinst' Hargs' Hwidth'.
    rewrite (GetOffsetVec_scalar _ _ _ Hv), (GetOffsetVec_vector _ _ _ _ Hinst' Hargs' Hwidth').
    unfold vector_literal. simpl. discriminate.
Qed.

End FoldedText.

Lemma folded_offset_text_determines_offset_witness : [5; 6]%N = [5; 6]%N.
Proof.
  exact (proj1 (proj2 (folded_offset_text_determines_offset
                         folded_offset (IR.VOpaque ptp_narrow) sample_state))
           ptp_narrow ptp_narrow [5; 6]%N [5; 6]%N
           eq_refl ltac:(repeat constructor) eq_refl
           eq_refl ltac:(repeat constructor) eq_refl eq_refl).
Defined.

(** ** Depth-compare samples without the shadow-LOD extension *)

Section ShadowFallback.

Context {VA : Type} `{!VarAllocOps VA}.

(** X8: without the shadow-LOD extension, an implicit-LOD
    depth-compare sample lowered outside the fragment stage falls back
    as the explicit-LOD one does: [textureGrad] with zero derivatives,
    2-wide for Array2D and 3-wide for Cube, and the constant zero for
    ArrayCube; the explicit-LOD sample of an Array2D texture falls back
    to the 2-wide gradient call too. The offset operand, empty or not,
    is neither emitted nor consumed. *)
Theorem shadow_fallback_other_paths (inst : IR.Inst) (index : IR.Value)
    (coords dref bias_lc lod_lc texture : string) (offset : IR.Value) (s : State VA) :
  support_gl_texture_shadow_lod (profile (ctx s)) = false ->
  IR.GetAssociatedSparse inst = None ->
  IR.has_bias (IR.Flags inst) = false ->
  IR.has_lod_clamp (IR.Flags inst) = false ->
  Texture (ctx s) (IR.Flags inst) index = Ok texture ->
  (is_fragment (stage (ctx s)) = false ->
   (IR.type (IR.Flags inst) = IR.ColorArray2D ->
    EmitImageSampleDrefImplicitLod inst index coords dref bias_lc offset s
    = (Ok tt, bound_statement F32 (IR.GetId inst)
                ("=textureGrad(" +:+ texture +:+ ",vec4(" +:+ coords +:+ "," +:+ dref
                 +:+ "),vec2(0),vec2(0));") s))
   /\ (IR.type (IR.Flags inst) = IR.ColorCube ->
       EmitImageSampleDrefImplicitLod inst index coords dref bias_lc offset s
       = (Ok tt, bound_statement F32 (IR.GetId inst)
                   ("=textureGrad(" +:+ texture +:+ ",vec4(" +:+ coords +:+ "," +:+ dref
                    +:+ "),vec3(0),vec3(0));") s))
   /\ (IR.type (IR.Flags inst) = IR.ColorArrayCube ->
       EmitImageSampleDrefImplicitLod inst index coords dref bias_lc offset s
       = (Ok tt, bound_statement F32 (IR.GetId inst) "=0.0f;" s)))
  /\ (IR.type (IR.Flags inst) = IR.ColorArray2D ->
      EmitImageSampleDrefExplicitLod inst index coords dref lod_lc offset s
      = (Ok tt, bound_statement F32 (IR.GetId inst)
                  ("=textureGrad(" +:+ texture +:+ ",vec4(" +:+ coords +:+ "," +:+ dref
                   +:+ "),vec2(0),vec2(0));") s)).
Proof.
  intros Hext Hsparse Hbias Hclamp Htex. split.
  - intros Hstage. unfold EmitImageSampleDrefImplicitLod. run_emitter.
    rewrite Hsparse, Hbias, Hclamp. simpl. rewrite Htex, Hext, Hstage. simpl.
    repeat split; intros ->; simpl; by destruct s.
  - intros Htype. unfold EmitImageSampleDrefExplicitLod. run_emitter.
    rewrite Hsparse, Hbias, Hclamp. simpl. rewrite Htex, Hext, Htype. simpl.
    by destruct s.
Qed.

End ShadowFallback.

Lemma shadow_fallback_other_paths_witness :
  EmitImageSampleDrefImplicitLod (texture_inst IR.ColorArray2D) IR.VVoid "c" "d" "b"
    (IR.ImmU32 1) sample_state
  = (Ok tt, bound_statement F32 10%N "=textureGrad(tex7,vec4(c,d),vec2(0),vec2(0));"
              sample_state).
Proof.
  exact (proj1 (proj1 (shadow_fallback_other_paths (texture_inst IR.ColorArray2D) IR.VVoid
                         "c" "d" "b" "l" "tex7" (IR.ImmU32 1) sample_state
                         eq_refl eq_refl eq_refl eq_refl eq_refl) eq_refl) eq_refl).
Defined.

(** ** Which emitters read the stage and the profile *)

Section Environment.

Context {VA : Type} `{!VarAllocOps VA}.

Variable P : State VA -> Prop.
Variable g : Stage -> Stage.
Variable h : Profile -> Profile.

Hypothesis P_alloc : forall s va, P s -> P (with_var_alloc va s).
Hypothesis P_add : forall s stmt, P s -> P (appended stmt s).
Hypothesis P_inv : forall s sparse, P s -> P (invalidate sparse s).

Lemma unaffected_ret {A : Type} (a : A) :
  unaffected P (map_environment g h) (ret a : Emit VA A).
Proof. by intros s Hs. Qed.

Lemma unaffected_throw {A : Type} (e : Exception) :
  unaffected P (map_environment g h) (throw e : Emit VA A).
Proof. by intros s Hs. Qed.

Lemma unaffected_lift {A : Type} (r : Result A) :
  unaffected P (map_environment g h) (lift r : Emit VA A).
Proof. by intros s Hs. Qed.

Lemma unaffected_bind {A B : Type} (m : Emit VA A) (k : A -> Emit VA B) :
  unaffected P (map_environment g h) m ->
  (forall a, unaffected P (map_environment g h) (k a)) ->
  unaffected P (map_environment g h) (bind m k).
Proof.
  intros Hm Hk s Hs. unfold bind. destruct (Hm s Hs) as [-> HI].
  destruct (m s) as [[a|e] s1]; simpl in *; [by apply Hk | done].
Qed.

Lemma unaffected_reads {A B : Type} (proj : EmitContext VA -> A) (k : A -> Emit VA B) :
  (forall s, P s -> k (proj (ctx (map_environment g h s))) (map_environment g h s)
              = k (proj (ctx s)) (map_environment g h s)) ->
  (forall a, unaffected P (map_environment g h) (k a)) ->
  unaffected P (map_environment g h) (bind (gets proj) k).
Proof.
  intros Hread Hk s Hs. unfold bind, gets.
  rewrite (Hread s Hs). by apply Hk.
Qed.

Lemma unaffected_Define (inst : IR.InstId) (ty : GlslVarType) :
  unaffected P (map_environment g h) (var_alloc_Define inst ty).
Proof. intros s Hs. split; [reflexivity | by apply P_alloc]. Qed.

Lemma unaffected_Consume (value : IR.Value) :
  unaffected P (map_environment g h) (var_alloc_Consume value).
Proof. intros s Hs. split; [reflexivity | by apply P_alloc]. Qed.

Lemma unaffected_Add (stmt : string) : unaffected P (map_environment g h) (Add stmt).
Proof. intros s Hs. split; [reflexivity | by apply P_add]. Qed.

Lemma unaffected_AddTyped (ty : GlslVarType) (inst : IR.InstId) (rest : string) :
  unaffected P (map_environment g h) (AddTyped ty inst rest).
Proof.
  apply unaffected_bind; [apply unaffected_Define | intros var; apply unaffected_Add].
Qed.

Lemma unaffected_PrepareSparse (inst : IR.Inst) :
  unaffected P (map_environment g h) (PrepareSparse inst).
Proof.
  unfold PrepareSparse. destruct (IR.GetAssociatedSparse inst) as [sparse|].
  - intros s Hs. split; [reflexivity | by apply P_inv].
  - apply unaffected_ret.
Qed.

Lemma unaffected_GetOffsetVec (offset : IR.Value) :
  unaffected P (map_environment g h) (GetOffsetVec offset).
Proof.
  unfold GetOffsetVec. destruct (IR.IsImmediate offset); [apply unaffected_lift|].
  apply unaffected_bind; [apply unaffected_lift|]. intros inst.
  destruct (IR.AreAllArgsImmediates inst); [|apply unaffected_Consume].
  destruct (literal_offset inst); [apply unaffected_lift | apply unaffected_Consume].
Qed.

Lemma unaffected_Texture (info : IR.TextureInstInfo) (index : IR.Value) :
  unaffected P (map_environment g h) (bind (gets id) (fun c => lift (Texture c info index))).
Proof. by intros s Hs. Qed.

Lemma unaffected_Image (info : IR.TextureInstInfo) (index : IR.Value) :
  unaffected P (map_environment g h) (bind (gets id) (fun c => lift (Image c info index))).
Proof. by intros s Hs. Qed.

End Environment.

Ltac unaffected_call :=
  lazymatch goal with
  | |- unaffected _ _ (bind (gets id) (fun c => lift (Texture c _ _))) =>
      apply unaffected_Texture
  | |- unaffected _ _ (bind (gets id) (fun c => lift (Image c _ _))) =>
      apply unaffected_Image
  | |- unaffected _ _ (var_alloc_Define _ _) => apply unaffected_Define; assumption
  | |- unaffected _ _ (var_alloc_Consume _) => apply unaffected_Consume; assumption
  | |- unaffected _ _ (PrepareSparse _) => apply unaffected_PrepareSparse; assumption
  | |- unaffected _ _ (GetOffsetVec _) => apply unaffected_GetOffsetVec; assumption
  | |- unaffected _ _ (lift _) => apply unaffected_lift
  end.

Ltac unaffected_step :=
  lazymatch goal with
  | |- unaffected _ _ (bind (gets id) (fun c => lift _)) => unaffected_call
  | |- unaffected _ _ (bind (gets _) _) =>
      apply unaffected_reads; [intros ? ?; try reflexivity | intros ?]
  | |- unaffected _ _ (bind _ _) => apply unaffected_bind; [unaffected_call | intros ?]
  | |- unaffected _ _ (throw _) => apply unaffected_throw
  | |- unaffected _ _ (Add _) => apply unaffected_Add; assumption
  | |- unaffected _ _ (AddU1 _ _) => apply unaffected_AddTyped; assumption
  | |- unaffected _ _ (AddF32 _ _) => apply unaffected_AddTyped; assumption
  | |- unaffected _ _ (AddU32x4 _ _) => apply unaffected_AddTyped; assumption
  | |- unaffected _ _ (AddF32x4 _ _) => apply unaffected_AddTyped; assumption
  | |- unaffected _ _ (if ?c then _ else _) => destruct c eqn:?
  | |- unaffected _ _ (match ?x with _ => _ end) => destruct x eqn:?
  end.

Ltac unaffected_emitter := cbv zeta; repeat unaffected_step.

Section Readers.

Context {VA : Type} `{!VarAllocOps VA}.

Variable P : State VA -> Prop.

Hypothesis P_alloc : forall s va, P s -> P (with_var_alloc va s).
Hypothesis P_add : forall s stmt, P s -> P (appended stmt s).
Hypothesis P_inv : forall s sparse, P s -> P (invalidate sparse s).

Variable inst : IR.Inst.
Variable index : IR.Value.
Variables coords dref bias_lc lod_lc : string.
Variable offset : IR.Value.

Lemma EmitImageSampleImplicitLod_unaffected (h : Profile -> Profile) :
  unaffected P (map_environment id h)
    (EmitImageSampleImplicitLod inst index coords bias_lc offset).
Proof. unfold EmitImageSampleImplicitLod. unaffected_emitter. Qed.

Lemma EmitImageSampleDrefExplicitLod_unaffected (g : Stage -> Stage) (h : Profile -> Profile) :
  (forall p, NeedsShadowLodExt (IR.type (IR.Flags inst)) = true -> h p = p) ->
  unaffected P (map_environment g h)
    (EmitImageSampleDrefExplicitLod inst index coords dref lod_lc offset).
Proof.
  intros Hh. unfold EmitImageSampleDrefExplicitLod. cbv zeta.
  destruct (NeedsShadowLodExt (IR.type (IR.Flags inst))) eqn:Hneeds.
  - repeat unaffected_step. all: cbn. all: rewrite ?Hh by done. all: try reflexivity.
  - repeat unaffected_step. all: cbn. all: rewrite ?andb_false_r. all: try reflexivity.
Qed.

Lemma EmitImageSampleDrefImplicitLod_unaffected (h : Profile -> Profile) :
  NeedsShadowLodExt (IR.type (IR.Flags inst)) = false
  \/ (forall s, P s -> is_fragment (stage (ctx s)) = true) ->
  unaffected P (map_environment id h)
    (EmitImageSampleDrefImplicitLod inst index coords dref bias_lc offset).
Proof.
  intros Hside. unfold EmitImageSampleDrefImplicitLod. cbv zeta.
  destruct Hside as [Hneeds|Hfragment].
  - rewrite Hneeds. repeat unaffected_step.
    all: cbn. all: rewrite ?andb_false_r. all: try reflexivity.
  - repeat unaffected_step.
    all: cbn. all: rewrite ?(Hfragment _ ltac:(eassumption)). all: cbn [negb].
    all: rewrite ?andb_false_r. all: try reflexivity.
Qed.

Variable offset2 : IR.Value.
Variable derivatives lod_clamp : IR.Value.
Variables text_offset lod ms color : string.
Variable g : Stage -> Stage.
Variable h : Profile -> Profile.

Lemma EmitImageSampleExplicitLod_unaffected :
  unaffected P (map_environment g h)
    (EmitImageSampleExplicitLod inst index coords lod_lc offset).
Proof. unfold EmitImageSampleExplicitLod. unaffected_emitter. Qed.

Lemma EmitImageGather_unaffected :
  unaffected P (map_environment g h) (EmitImageGather inst index coords offset offset2).
Proof. unfold EmitImageGather. unaffected_emitter. Qed.

Lemma EmitImageGatherDref_unaffected :
  unaffected P (map_environment g h)
    (EmitImageGatherDref inst index coords offset offset2 dref).
Proof. unfold EmitImageGatherDref. unaffected_emitter. Qed.

Lemma EmitImageFetch_unaffected :
  unaffected P (map_environment g h) (EmitImageFetch inst index coords text_offset lod ms).
Proof. unfold EmitImageFetch. unaffected_emitter. Qed.

Lemma EmitImageQueryDimensions_unaffected :
  unaffected P (map_environment g h) (EmitImageQueryDimensions inst index lod).
Proof. unfold EmitImageQueryDimensions. unaffected_emitter. Qed.

Lemma EmitImageQueryLod_unaffected :
  unaffected P (map_environment g h) (EmitImageQueryLod inst index coords).
Proof. unfold EmitImageQueryLod. unaffected_emitter. Qed.

Lemma EmitImageGradient_unaffected :
  unaffected P (map_environment g h)
    (EmitImageGradient inst index coords derivatives offset lod_clamp).
Proof. unfold EmitImageGradient. unaffected_emitter. Qed.

Lemma EmitImageRead_unaffected :
  unaffected P (map_environment g h) (EmitImageRead inst index coords).
Proof. unfold EmitImageRead. unaffected_emitter. Qed.

Lemma EmitImageWrite_unaffected :
  unaffected P (map_environment g h) (EmitImageWrite inst index coords color).
Proof. unfold EmitImageWrite. unaffected_emitter. Qed.

End Readers.

Section ReadersOfEnvironment.

Context {VA : Type} `{!VarAllocOps VA}.

(** X9: the stage and the profile are read by the samples only. Nine
    emitters lower an instruction the same whatever the stage and the
    profile are; the implicit-LOD sample reads the stage but not the
    profile; the explicit-LOD depth-compare sample reads the profile
    but not the stage, and the profile only for the dimensionalities
    that need the shadow-LOD extension; the implicit-LOD depth-compare
    sample reads the profile only for these dimensionalities and only
    outside the fragment stage. *)
Theorem stage_and_profile_readers (inst : IR.Inst) (index : IR.Value)
    (coords bias_lc lod_lc dref text_offset lod ms color : string)
    (offset offset2 derivatives lod_clamp : IR.Value)
    (g : Stage -> Stage) (h : Profile -> Profile) :
  (unaffected (VA := VA) anywhere (map_environment g h)
     (EmitImageSampleExplicitLod inst index coords lod_lc offset)
   /\ unaffected (VA := VA) anywhere (map_environment g h)
        (EmitImageGather inst index coords offset offset2)
   /\ unaffected (VA := VA) anywhere (map_environment g h)
        (EmitImageGatherDref inst index coords offset offset2 dref)
   /\ unaffected (VA := VA) anywhere (map_environment g h)
        (EmitImageFetch inst index coords text_offset lod ms)
   /\ unaffected (VA := VA) anywhere (map_environment g h)
        (EmitImageQueryDimensions inst index lod)
   /\ unaffected (VA := VA) anywhere (map_environment g h)
        (EmitImageQueryLod inst index coords)
   /\ unaffected (VA := VA) anywhere (map_environment g h)
        (EmitImageGradient inst index coords derivatives offset lod_clamp)
   /\ unaffected (VA := VA) anywhere (map_environment g h)
        (EmitImageRead inst index coords)
   /\ unaffected (VA := VA) anywhere (map_environment g h)
        (EmitImageWrite inst index coords color))
  /\ unaffected (VA := VA) anywhere (map_environment id h)
       (EmitImageSampleImplicitLod inst index coords bias_lc offset)
  /\ unaffected (VA := VA) anywhere (map_environment g id)
       (EmitImageSampleDrefExplicitLod inst index coords dref lod_lc offset)
  /\ (NeedsShadowLodExt (IR.type (IR.Flags inst)) = false ->
      unaffected (VA := VA) anywhere (map_environment g h)
        (EmitImageSampleDrefExplicitLod inst index coords dref lod_lc offset)
      /\ unaffected (VA := VA) anywhere (map_environment id h)
           (EmitImageSampleDrefImplicitLod inst index coords dref bias_lc offset))
  /\ unaffected (VA := VA) in_fragment_stage (map_environment id h)
       (EmitImageSampleDrefImplicitLod inst index coords dref bias_lc offset).
Proof.
  split; [|split; [|split; [|split]]].
  - split; [|split; [|split; [|split; [|split; [|split; [|split; [|split]]]]]]].
    + by apply EmitImageSampleExplicitLod_unaffected.
    + by apply EmitImageGather_unaffected.
    + by apply EmitImageGatherDref_unaffected.
    + by apply EmitImageFetch_unaffected.
    + by apply EmitImageQueryDimensions_unaffected.
    + by apply EmitImageQueryLod_unaffected.
    + by apply EmitImageGradient_unaffected.
    + by apply EmitImageRead_unaffected.
    + by apply EmitImageWrite_unaffected.
  - by apply EmitImageSampleImplicitLod_unaffected.
  - by apply EmitImageSampleDrefExplicitLod_unaffected.
  - intros Hneeds. split.
    + apply EmitImageSampleDrefExplicitLod_unaffected; try done.
      intros p. by rewrite Hneeds.
    + apply EmitImageSampleDrefImplicitLod_unaffected; try done. by left.
  - apply EmitImageSampleDrefImplicitLod_unaffected; try done. by right.
Qed.

End ReadersOfEnvironment.

Lemma stage_and_profile_readers_witness :
  EmitImageSampleDrefExplicitLod (texture_inst IR.Color2D) IR.VVoid "c" "d" "l" IR.VVoid
    (map_environment (fun _ => Fragment) (fun _ => MkProfile true) sample_state)
  = ((EmitImageSampleDrefExplicitLod (texture_inst IR.Color2D) IR.VVoid "c" "d" "l" IR.VVoid
        sample_state).1,
     map_environment (fun _ => Fragment) (fun _ => MkProfile true)
       (EmitImageSampleDrefExplicitLod (texture_inst IR.Color2D) IR.VVoid "c" "d" "l" IR.VVoid
          sample_state).2).
Proof.
  destruct (stage_and_profile_readers (VA := SimpleAlloc) (texture_inst IR.Color2D) IR.VVoid
              "c" "b" "l" "d" "o" "l" "m" "v" IR.VVoid IR.VVoid IR.VVoid IR.VVoid
              (fun _ => Fragment) (fun _ => MkProfile true))
    as (_ & _ & _ & Hplain & _).
  destruct (Hplain eq_refl) as [Hexplicit _].
  exact (proj1 (Hexplicit sample_state Logic.I)).
Defined.

(** ** Operands that are never read *)

Section UnusedOperands.

Context {VA : Type} `{!VarAllocOps VA}.

(** X10: operands the emitters take and never read. The [index]
    operand has no effect on any of the twelve emitters (the resource
    is chosen by the descriptor index of the flags alone); nor has the
    multisample operand of the texel fetch, nor the LOD clamp operand
    of the gradient sample, nor the bias operand of the implicit-LOD
    depth-compare sample; the second offset of a gather has none when
    the first one is empty. *)
Theorem operands_never_read (inst : IR.Inst) (index index' : IR.Value)
    (coords bias_lc bias_lc' lod_lc dref text_offset lod ms ms' color : string)
    (offset offset2 offset2' derivatives lod_clamp lod_clamp' : IR.Value) (s : State VA) :
  (EmitImageSampleImplicitLod inst index coords bias_lc offset s
   = EmitImageSampleImplicitLod inst index' coords bias_lc offset s
   /\ EmitImageSampleExplicitLod inst index coords lod_lc offset s
      = EmitImageSampleExplicitLod inst index' coords lod_lc offset s
   /\ EmitImageSampleDrefImplicitLod inst index coords dref bias_lc offset s
      = EmitImageSampleDrefImplicitLod inst index' coords dref bias_lc offset s
   /\ EmitImageSampleDrefExplicitLod inst index coords dref lod_lc offset s
      = EmitImageSampleDrefExplicitLod inst index' coords dref lod_lc offset s
   /\ EmitImageGather inst index coords offset offset2 s
      = EmitImageGather inst index' coords offset offset2 s
   /\ EmitImageGatherDref inst index coords offset offset2 dref s
      = EmitImageGatherDref inst index' coords offset offset2 dref s
   /\ EmitImageFetch inst index coords text_offset lod ms s
      = EmitImageFetch inst index' coords text_offset lod ms s
   /\ EmitImageQueryDimensions inst index lod s = EmitImageQueryDimensions inst index' lod s
   /\ EmitImageQueryLod inst index coords s = EmitImageQueryLod inst index' coords s
   /\ EmitImageGradient inst index coords derivatives offset lod_clamp s
      = EmitImageGradient inst index' coords derivatives offset lod_clamp s
   /\ EmitImageRead inst index coords s = EmitImageRead inst index' coords s
   /\ EmitImageWrite inst index coords color s = EmitImageWrite inst index' coords color s)
  /\ EmitImageFetch inst index coords text_offset lod ms s
     = EmitImageFetch inst index coords text_offset lod ms' s
  /\ EmitImageGradient inst index coords derivatives offset lod_clamp s
     = EmitImageGradient inst index coords derivatives offset lod_clamp' s
  /\ EmitImageSampleDrefImplicitLod inst index coords dref bias_lc offset s
     = EmitImageSampleDrefImplicitLod inst index coords dref bias_lc' offset s
  /\ (IR.IsEmpty offset = true ->
      EmitImageGather inst index coords offset offset2 s
      = EmitImageGather inst index coords offset offset2' s
      /\ EmitImageGatherDref inst index coords offset offset2 dref s
         = EmitImageGatherDref inst index coords offset offset2' dref s).
Proof.
  split; [by repeat split|]. split; [done|]. split; [done|]. split.
  - unfold EmitImageSampleDrefImplicitLod. by destruct (IR.has_bias (IR.Flags inst)).
  - intros Hempty. unfold EmitImageGather, EmitImageGatherDref. by rewrite Hempty.
Qed.

End UnusedOperands.

Lemma operands_never_read_witness :
  EmitImageGather (texture_inst IR.Color2D) IR.VVoid "c" IR.VVoid (IR.ImmU32 1) sample_state
  = EmitImageGather (texture_inst IR.Color2D) IR.VVoid "c" IR.VVoid (IR.VOpaque ptp_A)
      sample_state.
Proof.
  exact (proj1 (proj2 (proj2 (proj2 (proj2
           (operands_never_read (texture_inst IR.Color2D) IR.VVoid IR.VVoid
              "c" "b" "b" "l" "d" "o" "l" "m" "m" "v"
              IR.VVoid (IR.ImmU32 1) (IR.VOpaque ptp_A) IR.VVoid IR.VVoid IR.VVoid
              sample_state)))) eq_refl)).
Defined.

(** ** Running an emitter step by step *)

Section WeakestPrecondition.

Context {VA : Type} `{!VarAllocOps VA}.

Lemma wp_bind {A B : Type} (m : Emit VA A) (k : A -> Emit VA B)
    (post : Result B -> State VA -> Prop) (s : State VA) :
  wp m (fun r s' => match r with
                    | Ok a => wp (k a) post s'
                    | Throw e => post (Throw e) s'
                    end) s ->
  wp (bind m k) post s.
Proof. unfold wp, bind. by destruct (m s) as [[a|e] s']. Qed.

Lemma wp_throw {A : Type} (e : Exception) (post : Result A -> State VA -> Prop)
    (s : State VA) :
  post (Throw e) s -> wp (throw e) post s.
Proof. done. Qed.

Lemma wp_lift {A : Type} (r : Result A) (post : Result A -> State VA -> Prop)
    (s : State VA) :
  post r s -> wp (lift r) post s.
Proof. done. Qed.

Lemma wp_gets {A : Type} (proj : EmitContext VA -> A) (post : Result A -> State VA -> Prop)
    (s : State VA) :
  post (Ok (proj (ctx s))) s -> wp (gets proj) post s.
Proof. done. Qed.

Lemma wp_Texture (info : IR.TextureInstInfo) (index : IR.Value)
    (post : Result string -> State VA -> Prop) (s : State VA) :
  post (Texture (ctx s) info index) s ->
  wp (bind (gets id) (fun c => lift (Texture c info index))) post s.
Proof. done. Qed.

Lemma wp_Image (info : IR.TextureInstInfo) (index : IR.Value)
    (post : Result string -> State VA -> Prop) (s : State VA) :
  post (Image (ctx s) info index) s ->
  wp (bind (gets id) (fun c => lift (Image c info index))) post s.
Proof. done. Qed.

Lemma wp_Define (inst : IR.InstId) (ty : GlslVarType)
    (post : Result string -> State VA -> Prop) (s : State VA) :
  post (Ok (Define (var_alloc (ctx s)) inst ty).1)
       (with_var_alloc (Define (var_alloc (ctx s)) inst ty).2 s) ->
  wp (var_alloc_Define inst ty) post s.
Proof. done. Qed.

Lemma wp_Consume (value : IR.Value) (post : Result string -> State VA -> Prop)
    (s : State VA) :
  post (Ok (Consume (var_alloc (ctx s)) value).1)
       (with_var_alloc (Consume (var_alloc (ctx s)) value).2 s) ->
  wp (var_alloc_Consume value) post s.
Proof. done. Qed.

Lemma wp_Add (stmt : string) (post : Result unit -> State VA -> Prop) (s : State VA) :
  post (Ok tt) (appended stmt s) -> wp (Add stmt) post s.
Proof. done. Qed.

Lemma wp_AddTyped (ty : GlslVarType) (inst : IR.InstId) (rest : string)
    (post : Result unit -> State VA -> Prop) (s : State VA) :
  post (Ok tt) (appended ((Define (var_alloc (ctx s)) inst ty).1 +:+ rest)
                  (with_var_alloc (Define (var_alloc (ctx s)) inst ty).2 s)) ->
  wp (AddTyped ty inst rest) post s.
Proof. done. Qed.

Lemma wp_PrepareSparse (inst : IR.Inst)
    (post : Result (option IR.InstId) -> State VA -> Prop) (s : State VA) :
  match IR.GetAssociatedSparse inst with
  | Some sparse => post (Ok (Some sparse)) (invalidate sparse s)
  | None => post (Ok None) s
  end ->
  wp (PrepareSparse inst) post s.
Proof. unfold wp, PrepareSparse. by destruct (IR.GetAssociatedSparse inst). Qed.

(** The offset is folded, or refused by an accessor of the IR,
    without a call; or it is consumed. *)
Lemma wp_GetOffsetVec (offset : IR.Value) (post : Result string -> State VA -> Prop)
    (s : State VA) :
  (forall r, (forall e, r = Throw e -> exists what, e = AssertionFailure what) -> post r s) ->
  post (Ok (Consume (var_alloc (ctx s)) offset).1)
       (with_var_alloc (Consume (var_alloc (ctx s)) offset).2 s) ->
  wp (GetOffsetVec offset) post s.
Proof.
  intros Hpure Hconsume. unfold wp, GetOffsetVec.
  destruct (IR.IsImmediate offset).
  - apply Hpure. unfold lift. simpl.
    destruct (IR.U32 offset) as [v|e0] eqn:Hv; simpl; [done|].
    intros e [= <-]. by eapply U32_throws.
  - unfold bind, lift. destruct (IR.InstRecursive offset) as [inst|e0] eqn:Hinst.
    + destruct (IR.AreAllArgsImmediates inst); [|exact Hconsume].
      destruct (literal_offset inst) as [r|] eqn:Hliteral; [|exact Hconsume].
      apply Hpure. intros e He. by eapply literal_offset_throws.
    + apply Hpure. intros e [= <-]. by eapply InstRecursive_throws.
Qed.

Lemma wp_PtpOffsets (offset offset2 : IR.Value) (post : Result string -> State VA -> Prop)
    (s : State VA) :
  (forall r, (forall e, r = Throw e ->
                e = LogicError "Invalid PTP arguments"
                \/ exists what, e = AssertionFailure what) -> post r s) ->
  wp (lift (PtpOffsets offset offset2)) post s.
Proof. intros Hpost. apply Hpost. intros e. apply PtpOffsets_throws. Qed.

End WeakestPrecondition.

Ltac wp_call :=
  lazymatch goal with
  | |- wp (bind (gets id) (fun c => lift (Texture c _ _))) _ _ =>
      apply wp_Texture; destruct (Texture _ _ _) eqn:?
  | |- wp (bind (gets id) (fun c => lift (Image c _ _))) _ _ =>
      apply wp_Image; destruct (Image _ _ _) eqn:?
  | |- wp (gets _) _ _ => apply wp_gets
  | |- wp (var_alloc_Define _ _) _ _ => apply wp_Define
  | |- wp (var_alloc_Consume _) _ _ => apply wp_Consume
  | |- wp (PrepareSparse ?i) _ _ =>
      apply wp_PrepareSparse; destruct (IR.GetAssociatedSparse i) eqn:?
  | |- wp (GetOffsetVec _) _ _ => apply wp_GetOffsetVec; [intros [?|?] ?|]
  | |- wp (lift (PtpOffsets _ _)) _ _ => apply wp_PtpOffsets; intros [?|?] ?
  | |- wp (lift ?r) _ _ => apply wp_lift; destruct r eqn:?
  end.

Ltac wp_step :=
  lazymatch goal with
  | |- wp (bind _ _) _ _ => apply wp_bind; wp_call; cbv beta iota
  | |- wp (throw _) _ _ => apply wp_throw
  | |- wp (Add _) _ _ => apply wp_Add
  | |- wp (AddU1 _ _) _ _ => apply wp_AddTyped
  | |- wp (AddF32 _ _) _ _ => apply wp_AddTyped
  | |- wp (AddU32x4 _ _) _ _ => apply wp_AddTyped
  | |- wp (AddF32x4 _ _) _ _ => apply wp_AddTyped
  | |- wp (if ?c then _ else _) _ _ => destruct c eqn:?
  | |- wp (match ?x with _ => _ end) _ _ => destruct x eqn:?
  end.

Ltac wp_emitter := cbv zeta; repeat wp_step.

(** ** The allocator calls of a lowering *)

Section Recorded.

Context {VA : Type} `{!VarAllocOps VA}.

Lemma wp_records (m : Emit (Recording VA) unit) (P : list AllocCall -> Prop) :
  (forall s, wp m (recorded_since s P) s) -> records m P.
Proof. intros Hm s. apply Hm. Qed.

Lemma with_residency_None (inst : IR.Inst) (ty : GlslVarType) :
  IR.GetAssociatedSparse inst = None -> with_residency inst ty = [(IR.GetId inst, ty)].
Proof. unfold with_residency. by intros ->. Qed.

Lemma with_residency_Some (inst : IR.Inst) (ty : GlslVarType) (sparse : IR.InstId) :
  IR.GetAssociatedSparse inst = Some sparse ->
  with_residency inst ty = [(IR.GetId inst, ty); (sparse, U1)].
Proof. unfold with_residency. by intros ->. Qed.

Ltac recorded_calls :=
  lazymatch goal with
  | |- recorded_since _ _ (Throw _) _ => by intros [=]
  | |- recorded_since _ _ (Ok tt) _ =>
      intros _; eexists; split;
      [ cbn [calls var_alloc ctx appended with_var_alloc invalidate set_ctx set_var_alloc
               set_code Define Consume RecordingOps fst snd];
        rewrite <-?(assoc_L (++)); first [ reflexivity | symmetry; apply app_nil_r ]
      | cbn [app defines consumes omap list_omap];
        erewrite ?with_residency_None, ?with_residency_Some by eassumption;
        unfold at_most; auto ]
  end.

Ltac records_emitter := apply wp_records; intros s; wp_emitter; recorded_calls.

(** X11: the allocator calls of a lowering that returns. Each emitter
    but the image store defines the result variable of the instruction
    once, with a type that depends on the emitter only: a 4-wide float
    for the color samples, the gathers, the fetch, the LOD query and the
    gradient sample, a scalar float for the depth-compare samples, a
    4-wide unsigned for the dimension query and the image load. The
    five emitters with a sparse variant define, after it, the residency
    flag of the sparse pseudo-instruction, and nothing else is defined.
    The only operand consumed is the offset, at most once, and the
    derivatives of the gradient sample, once; the image store makes no
    call. *)
Theorem allocator_calls (inst : IR.Inst) (index : IR.Value)
    (coords bias_lc lod_lc dref text_offset lod ms color : string)
    (offset offset2 derivatives lod_clamp : IR.Value) :
  records (VA := VA) (EmitImageSampleImplicitLod inst index coords bias_lc offset)
    (fun l => defines l = with_residency inst F32x4 /\ at_most offset (consumes l))
  /\ records (VA := VA) (EmitImageSampleExplicitLod inst index coords lod_lc offset)
       (fun l => defines l = with_residency inst F32x4 /\ at_most offset (consumes l))
  /\ records (VA := VA) (EmitImageGather inst index coords offset offset2)
       (fun l => defines l = with_residency inst F32x4 /\ at_most offset (consumes l))
  /\ records (VA := VA) (EmitImageGatherDref inst index coords offset offset2 dref)
       (fun l => defines l = with_residency inst F32x4 /\ at_most offset (consumes l))
  /\ records (VA := VA) (EmitImageFetch inst index coords text_offset lod ms)
       (fun l => defines l = with_residency inst F32x4 /\ consumes l = [])
  /\ records (VA := VA) (EmitImageSampleDrefImplicitLod inst index coords dref bias_lc offset)
       (fun l => defines l = [(IR.GetId inst, F32)] /\ at_most offset (consumes l))
  /\ records (VA := VA) (EmitImageSampleDrefExplicitLod inst index coords dref lod_lc offset)
       (fun l => defines l = [(IR.GetId inst, F32)] /\ at_most offset (consumes l))
  /\ records (VA := VA) (EmitImageQueryDimensions inst index lod)
       (fun l => l = [CallDefine (IR.GetId inst) U32x4])
  /\ records (VA := VA) (EmitImageQueryLod inst index coords)
       (fun l => l = [CallDefine (IR.GetId inst) F32x4])
  /\ records (VA := VA) (EmitImageGradient inst index coords derivatives offset lod_clamp)
       (fun l => l = [CallDefine (IR.GetId inst) F32x4; CallConsume derivatives])
  /\ records (VA := VA) (EmitImageRead inst index coords)
       (fun l => l = [CallDefine (IR.GetId inst) U32x4])
  /\ records (VA := VA) (EmitImageWrite inst index coords color) (fun l => l = []).
Proof.
  split; [|split; [|split; [|split; [|split; [|split; [|split; [|split; [|split;
    [|split; [|split]]]]]]]]]].
  - unfold EmitImageSampleImplicitLod. records_emitter.
  - unfold EmitImageSampleExplicitLod. records_emitter.
  - unfold EmitImageGather. records_emitter.
  - unfold EmitImageGatherDref. records_emitter.
  - unfold EmitImageFetch. records_emitter.
  - unfold EmitImageSampleDrefImplicitLod. records_emitter.
  - unfold EmitImageSampleDrefExplicitLod. records_emitter.
  - unfold EmitImageQueryDimensions. records_emitter.
  - unfold EmitImageQueryLod. records_emitter.
  - unfold EmitImageGradient. records_emitter.
  - unfold EmitImageRead. records_emitter.
  - unfold EmitImageWrite. records_emitter.
Qed.

End Recorded.

(** ** When a lowering returns *)

Section Lookups.

Context {VA : Type} `{!VarAllocOps VA}.

Lemma Texture_bound (c : EmitContext VA) (info : IR.TextureInstInfo) (index : IR.Value) :
  match Texture c info index with
  | Ok _ => bound c false info
  | Throw _ => ~ bound c false info
  end.
Proof.
  unfold bound, binding_table, Texture, at_.
  case_decide as Hb;
    [rewrite (bool_decide_eq_true_2 _ Hb) | rewrite (bool_decide_eq_false_2 _ Hb)];
    (destruct (_ !! IR.descriptor_index info) as [slot|]; simpl;
     [by eexists | by intros [? [=]]]).
Qed.

Lemma Image_bound (c : EmitContext VA) (info : IR.TextureInstInfo) (index : IR.Value) :
  match Image c info index with
  | Ok _ => bound c true info
  | Throw _ => ~ bound c true info
  end.
Proof.
  unfold bound, binding_table, Image, at_.
  case_decide as Hb;
    [rewrite (bool_decide_eq_true_2 _ Hb) | rewrite (bool_decide_eq_false_2 _ Hb)];
    (destruct (_ !! IR.descriptor_index info) as [slot|]; simpl;
     [by eexists | by intros [? [=]]]).
Qed.

Lemma TexelFetchCastToInt_width (value : string) (info : IR.TextureInstInfo) :
  match TexelFetchCastToInt value info with
  | Ok _ => is_Some (coordinate_cast_width (IR.type info))
  | Throw _ => ~ is_Some (coordinate_cast_width (IR.type info))
  end.
Proof.
  unfold TexelFetchCastToInt, coordinate_cast_width.
  destruct (IR.type info); simpl; first [by eexists | by intros [? [=]]].
Qed.

Lemma CastToIntVec_width (value : string) (info : IR.TextureInstInfo) :
  match CastToIntVec value info with
  | Ok _ => is_Some (coordinate_cast_width (IR.type info))
  | Throw _ => ~ is_Some (coordinate_cast_width (IR.type info))
  end.
Proof.
  unfold CastToIntVec, coordinate_cast_width.
  destruct (IR.type info); simpl; first [by eexists | by intros [? [=]]].
Qed.

Lemma wp_result {A : Type} (m : Emit VA A) (P : Result A -> Prop) (s : State VA) :
  wp m (fun r _ => P r) s -> P (m s).1.
Proof. done. Qed.

End Lookups.

Ltac decided :=
  repeat match goal with
         | H : Texture ?c ?i ?x = _ |- _ =>
             let Hb := fresh "Hbound" in
             pose proof (Texture_bound c i x) as Hb; rewrite H in Hb; clear H
         | H : Image ?c ?i ?x = _ |- _ =>
             let Hb := fresh "Hbound" in
             pose proof (Image_bound c i x) as Hb; rewrite H in Hb; clear H
         | H : TexelFetchCastToInt ?v ?i = _ |- _ =>
             let Hw := fresh "Hwidth" in
             pose proof (TexelFetchCastToInt_width v i) as Hw; rewrite H in Hw; clear H
         | H : CastToIntVec ?v ?i = _ |- _ =>
             let Hw := fresh "Hwidth" in
             pose proof (CastToIntVec_width v i) as Hw; rewrite H in Hw; clear H
         | H : bool_decide _ = true |- _ => apply bool_decide_eq_true in H
         | H : bool_decide _ = false |- _ => apply bool_decide_eq_false in H
         | H : negb _ = true |- _ => apply negb_true_iff in H
         | H : negb _ = false |- _ => apply negb_false_iff in H
         end.

Ltac settle_iff :=
  split;
  [ first [ by intros [=]
          | intros _; repeat split; first [ assumption | congruence | by eexists ] ]
  | first [ done
          | intros ?; destruct_and?; exfalso;
            first [ congruence | contradiction | by eapply is_Some_None ] ] ].

Ltac settle :=
  lazymatch goal with
  | H : ~ Some _ <> None |- _ => by destruct H
  | H : IR.type _ = _ |- _ => unfold query_size_width; try rewrite H; settle_iff
  | |- _ => settle_iff
  end.

Ltac returns_iff := apply wp_result; wp_emitter; decided; settle.

Section Success.

Context {VA : Type} `{!VarAllocOps VA}.

(** X12: when the emitters without an offset operand to fold return.
    The LOD query returns exactly when the texture is bound; the
    dimension query when it is bound and not a buffer (nor outside the
    enumeration); the image store when the image is bound and the
    dimensionality has a coordinate cast; the image load when, moreover,
    no sparse pseudo-instruction is attached; the gradient sample when
    there is no LOD clamp, no sparse pseudo-instruction and no offset,
    and the texture is bound; the texel fetch when there is no bias and
    no LOD clamp, the texture is bound and the dimensionality has a
    coordinate cast. *)
Theorem lowering_returns_iff (inst : IR.Inst) (index : IR.Value)
    (coords text_offset lod ms color : string)
    (derivatives offset lod_clamp : IR.Value) (s : State VA) :
  ((EmitImageQueryLod inst index coords s).1 = Ok tt
   <-> bound (ctx s) false (IR.Flags inst))
  /\ ((EmitImageQueryDimensions inst index lod s).1 = Ok tt
      <-> bound (ctx s) false (IR.Flags inst)
          /\ is_Some (query_size_width (IR.type (IR.Flags inst))))
  /\ ((EmitImageWrite inst index coords color s).1 = Ok tt
      <-> bound (ctx s) true (IR.Flags inst)
          /\ is_Some (coordinate_cast_width (IR.type (IR.Flags inst))))
  /\ ((EmitImageRead inst index coords s).1 = Ok tt
      <-> IR.GetAssociatedSparse inst = None
          /\ bound (ctx s) true (IR.Flags inst)
          /\ is_Some (coordinate_cast_width (IR.type (IR.Flags inst))))
  /\ ((EmitImageGradient inst index coords derivatives offset lod_clamp s).1 = Ok tt
      <-> IR.has_lod_clamp (IR.Flags inst) = false
          /\ IR.GetAssociatedSparse inst = None
          /\ IR.IsEmpty offset = true
          /\ bound (ctx s) false (IR.Flags inst))
  /\ ((EmitImageFetch inst index coords text_offset lod ms s).1 = Ok tt
      <-> IR.has_bias (IR.Flags inst) = false
          /\ IR.has_lod_clamp (IR.Flags inst) = false
          /\ bound (ctx s) false (IR.Flags inst)
          /\ is_Some (coordinate_cast_width (IR.type (IR.Flags inst)))).
Proof.
  split; [|split; [|split; [|split; [|split]]]].
  - unfold EmitImageQueryLod. returns_iff.
  - unfold EmitImageQueryDimensions. returns_iff.
  - unfold EmitImageWrite. returns_iff.
  - unfold EmitImageRead. returns_iff.
  - unfold EmitImageGradient. returns_iff.
  - unfold EmitImageFetch. returns_iff.
Qed.

End Success.

(** ** The out-of-range exception *)

Section OutOfRange.

Context {VA : Type} `{!VarAllocOps VA}.






End OutOfRange.

(** ** The gathers and their offsets *)

Ltac unfold_calls := unfold call; simpl; normalize_strings.

Section Gathers.

Context {VA : Type} `{!VarAllocOps VA}.

(** X13: how the gathers without a sparse pseudo-instruction use their
    offsets. With no offset they call [textureGather]; with one offset,
    [textureGatherOffset] on the text [GetOffsetVec] gives for it; with
    two, [textureGatherOffsets] on the array [PtpOffsets] gives for the
    pair. The color gather passes the offsets before the component,
    the depth-compare gather passes them after the reference value.
    When the offset cannot be read, or the pair is refused, the gather
    throws the same exception and appends nothing. *)
Theorem gather_offset_selection (inst : IR.Inst) (index : IR.Value)
    (coords dref texture : string) (offset offset2 : IR.Value) (s : State VA) :
  IR.GetAssociatedSparse inst = None ->
  Texture (ctx s) (IR.Flags inst) index = Ok texture ->
  let texel := (Define (var_alloc (ctx s)) (IR.GetId inst) F32x4).1 in
  let s1 := defined F32x4 (IR.GetId inst) s in
  let component := "int(" +:+ pretty (IR.gather_component (IR.Flags inst)) +:+ ")" in
  (IR.IsEmpty offset = true ->
   EmitImageGather inst index coords offset offset2 s
   = (Ok tt, appended (texel +:+ "=" +:+ call "textureGather" [texture; coords; component]
                       +:+ ";") s1)
   /\ EmitImageGatherDref inst index coords offset offset2 dref s
      = (Ok tt, appended (texel +:+ "=" +:+ call "textureGather" [texture; coords; dref]
                          +:+ ";") s1))
  /\ (IR.IsEmpty offset = false -> IR.IsEmpty offset2 = true ->
      EmitImageGather inst index coords offset offset2 s
      = match GetOffsetVec offset s1 with
        | (Ok text, s') =>
            (Ok tt, appended (texel +:+ "="
                              +:+ call "textureGatherOffset" [texture; coords; text; component]
                              +:+ ";") s')
        | (Throw e, s') => (Throw e, s')
        end
      /\ EmitImageGatherDref inst index coords offset offset2 dref s
         = match GetOffsetVec offset s1 with
           | (Ok text, s') =>
               (Ok tt, appended (texel +:+ "="
                                 +:+ call "textureGatherOffset" [texture; coords; dref; text]
                                 +:+ ";") s')
           | (Throw e, s') => (Throw e, s')
           end)
  /\ (IR.IsEmpty offset = false -> IR.IsEmpty offset2 = false ->
      EmitImageGather inst index coords offset offset2 s
      = match PtpOffsets offset offset2 with
        | Ok text =>
            (Ok tt, appended (texel +:+ "="
                              +:+ call "textureGatherOffsets" [texture; coords; text; component]
                              +:+ ";") s1)
        | Throw e => (Throw e, s1)
        end
      /\ EmitImageGatherDref inst index coords offset offset2 dref s
         = match PtpOffsets offset offset2 with
           | Ok text =>
               (Ok tt, appended (texel +:+ "="
                                 +:+ call "textureGatherOffsets" [texture; coords; dref; text]
                                 +:+ ";") s1)
           | Throw e => (Throw e, s1)
           end).
Proof.
  intros Hsparse Htex texel s1 component. subst texel s1 component.
  unfold EmitImageGather, EmitImageGatherDref. run_emitter. rewrite Htex, Hsparse. simpl.
  split; [|split].
  - intros ->. unfold_calls. by destruct s.
  - intros -> ->. simpl.
    destruct (GetOffsetVec offset _) as [[text|e] s']; simpl; [|done].
    unfold_calls. done.
  - intros -> ->. simpl.
    destruct (PtpOffsets offset offset2) as [text|e]; simpl; [|done].
    unfold_calls. by destruct s.
Qed.

End Gathers.

Lemma gather_offset_selection_witness :
  EmitImageGather (texture_inst IR.Color2D) IR.VVoid "c" (IR.VOpaque ptp_A) (IR.VOpaque ptp_B)
    sample_state
  = (Ok tt,
     appended
       "f4_0=textureGatherOffsets(tex7,c,ivec2[](ivec2(1,2),ivec2(3,4),ivec2(5,6),ivec2(7,8)),int(0));"
       (defined F32x4 10%N sample_state)).
Proof.
  exact (proj1 (proj2 (proj2 (gather_offset_selection (texture_inst IR.Color2D) IR.VVoid
                                "c" "d" "tex7" (IR.VOpaque ptp_A) (IR.VOpaque ptp_B)
                                sample_state eq_refl eq_refl)) eq_refl eq_refl)).
Defined.

(** ** The gradient sample *)

Section Gradient.

Context {VA : Type} `{!VarAllocOps VA}.

(** X14: the gradient sample that passes its checks (no LOD clamp, no
    sparse pseudo-instruction, no offset, the texture bound) defines
    the result variable, then consumes the derivatives, and calls
    [textureGrad] on the two halves of the derivatives: as 2-wide
    vectors [.xz] and [.yz] when the instruction has more than one
    derivative, as the scalars [.x] and [.y] otherwise. The number of
    derivatives alone selects the form. *)
Theorem gradient_lowering (inst : IR.Inst) (index : IR.Value) (coords texture : string)
    (derivatives offset lod_clamp : IR.Value) (s : State VA) :
  IR.has_lod_clamp (IR.Flags inst) = false ->
  IR.GetAssociatedSparse inst = None ->
  IR.IsEmpty offset = true ->
  Texture (ctx s) (IR.Flags inst) index = Ok texture ->
  let texel := Define (var_alloc (ctx s)) (IR.GetId inst) F32x4 in
  let consumed := Consume texel.2 derivatives in
  let halves :=
    if bool_decide (1 < IR.num_derivates (IR.Flags inst))%N
    then ["vec2(" +:+ consumed.1 +:+ ".xz)"; "vec2(" +:+ consumed.1 +:+ ".yz)"]
    else ["float(" +:+ consumed.1 +:+ ".x)"; "float(" +:+ consumed.1 +:+ ".y)"] in
  EmitImageGradient inst index coords derivatives offset lod_clamp s
  = (Ok tt, appended (texel.1 +:+ "=" +:+ call "textureGrad" ([texture; coords] ++ halves)%list
                      +:+ ";")
              (with_var_alloc consumed.2 s)).
Proof.
  intros Hclamp Hsparse Hempty Htex texel consumed halves. subst texel consumed halves.
  unfold EmitImageGradient. run_emitter.
  rewrite Hclamp, Hsparse. simpl. rewrite Hempty. simpl. rewrite Htex. simpl.
  destruct (bool_decide (1 < IR.num_derivates (IR.Flags inst))%N); simpl;
    unfold_calls; by destruct s.
Qed.

End Gradient.

Lemma gradient_lowering_witness :
  EmitImageGradient (texture_inst IR.Color2D) IR.VVoid "c" (IR.VOpaque dynamic_inst) IR.VVoid
    IR.VVoid derivative_state
  = (Ok tt,
     appended "f4_1=textureGrad(tex7,c,float(f4_0.x),float(f4_0.y));"
       (defined F32x4 10%N derivative_state)).
Proof.
  exact (gradient_lowering (texture_inst IR.Color2D) IR.VVoid "c" "tex7"
           (IR.VOpaque dynamic_inst) IR.VVoid IR.VVoid derivative_state
           eq_refl eq_refl eq_refl eq_refl).
Defined.

(** ** The texel fetch *)

Section Fetch.

Context {VA : Type} `{!VarAllocOps VA}.

Lemma TexelFetchCastToInt_int_cast (value : string) (info : IR.TextureInstInfo) (width : nat) :
  coordinate_cast_width (IR.type info) = Some width ->
  TexelFetchCastToInt value info = Ok (int_cast width value).
Proof.
  unfold coordinate_cast_width, TexelFetchCastToInt.
  destruct (IR.type info); intros [= <-]; reflexivity.
Qed.

(** X15: the texel fetch without a sparse pseudo-instruction that
    passes its checks (no bias, no LOD clamp, the texture bound, a
    dimensionality with a coordinate cast of some width). With an
    offset text it calls [texelFetchOffset], and the offset is cast to
    the same width as the coordinates; without one it calls
    [texelFetch], and for a buffer the level of detail is left out. *)
Theorem fetch_lowering (inst : IR.Inst) (index : IR.Value)
    (coords text_offset lod ms texture : string) (width : nat) (s : State VA) :
  IR.has_bias (IR.Flags inst) = false ->
  IR.has_lod_clamp (IR.Flags inst) = false ->
  IR.GetAssociatedSparse inst = None ->
  Texture (ctx s) (IR.Flags inst) index = Ok texture ->
  coordinate_cast_width (IR.type (IR.Flags inst)) = Some width ->
  let fetched (text : string) :=
    (Ok tt, appended ((Define (var_alloc (ctx s)) (IR.GetId inst) F32x4).1 +:+ "=" +:+ text
                      +:+ ";")
              (defined F32x4 (IR.GetId inst) s)) in
  (text_offset <> "" ->
   EmitImageFetch inst index coords text_offset lod ms s
   = fetched (call "texelFetchOffset"
                [texture; int_cast width coords; "int(" +:+ lod +:+ ")";
                 int_cast width text_offset]))
  /\ (text_offset = "" -> IR.type (IR.Flags inst) = IR.Buffer ->
      EmitImageFetch inst index coords text_offset lod ms s
      = fetched (call "texelFetch" [texture; "int(" +:+ coords +:+ ")"]))
  /\ (text_offset = "" -> IR.type (IR.Flags inst) <> IR.Buffer ->
      EmitImageFetch inst index coords text_offset lod ms s
      = fetched (call "texelFetch"
                   [texture; int_cast width coords; "int(" +:+ lod +:+ ")"])).
Proof.
  intros Hbias Hclamp Hsparse Htex Hwidth fetched. subst fetched.
  unfold EmitImageFetch. run_emitter.
  rewrite Hbias, Hclamp, Htex, Hsparse. simpl.
  rewrite !(TexelFetchCastToInt_int_cast _ _ _ Hwidth).
  split; [|split].
  - intros Hoffset. rewrite (bool_decide_eq_false_2 _ Hoffset). simpl.
    unfold_calls. by destruct s.
  - intros Hoffset Hbuffer.
    rewrite (bool_decide_eq_true_2 _ Hoffset), (bool_decide_eq_true_2 _ Hbuffer). simpl.
    unfold_calls. by destruct s.
  - intros Hoffset Hbuffer.
    rewrite (bool_decide_eq_true_2 _ Hoffset), (bool_decide_eq_false_2 _ Hbuffer). simpl.
    unfold_calls. by destruct s.
Qed.

End Fetch.

Lemma fetch_lowering_witness :
  EmitImageFetch (texture_inst IR.Buffer) IR.VVoid "c" "" "l" "m" buffer_state
  = (Ok tt, appended "f4_0=texelFetch(tex9,int(c));" (defined F32x4 10%N buffer_state)).
Proof.
  exact (proj1 (proj2 (fetch_lowering (texture_inst IR.Buffer) IR.VVoid "c" "" "l" "m" "tex9" 1
                         buffer_state eq_refl eq_refl eq_refl eq_refl eq_refl))
           eq_refl eq_refl).
Defined.

(** ** The depth-compare samples *)

Section DepthCompare.

Context {VA : Type} `{!VarAllocOps VA}.

(** X16: the depth-compare samples outside the gradient fallback (no
    sparse pseudo-instruction, no bias, no LOD clamp, the texture
    bound). The reference value is packed behind the coordinates, in a
    4-wide vector for the dimensionalities [NeedsShadowLodExt] selects
    and a 3-wide one otherwise; only for ArrayCube it is passed as an
    argument of its own, by the explicit-LOD sample always and by the
    implicit-LOD sample in the fragment stage without offset. The
    implicit-LOD sample calls [texture] in the fragment stage and
    [textureLod] at level 0.0 elsewhere, the explicit-LOD sample
    [textureLod] at its level; an offset adds the suffix [Offset] to
    the name and the folded offset as last argument. *)
Theorem depth_compare_lowering (inst : IR.Inst) (index : IR.Value)
    (coords dref bias_lc lod_lc texture : string) (offset : IR.Value)
    (offsets : list string) (s s' : State VA) :
  IR.GetAssociatedSparse inst = None ->
  IR.has_bias (IR.Flags inst) = false ->
  IR.has_lod_clamp (IR.Flags inst) = false ->
  Texture (ctx s) (IR.Flags inst) index = Ok texture ->
  offset_read offset s offsets s' ->
  let ty := IR.type (IR.Flags inst) in
  let packed :=
    [(if NeedsShadowLodExt ty then "vec4" else "vec3") +:+ "(" +:+ coords +:+ "," +:+ dref
     +:+ ")"] in
  let suffix := if IR.IsEmpty offset then "" else "Offset" in
  let lowered (name : string) (arguments : list string) :=
    (Ok tt, bound_statement F32 (IR.GetId inst) ("=" +:+ call name arguments +:+ ";") s') in
  (negb (support_gl_texture_shadow_lod (profile (ctx s)))
   && negb (is_fragment (stage (ctx s))) && NeedsShadowLodExt ty = false ->
   EmitImageSampleDrefImplicitLod inst index coords dref bias_lc offset s
   = if is_fragment (stage (ctx s)) then
       lowered ("texture" +:+ suffix)
         (texture
          :: (if bool_decide (ty = IR.ColorArrayCube) && IR.IsEmpty offset
              then ["vec4(" +:+ coords +:+ ")"; dref] else packed)
          ++ offsets)
     else lowered ("textureLod" +:+ suffix) (texture :: packed ++ ["0.0"] ++ offsets))
  /\ (negb (support_gl_texture_shadow_lod (profile (ctx s))) && NeedsShadowLodExt ty = false ->
      EmitImageSampleDrefExplicitLod inst index coords dref lod_lc offset s
      = lowered ("textureLod" +:+ suffix)
          (texture
           :: (if bool_decide (ty = IR.ColorArrayCube) then [coords; dref] else packed)
           ++ [lod_lc] ++ offsets)).
Proof.
  intros Hsparse Hbias Hclamp Htex Hread ty packed suffix lowered.
  subst ty packed suffix lowered. unfold offset_read in Hread.
  unfold EmitImageSampleDrefImplicitLod, EmitImageSampleDrefExplicitLod. run_emitter.
  rewrite Hsparse, Hbias, Hclamp. simpl. rewrite Htex. simpl.
  split; intros ->; simpl.
  - destruct (IR.IsEmpty offset); simpl.
    + destruct Hread as [-> ->].
      destruct (is_fragment (stage (ctx s))),
        (bool_decide (IR.type (IR.Flags inst) = IR.ColorArrayCube)); simpl;
        unfold_calls; by destruct s.
    + destruct Hread as (text & -> & ->). rewrite ?andb_false_r. simpl.
      destruct (is_fragment (stage (ctx s))); simpl; unfold_calls; reflexivity.
  - destruct (IR.IsEmpty offset); simpl.
    + destruct Hread as [-> ->].
      destruct (bool_decide (IR.type (IR.Flags inst) = IR.ColorArrayCube)); simpl;
        unfold_calls; by destruct s.
    + destruct Hread as (text & -> & ->). simpl.
      destruct (bool_decide (IR.type (IR.Flags inst) = IR.ColorArrayCube)); simpl;
        unfold_calls; reflexivity.
Qed.

End DepthCompare.

Lemma depth_compare_lowering_witness :
  EmitImageSampleDrefImplicitLod (texture_inst IR.ColorArrayCube) IR.VVoid "c" "d" "b" IR.VVoid
    fragment_state
  = (Ok tt, bound_statement F32 10%N "=texture(tex7,vec4(c),d);" fragment_state).
Proof.
  exact (proj1 (depth_compare_lowering (texture_inst IR.ColorArrayCube) IR.VVoid
                  "c" "d" "b" "l" "tex7" IR.VVoid [] fragment_state fragment_state
                  eq_refl eq_refl eq_refl eq_refl (conj eq_refl eq_refl)) eq_refl).
Defined.

(** ** The color samples *)

Section ColorSamples.

Context {VA : Type} `{!VarAllocOps VA}.

(** X18: the color samples without a sparse pseudo-instruction that
    pass their checks. Both define the result variable, then read the
    offset. In the fragment stage the implicit-LOD sample calls
    [texture] on the texture and the coordinates, followed by the
    offset, if any, and then by the bias, if the instruction has the
    bias modifier; the explicit-LOD sample calls [textureLod] on the
    texture, the coordinates and the level, followed by the offset, if
    any. An offset adds the suffix [Offset] to the name. *)
Theorem color_sample_lowering (inst : IR.Inst) (index : IR.Value)
    (coords bias_lc lod_lc texture : string) (offset : IR.Value)
    (offsets : list string) (s s' : State VA) :
  IR.GetAssociatedSparse inst = None ->
  IR.has_lod_clamp (IR.Flags inst) = false ->
  Texture (ctx s) (IR.Flags inst) index = Ok texture ->
  offset_read offset (defined F32x4 (IR.GetId inst) s) offsets s' ->
  let suffix := if IR.IsEmpty offset then "" else "Offset" in
  let biases := if IR.has_bias (IR.Flags inst) then [bias_lc] else [] in
  let lowered (name : string) (arguments : list string) :=
    (Ok tt, appended ((Define (var_alloc (ctx s)) (IR.GetId inst) F32x4).1 +:+ "="
                      +:+ call name arguments +:+ ";") s') in
  (is_fragment (stage (ctx s)) = true ->
   EmitImageSampleImplicitLod inst index coords bias_lc offset s
   = lowered ("texture" +:+ suffix) ([texture; coords] ++ offsets ++ biases)%list)
  /\ (IR.has_bias (IR.Flags inst) = false ->
      EmitImageSampleExplicitLod inst index coords lod_lc offset s
      = lowered ("textureLod" +:+ suffix) ([texture; coords; lod_lc] ++ offsets)%list).
Proof.
  intros Hsparse Hclamp Htex Hread suffix biases lowered. subst suffix biases lowered.
  unfold offset_read in Hread. revert Hread.
  unfold EmitImageSampleImplicitLod, EmitImageSampleExplicitLod. run_emitter.
  rewrite Hclamp, Htex, Hsparse. simpl. intros Hread.
  split.
  - intros Hstage. destruct (IR.IsEmpty offset); simpl.
    + destruct Hread as [-> ->]. simpl. rewrite Hstage.
      destruct (IR.has_bias (IR.Flags inst)); simpl; unfold_calls; by destruct s.
    + destruct Hread as (text & Hoffset & ->). simpl.
      destruct (GetOffsetVec_frame _ _ _ _ Hoffset) as (_ & _ & Hframe).
      rewrite Hoffset. simpl. rewrite Hframe. simpl. rewrite Hstage.
      destruct (IR.has_bias (IR.Flags inst)); simpl; unfold_calls; reflexivity.
  - intros ->. simpl. rewrite ?Hclamp, ?Htex, ?Hsparse. simpl.
    destruct (IR.IsEmpty offset); simpl.
    + destruct Hread as [-> ->]. unfold_calls. by destruct s.
    + destruct Hread as (text & Hoffset & ->). simpl. rewrite Hoffset. simpl.
      unfold_calls. reflexivity.
Qed.

End ColorSamples.

Lemma color_sample_lowering_witness :
  EmitImageSampleImplicitLod (biased_inst IR.Color2D) IR.VVoid "c" "b" (IR.ImmU32 1)
    fragment_state
  = (Ok tt, appended "f4_0=textureOffset(tex7,c,int(1),b);" (defined F32x4 10%N fragment_state)).
Proof.
  exact (proj1 (color_sample_lowering (biased_inst IR.Color2D) IR.VVoid "c" "b" "l" "tex7"
                  (IR.ImmU32 1) ["int(1)"] fragment_state (defined F32x4 10%N fragment_state)
                  eq_refl eq_refl eq_refl (ex_intro _ "int(1)" (conj eq_refl eq_refl)))
           eq_refl).
Defined.

(** ** The LOD query and the image load and store *)

Section Direct.

Context {VA : Type} `{!VarAllocOps VA}.

(** X19: the emitters of a single call. The LOD query of a bound
    texture binds the instruction to a 4-wide float assigned
    [textureQueryLod], padded with two zeros. The image load and the
    image store of a bound image address it with the coordinates cast
    as the texel fetch casts them; the load binds the instruction to a
    4-wide unsigned assigned the loaded texel, the store appends the
    call alone and defines no variable. *)
Theorem single_call_lowering (inst : IR.Inst) (index : IR.Value)
    (coords color : string) (s : State VA) :
  (forall texture, Texture (ctx s) (IR.Flags inst) index = Ok texture ->
   EmitImageQueryLod inst index coords s
   = (Ok tt, bound_statement F32x4 (IR.GetId inst)
               ("=vec4(" +:+ call "textureQueryLod" [texture; coords] +:+ ",0.0,0.0);") s))
  /\ (forall image width,
        Image (ctx s) (IR.Flags inst) index = Ok image ->
        coordinate_cast_width (IR.type (IR.Flags inst)) = Some width ->
        (IR.GetAssociatedSparse inst = None ->
         EmitImageRead inst index coords s
         = (Ok tt, bound_statement U32x4 (IR.GetId inst)
                     ("=uvec4(" +:+ call "imageLoad" [image; int_cast width coords] +:+ ");")
                     s))
        /\ EmitImageWrite inst index coords color s
           = (Ok tt, appended (call "imageStore" [image; int_cast width coords; color] +:+ ";")
                       s)).
Proof.
  split.
  - intros texture Htex. unfold EmitImageQueryLod. run_emitter. rewrite Htex. simpl.
    unfold_calls. by destruct s.
  - intros image width Himage Hwidth. split.
    + intros Hsparse. unfold EmitImageRead. run_emitter. rewrite Hsparse. simpl.
      rewrite Himage. simpl. rewrite (TexelFetchCastToInt_int_cast _ _ _ Hwidth). simpl.
      unfold_calls. by destruct s.
    + unfold EmitImageWrite. run_emitter. rewrite Himage. simpl.
      rewrite (TexelFetchCastToInt_int_cast _ _ _ Hwidth). simpl.
      unfold_calls. by destruct s.
Qed.

End Direct.

Lemma single_call_lowering_witness :
  EmitImageWrite (texture_inst IR.ColorArray2D) IR.VVoid "c" "v" sample_state
  = (Ok tt, appended "imageStore(img2,ivec3(c),v);" sample_state).
Proof.
  exact (proj2 (proj2 (single_call_lowering (texture_inst IR.ColorArray2D) IR.VVoid "c" "v"
                         sample_state) "img2" 3 eq_refl eq_refl)).
Defined.

(** ** The sparse variants *)

Section SparseVariants.

Context {VA : Type} `{!VarAllocOps VA}.


End SparseVariants.

